(** * EquipFlow SEI backend: decision engine, content pipeline, interlinking,
      keyword discovery, maintenance and publisher of [sei_unified.py], and
      the loop of [publish_only.py], embedded in Rocq.

    Python values are modelled as the code has them:
    - [str] as [string]; the text functions below follow Python on ASCII
      text (case mapping and whitespace of characters above 127 are left
      alone, so the model speaks about ASCII keywords and copy);
    - [int] as [Z], [len(...)] as [nat];
    - a JSON document as the tree [json] (its numbers are integers), a
      [dict] as an association list in insertion order;
    - a database row as a record of nullable columns ([option]); the ids of
      the rows are opaque;
    - a Python exception as [None] (or an explicit error constructor) of the
      function that raises it.

    The outside world enters as data: what the store decides on an insert
    ([Store]) or on an upsert into the keyword queue, what the reasoning
    backend replied and which sources were scraped ([GenEnv]), what the CMS
    answered ([CmsResponse]), which pages are stale ([StalePage]).  Reads
    and updates of the two tables are taken to succeed. *)

From Stdlib Require Import String Ascii List ZArith Lia Bool Arith.
From Stdlib Require Import Numbers.DecimalString.
Import ListNotations.
Set Warnings "-register-all".
Open Scope list_scope.
Open Scope string_scope.
Open Scope nat_scope.

(* ===================================================================== *)
(** ** Python [str] operations *)
(* ===================================================================== *)

Module Text.

Definition code (c : ascii) : nat := nat_of_ascii c.

Definition is_upper (c : ascii) : bool :=
  (65 <=? code c) && (code c <=? 90).

Definition is_lower (c : ascii) : bool :=
  (97 <=? code c) && (code c <=? 122).

Definition is_cased (c : ascii) : bool := is_upper c || is_lower c.

Definition lower_char (c : ascii) : ascii :=
  if is_upper c then ascii_of_nat (code c + 32) else c.

Definition upper_char (c : ascii) : ascii :=
  if is_lower c then ascii_of_nat (code c - 32) else c.

(** [str.isspace] on the ASCII range: TAB..CR, FS..US and the blank. *)
Definition is_space (c : ascii) : bool :=
  ((9 <=? code c) && (code c <=? 13)) ||
  ((28 <=? code c) && (code c <=? 32)).

(** [s.lower()] *)
Fixpoint lower (s : string) : string :=
  match s with
  | EmptyString => EmptyString
  | String c r => String (lower_char c) (lower r)
  end.

(** [s.title()]: a cased character is upper-cased when the character before
    it is not cased, and lower-cased otherwise. *)
Fixpoint title_from (prev_cased : bool) (s : string) : string :=
  match s with
  | EmptyString => EmptyString
  | String c r =>
      String (if prev_cased then lower_char c else upper_char c)
             (title_from (is_cased c) r)
  end.

Definition title (s : string) : string := title_from false s.

(** [sub in s] *)
Fixpoint contains (sub s : string) : bool :=
  prefix sub s ||
  match s with
  | EmptyString => false
  | String _ r => contains sub r
  end.

(** [s.replace(old, new)] for a non-empty [old]: the occurrences are taken
    left to right and do not overlap.  [skip] counts the characters of a
    matched occurrence that are still to be dropped. *)
Fixpoint replace_from (skip : nat) (old new s : string) : string :=
  match s with
  | EmptyString => EmptyString
  | String c r =>
      match skip with
      | S k => replace_from k old new r
      | O =>
          if prefix old s
          then new ++ replace_from (String.length old - 1) old new r
          else String c (replace_from 0 old new r)
      end
  end.

(** With [old] empty Python puts [new] before every character and at the
    end. *)
Fixpoint intersperse (new s : string) : string :=
  match s with
  | EmptyString => new
  | String c r => new ++ String c (intersperse new r)
  end.

Definition replace (old new s : string) : string :=
  match old with
  | EmptyString => intersperse new s
  | _ => replace_from 0 old new s
  end.

(** [s.split()]: the maximal runs of non-blank characters. *)
Fixpoint split_from (cur : option string) (s : string) : list string :=
  match s with
  | EmptyString =>
      match cur with Some w => [w] | None => [] end
  | String c r =>
      if is_space c
      then match cur with
           | Some w => w :: split_from None r
           | None => split_from None r
           end
      else match cur with
           | Some w => split_from (Some (w ++ String c EmptyString)) r
           | None => split_from (Some (String c EmptyString)) r
           end
  end.

Definition split (s : string) : list string := split_from None s.

(** [len(s.split())] *)
Definition word_count (s : string) : nat := List.length (split s).

(** [sep.join(l)] *)
Definition join (sep : string) (l : list string) : string := String.concat sep l.

(** [str(n)] for a length. *)
Definition of_nat (n : nat) : string :=
  NilEmpty.string_of_uint (Nat.to_uint n).

(** [str(z)] for an integer. *)
Definition of_Z (z : Z) : string :=
  match z with
  | Zneg p => "-" ++ of_nat (Pos.to_nat p)
  | _ => of_nat (Z.to_nat z)
  end.

(** Truthiness of a string: [if s:]. *)
Definition truthy (s : string) : bool :=
  match s with EmptyString => false | _ => true end.

(** [s * n] *)
Fixpoint repeat (s : string) (n : nat) : string :=
  match n with
  | O => EmptyString
  | S k => s ++ repeat s k
  end.

End Text.

(* ===================================================================== *)
(** ** Brand compliance *)
(* ===================================================================== *)

Definition BANNED_PHRASES : list string :=
  [ "our lending"; "we offer loans"; "we fund"; "our rates"; "we approve";
    "our financing"; "we provide financing"; "our loan products"; "we lend";
    "get approved by us"; "our underwriting"; "we finance"; "our loans" ].

(** [check_brand_compliance(text)]: the verdict and the violated phrases. *)
Definition check_brand_compliance (text : string) : bool * list string :=
  if negb (Text.truthy text) then (true, [])
  else
    let text_lower := Text.lower text in
    let violations :=
      filter (fun phrase => Text.contains phrase text_lower) BANNED_PHRASES in
    (Nat.eqb (List.length violations) 0, violations).

Definition replacements : list (string * string) :=
  [ ("our lending", "lending partners in our network");
    ("our financing", "financing options through our partners");
    ("we offer loans", "our lending partners offer");
    ("we fund", "our lending partners fund");
    ("our rates", "rates from our lending partners");
    ("we approve", "our lending partners approve");
    ("we lend", "our lending partners provide");
    ("our loan products", "loan products from our partners");
    ("we provide financing", "our partners provide financing");
    ("our underwriting", "underwriting by our lending partners");
    ("we finance", "our lending partners finance");
    ("our loans", "loans from our lending partners");
    ("get approved by us", "get approved by our lending partners") ].

(** One turn of the loop of [sanitize_brand_content]. *)
Definition sanitize_step (text : string) (r : string * string) : string :=
  let '(old, new) := r in
  let text := Text.replace old new text in
  Text.replace (Text.title old) (Text.title new) text.

(** [sanitize_brand_content(text)] *)
Definition sanitize_brand_content (text : string) : string :=
  if negb (Text.truthy text) then text
  else fold_left sanitize_step replacements text.

(* ===================================================================== *)
(** ** JSON documents *)
(* ===================================================================== *)

(** What [json.loads] returns; an object keeps its keys in insertion order
    (distinct, as in a [dict]). *)
Inductive json : Type :=
| JNull
| JBool (b : bool)
| JNum (z : Z)
| JStr (s : string)
| JArr (items : list json)
| JObj (entries : list (string * json)).

Definition dict : Type := list (string * json).

Module Dict.

(** [d.get(k)]: [None] when the key is absent. *)
Fixpoint get (k : string) (d : dict) : option json :=
  match d with
  | [] => None
  | (k', v) :: r => if String.eqb k k' then Some v else get k r
  end.

(** [k in d] *)
Definition mem (k : string) (d : dict) : bool :=
  match get k d with Some _ => true | None => false end.

(** [d[k] = v]: an existing key keeps its place, a new one goes last. *)
Fixpoint set (k : string) (v : json) (d : dict) : dict :=
  match d with
  | [] => [(k, v)]
  | (k', v') :: r =>
      if String.eqb k k' then (k, v) :: r else (k', v') :: set k v r
  end.

End Dict.

(** Truthiness of a value: [if v:]. *)
Definition json_truthy (j : json) : bool :=
  match j with
  | JNull => false
  | JBool b => b
  | JNum z => negb (Z.eqb z 0)
  | JStr s => Text.truthy s
  | JArr l => negb (Nat.eqb (List.length l) 0)
  | JObj d => negb (Nat.eqb (List.length d) 0)
  end.

(** The double quote character, as a one-character string. *)
Definition dquote : string := String (ascii_of_nat 34) EmptyString.

Definition hex_digit (n : nat) : ascii :=
  if n <? 10 then ascii_of_nat (48 + n) else ascii_of_nat (87 + n).

(** The escape [json.dumps] writes for one character (ASCII output). *)
Definition json_escape_char (c : ascii) : string :=
  let n := Text.code c in
  if n =? 34 then "\" ++ dquote
  else if n =? 92 then "\\"
  else if n =? 10 then "\n"
  else if n =? 13 then "\r"
  else if n =? 9 then "\t"
  else if n =? 8 then "\b"
  else if n =? 12 then "\f"
  else if (n <? 32) || (126 <? n)
       then "\u00" ++ String (hex_digit (n / 16))
                        (String (hex_digit (n mod 16)) EmptyString)
       else String c EmptyString.

Fixpoint json_escape (s : string) : string :=
  match s with
  | EmptyString => EmptyString
  | String c r => json_escape_char c ++ json_escape r
  end.

Definition json_quote (s : string) : string :=
  dquote ++ json_escape s ++ dquote.

(** [json.dumps(j)] with the default separators. *)
Fixpoint json_dumps (j : json) : string :=
  match j with
  | JNull => "null"
  | JBool true => "true"
  | JBool false => "false"
  | JNum z => Text.of_Z z
  | JStr s => json_quote s
  | JArr l => "[" ++ Text.join ", " (map json_dumps l) ++ "]"
  | JObj d =>
      "{" ++ Text.join ", "
               (map (fun kv => json_quote (fst kv) ++ ": " ++ json_dumps (snd kv)) d)
          ++ "}"
  end.

(** The option monad stands for "raises": [None] is an uncaught Python
    exception. *)
Definition bind {A B : Type} (o : option A) (k : A -> option B) : option B :=
  match o with
  | Some a => k a
  | None => None
  end.

Notation "x <- e ;; k" := (bind e (fun x => k))
  (at level 61, e at next level, right associativity).

(** [len(v)]: defined on strings, lists and objects. *)
Definition py_len (j : json) : option nat :=
  match j with
  | JStr s => Some (String.length s)
  | JArr l => Some (List.length l)
  | JObj d => Some (List.length d)
  | _ => None
  end.

(** [repr] of a list of plain phrases, as an f-string prints it. *)
Definition repr_list (l : list string) : string :=
  "[" ++ Text.join ", " (map (fun s => "'" ++ s ++ "'") l) ++ "]".

(** [f"{x}"] for a nullable text column. *)
Definition fstr (o : option string) : string :=
  match o with
  | Some s => s
  | None => "None"
  end.

(* ===================================================================== *)
(** ** Quality gates *)
(* ===================================================================== *)

Module Gate.

Record QualityGateResult : Type := mk {
  passed : bool;
  failures : list string;
  word_count : nat;
  faq_count : nat;
  source_count : nat }.

(** [len(item.get(k, '').split())]; a value that is not a string has no
    [split]. *)
Definition qa_words (k : string) (item : dict) : option nat :=
  match Dict.get k item with
  | None => Some (Text.word_count EmptyString)
  | Some (JStr s) => Some (Text.word_count s)
  | Some _ => None
  end.

(** The inner loop over a list value: only [dict] items count. *)
Fixpoint list_words (items : list json) : option nat :=
  match items with
  | [] => Some 0
  | JObj item :: r =>
      q <- qa_words "q" item ;;
      a <- qa_words "a" item ;;
      n <- list_words r ;;
      Some (q + a + n)
  | _ :: r => list_words r
  end.

(** The loop over [content.items()]. *)
Fixpoint content_words (content : dict) : option nat :=
  match content with
  | [] => Some 0
  | (_, JStr s) :: r =>
      n <- content_words r ;; Some (Text.word_count s + n)
  | (_, JArr l) :: r =>
      m <- list_words l ;; n <- content_words r ;; Some (m + n)
  | _ :: r => content_words r
  end.

(** [len(content.get('faq', []))] *)
Definition content_faq_count (content : dict) : option nat :=
  match Dict.get "faq" content with
  | None => Some 0
  | Some v => py_len v
  end.

Definition fail_words (wc : nat) (min_words : Z) : string :=
  "word_count (" ++ Text.of_nat wc ++ ") < " ++ Text.of_Z min_words.

Definition fail_sources (sc : nat) (min_sources : Z) : string :=
  "sources (" ++ Text.of_nat sc ++ ") < " ++ Text.of_Z min_sources.

Definition fail_faqs (fc : nat) (min_faqs : Z) : string :=
  "faqs (" ++ Text.of_nat fc ++ ") < " ++ Text.of_Z min_faqs.

Definition fail_brand (violations : list string) : string :=
  "brand_violations: " ++ repr_list violations.

(** [validate_quality_gates(content, sources, min_words, min_sources,
    min_faqs)] *)
Definition validate_quality_gates (content : dict) (sources : list string)
    (min_words min_sources min_faqs : Z) : option QualityGateResult :=
  wc <- content_words content ;;
  fc <- content_faq_count content ;;
  let sc := List.length sources in
  let f1 := if (Z.of_nat wc <? min_words)%Z then [fail_words wc min_words] else [] in
  let f2 := if (Z.of_nat sc <? min_sources)%Z then [fail_sources sc min_sources] else [] in
  let f3 := if (Z.of_nat fc <? min_faqs)%Z then [fail_faqs fc min_faqs] else [] in
  let all_text := json_dumps (JObj content) in
  let '(is_compliant, violations) := check_brand_compliance all_text in
  let f4 := if negb is_compliant then [fail_brand violations] else [] in
  let failures := (f1 ++ f2 ++ f3 ++ f4)%list in
  Some (mk (Nat.eqb (List.length failures) 0) failures wc fc sc).

(** The defaults of the signature. *)
Definition MIN_WORDS : Z := 800.
Definition MIN_SOURCES : Z := 2.
Definition MIN_FAQS : Z := 4.

End Gate.

(* ===================================================================== *)
(** ** The page registry *)
(* ===================================================================== *)

(** Row identifiers are opaque and never empty; the store hands out a new
    one with every insert. *)
Definition uuid : Type := nat.

(** One entry of a hub's [spoke_grid]. *)
Record SpokeGridEntry : Type := {
  sg_url : string;
  sg_title : string;
  sg_keyword : option string }.

(** A row of [decision_nodes]; a column that is NULL reads as [None]. *)
Module Node.

Record t : Type := mk {
  id : uuid;
  primary_keyword : option string;
  url_slug : option string;
  normalized_decision_key : option string;
  node_type : option string;
  equipment_type_id : option uuid;
  page_category : option string;
  spoke_type : option string;
  parent_hub_id : option uuid;
  geo : option string;
  modifier : option string;
  brand_id : option uuid;
  status : option string;
  commercial_score : option Z;
  node_total_volume : option Z;
  difficulty_score : option Z;
  spoke_grid : option (list SpokeGridEntry);
  generated_content : option json;
  word_count : option Z;
  content_version : option Z;
  faq_count : option Z;
  sources_used : option (list string);
  publish_gate_status : option string;
  publish_gate_reason : option (list string);
  short_description : option json;
  schema_json : option json;
  has_schema_markup : option bool;
  serp_signature_hash : option string;
  hero_image_url : option string;
  hero_image_alt : option string;
  webflow_item_id : option string;
  webflow_status : option string }.

(** A row as [insert] receives it: every column not named is NULL. *)
Definition blank : t :=
  mk 0 None None None None None None None None None None None None None None None None None None None None None None None None None None None None None None None.

Definition set_id (v : uuid) (n : t) : t :=
  mk
    v (primary_keyword n) (url_slug n) (normalized_decision_key n)
    (node_type n) (equipment_type_id n) (page_category n)
    (spoke_type n) (parent_hub_id n) (geo n) (modifier n) (brand_id n)
    (status n) (commercial_score n) (node_total_volume n)
    (difficulty_score n) (spoke_grid n) (generated_content n)
    (word_count n) (content_version n) (faq_count n) (sources_used n)
    (publish_gate_status n) (publish_gate_reason n)
    (short_description n) (schema_json n) (has_schema_markup n)
    (serp_signature_hash n) (hero_image_url n) (hero_image_alt n)
    (webflow_item_id n) (webflow_status n).

Definition set_spoke_grid (v : option (list SpokeGridEntry)) (n : t) : t :=
  mk
    (id n) (primary_keyword n) (url_slug n) (normalized_decision_key n)
    (node_type n) (equipment_type_id n) (page_category n)
    (spoke_type n) (parent_hub_id n) (geo n) (modifier n) (brand_id n)
    (status n) (commercial_score n) (node_total_volume n)
    (difficulty_score n) v (generated_content n) (word_count n)
    (content_version n) (faq_count n) (sources_used n)
    (publish_gate_status n) (publish_gate_reason n)
    (short_description n) (schema_json n) (has_schema_markup n)
    (serp_signature_hash n) (hero_image_url n) (hero_image_alt n)
    (webflow_item_id n) (webflow_status n).

Definition set_generated_content (v : option json) (n : t) : t :=
  mk
    (id n) (primary_keyword n) (url_slug n) (normalized_decision_key n)
    (node_type n) (equipment_type_id n) (page_category n)
    (spoke_type n) (parent_hub_id n) (geo n) (modifier n) (brand_id n)
    (status n) (commercial_score n) (node_total_volume n)
    (difficulty_score n) (spoke_grid n) v (word_count n)
    (content_version n) (faq_count n) (sources_used n)
    (publish_gate_status n) (publish_gate_reason n)
    (short_description n) (schema_json n) (has_schema_markup n)
    (serp_signature_hash n) (hero_image_url n) (hero_image_alt n)
    (webflow_item_id n) (webflow_status n).

Definition set_word_count (v : option Z) (n : t) : t :=
  mk
    (id n) (primary_keyword n) (url_slug n) (normalized_decision_key n)
    (node_type n) (equipment_type_id n) (page_category n)
    (spoke_type n) (parent_hub_id n) (geo n) (modifier n) (brand_id n)
    (status n) (commercial_score n) (node_total_volume n)
    (difficulty_score n) (spoke_grid n) (generated_content n) v
    (content_version n) (faq_count n) (sources_used n)
    (publish_gate_status n) (publish_gate_reason n)
    (short_description n) (schema_json n) (has_schema_markup n)
    (serp_signature_hash n) (hero_image_url n) (hero_image_alt n)
    (webflow_item_id n) (webflow_status n).

Definition set_content_version (v : option Z) (n : t) : t :=
  mk
    (id n) (primary_keyword n) (url_slug n) (normalized_decision_key n)
    (node_type n) (equipment_type_id n) (page_category n)
    (spoke_type n) (parent_hub_id n) (geo n) (modifier n) (brand_id n)
    (status n) (commercial_score n) (node_total_volume n)
    (difficulty_score n) (spoke_grid n) (generated_content n)
    (word_count n) v (faq_count n) (sources_used n)
    (publish_gate_status n) (publish_gate_reason n)
    (short_description n) (schema_json n) (has_schema_markup n)
    (serp_signature_hash n) (hero_image_url n) (hero_image_alt n)
    (webflow_item_id n) (webflow_status n).

Definition set_faq_count (v : option Z) (n : t) : t :=
  mk
    (id n) (primary_keyword n) (url_slug n) (normalized_decision_key n)
    (node_type n) (equipment_type_id n) (page_category n)
    (spoke_type n) (parent_hub_id n) (geo n) (modifier n) (brand_id n)
    (status n) (commercial_score n) (node_total_volume n)
    (difficulty_score n) (spoke_grid n) (generated_content n)
    (word_count n) (content_version n) v (sources_used n)
    (publish_gate_status n) (publish_gate_reason n)
    (short_description n) (schema_json n) (has_schema_markup n)
    (serp_signature_hash n) (hero_image_url n) (hero_image_alt n)
    (webflow_item_id n) (webflow_status n).

Definition set_sources_used (v : option (list string)) (n : t) : t :=
  mk
    (id n) (primary_keyword n) (url_slug n) (normalized_decision_key n)
    (node_type n) (equipment_type_id n) (page_category n)
    (spoke_type n) (parent_hub_id n) (geo n) (modifier n) (brand_id n)
    (status n) (commercial_score n) (node_total_volume n)
    (difficulty_score n) (spoke_grid n) (generated_content n)
    (word_count n) (content_version n) (faq_count n) v
    (publish_gate_status n) (publish_gate_reason n)
    (short_description n) (schema_json n) (has_schema_markup n)
    (serp_signature_hash n) (hero_image_url n) (hero_image_alt n)
    (webflow_item_id n) (webflow_status n).

Definition set_status (v : option string) (n : t) : t :=
  mk
    (id n) (primary_keyword n) (url_slug n) (normalized_decision_key n)
    (node_type n) (equipment_type_id n) (page_category n)
    (spoke_type n) (parent_hub_id n) (geo n) (modifier n) (brand_id n)
    v (commercial_score n) (node_total_volume n) (difficulty_score n)
    (spoke_grid n) (generated_content n) (word_count n)
    (content_version n) (faq_count n) (sources_used n)
    (publish_gate_status n) (publish_gate_reason n)
    (short_description n) (schema_json n) (has_schema_markup n)
    (serp_signature_hash n) (hero_image_url n) (hero_image_alt n)
    (webflow_item_id n) (webflow_status n).

Definition set_publish_gate_status (v : option string) (n : t) : t :=
  mk
    (id n) (primary_keyword n) (url_slug n) (normalized_decision_key n)
    (node_type n) (equipment_type_id n) (page_category n)
    (spoke_type n) (parent_hub_id n) (geo n) (modifier n) (brand_id n)
    (status n) (commercial_score n) (node_total_volume n)
    (difficulty_score n) (spoke_grid n) (generated_content n)
    (word_count n) (content_version n) (faq_count n) (sources_used n) v
    (publish_gate_reason n) (short_description n) (schema_json n)
    (has_schema_markup n) (serp_signature_hash n) (hero_image_url n)
    (hero_image_alt n) (webflow_item_id n) (webflow_status n).

Definition set_publish_gate_reason (v : option (list string)) (n : t) : t :=
  mk
    (id n) (primary_keyword n) (url_slug n) (normalized_decision_key n)
    (node_type n) (equipment_type_id n) (page_category n)
    (spoke_type n) (parent_hub_id n) (geo n) (modifier n) (brand_id n)
    (status n) (commercial_score n) (node_total_volume n)
    (difficulty_score n) (spoke_grid n) (generated_content n)
    (word_count n) (content_version n) (faq_count n) (sources_used n)
    (publish_gate_status n) v (short_description n) (schema_json n)
    (has_schema_markup n) (serp_signature_hash n) (hero_image_url n)
    (hero_image_alt n) (webflow_item_id n) (webflow_status n).

Definition set_short_description (v : option json) (n : t) : t :=
  mk
    (id n) (primary_keyword n) (url_slug n) (normalized_decision_key n)
    (node_type n) (equipment_type_id n) (page_category n)
    (spoke_type n) (parent_hub_id n) (geo n) (modifier n) (brand_id n)
    (status n) (commercial_score n) (node_total_volume n)
    (difficulty_score n) (spoke_grid n) (generated_content n)
    (word_count n) (content_version n) (faq_count n) (sources_used n)
    (publish_gate_status n) (publish_gate_reason n) v (schema_json n)
    (has_schema_markup n) (serp_signature_hash n) (hero_image_url n)
    (hero_image_alt n) (webflow_item_id n) (webflow_status n).

Definition set_schema_json (v : option json) (n : t) : t :=
  mk
    (id n) (primary_keyword n) (url_slug n) (normalized_decision_key n)
    (node_type n) (equipment_type_id n) (page_category n)
    (spoke_type n) (parent_hub_id n) (geo n) (modifier n) (brand_id n)
    (status n) (commercial_score n) (node_total_volume n)
    (difficulty_score n) (spoke_grid n) (generated_content n)
    (word_count n) (content_version n) (faq_count n) (sources_used n)
    (publish_gate_status n) (publish_gate_reason n)
    (short_description n) v (has_schema_markup n)
    (serp_signature_hash n) (hero_image_url n) (hero_image_alt n)
    (webflow_item_id n) (webflow_status n).

Definition set_has_schema_markup (v : option bool) (n : t) : t :=
  mk
    (id n) (primary_keyword n) (url_slug n) (normalized_decision_key n)
    (node_type n) (equipment_type_id n) (page_category n)
    (spoke_type n) (parent_hub_id n) (geo n) (modifier n) (brand_id n)
    (status n) (commercial_score n) (node_total_volume n)
    (difficulty_score n) (spoke_grid n) (generated_content n)
    (word_count n) (content_version n) (faq_count n) (sources_used n)
    (publish_gate_status n) (publish_gate_reason n)
    (short_description n) (schema_json n) v (serp_signature_hash n)
    (hero_image_url n) (hero_image_alt n) (webflow_item_id n)
    (webflow_status n).

Definition set_serp_signature_hash (v : option string) (n : t) : t :=
  mk
    (id n) (primary_keyword n) (url_slug n) (normalized_decision_key n)
    (node_type n) (equipment_type_id n) (page_category n)
    (spoke_type n) (parent_hub_id n) (geo n) (modifier n) (brand_id n)
    (status n) (commercial_score n) (node_total_volume n)
    (difficulty_score n) (spoke_grid n) (generated_content n)
    (word_count n) (content_version n) (faq_count n) (sources_used n)
    (publish_gate_status n) (publish_gate_reason n)
    (short_description n) (schema_json n) (has_schema_markup n) v
    (hero_image_url n) (hero_image_alt n) (webflow_item_id n)
    (webflow_status n).

Definition set_webflow_item_id (v : option string) (n : t) : t :=
  mk
    (id n) (primary_keyword n) (url_slug n) (normalized_decision_key n)
    (node_type n) (equipment_type_id n) (page_category n)
    (spoke_type n) (parent_hub_id n) (geo n) (modifier n) (brand_id n)
    (status n) (commercial_score n) (node_total_volume n)
    (difficulty_score n) (spoke_grid n) (generated_content n)
    (word_count n) (content_version n) (faq_count n) (sources_used n)
    (publish_gate_status n) (publish_gate_reason n)
    (short_description n) (schema_json n) (has_schema_markup n)
    (serp_signature_hash n) (hero_image_url n) (hero_image_alt n) v
    (webflow_status n).

Definition set_webflow_status (v : option string) (n : t) : t :=
  mk
    (id n) (primary_keyword n) (url_slug n) (normalized_decision_key n)
    (node_type n) (equipment_type_id n) (page_category n)
    (spoke_type n) (parent_hub_id n) (geo n) (modifier n) (brand_id n)
    (status n) (commercial_score n) (node_total_volume n)
    (difficulty_score n) (spoke_grid n) (generated_content n)
    (word_count n) (content_version n) (faq_count n) (sources_used n)
    (publish_gate_status n) (publish_gate_reason n)
    (short_description n) (schema_json n) (has_schema_markup n)
    (serp_signature_hash n) (hero_image_url n) (hero_image_alt n)
    (webflow_item_id n) v.

End Node.

(** A row of [equipment_types]. *)
Record EquipmentType : Type := {
  et_id : uuid;
  et_name : string;
  et_slug : string;
  et_hub_node_id : option uuid }.

Definition CIRCUIT_BREAKER_THRESHOLD : Z := 3.

(** The class [CircuitBreaker]. *)
Module CircuitBreaker.

Record t : Type := mk {
  threshold : Z;
  failures : Z;
  is_open : bool }.

Definition record_success (b : t) : t :=
  mk (threshold b) 0 false.

Definition record_failure (b : t) : t :=
  let failures := (failures b + 1)%Z in
  mk (threshold b) failures
    (if (threshold b <=? failures)%Z then true else is_open b).

Definition can_proceed (b : t) : bool :=
  negb (is_open b).

Definition reset (b : t) : t :=
  mk (threshold b) 0 false.

End CircuitBreaker.

(** [circuit_breaker = CircuitBreaker()] *)
Definition new_breaker : CircuitBreaker.t :=
  CircuitBreaker.mk CIRCUIT_BREAKER_THRESHOLD 0 false.

(** A request sent to the CMS. *)
Inductive CmsCall : Type :=
| CmsCreate (node_id : uuid)
| CmsUpdate (item_id : string) (node_id : uuid).

(** Everything the pipeline reads and writes: the two tables, the
    [publishing_control] row (absent, or its [publishing_enabled] column),
    the process-wide breaker and the requests sent to the CMS so far. *)
Record World : Type := {
  equipment_types : list EquipmentType;
  decision_nodes : list Node.t;
  publishing_control : option (option bool);
  circuit_breaker : CircuitBreaker.t;
  cms_calls : list CmsCall }.

Definition with_equipment_types (ets : list EquipmentType) (w : World) : World :=
  {| equipment_types := ets;
     decision_nodes := decision_nodes w;
     publishing_control := publishing_control w;
     circuit_breaker := circuit_breaker w;
     cms_calls := cms_calls w |}.

Definition with_decision_nodes (ns : list Node.t) (w : World) : World :=
  {| equipment_types := equipment_types w;
     decision_nodes := ns;
     publishing_control := publishing_control w;
     circuit_breaker := circuit_breaker w;
     cms_calls := cms_calls w |}.

Definition with_circuit_breaker (b : CircuitBreaker.t) (w : World) : World :=
  {| equipment_types := equipment_types w;
     decision_nodes := decision_nodes w;
     publishing_control := publishing_control w;
     circuit_breaker := b;
     cms_calls := cms_calls w |}.

Definition with_cms_calls (cs : list CmsCall) (w : World) : World :=
  {| equipment_types := equipment_types w;
     decision_nodes := decision_nodes w;
     publishing_control := publishing_control w;
     circuit_breaker := circuit_breaker w;
     cms_calls := cs |}.

(** What the hosted database decides on an insert (its schema is not part
    of the repository): whether a new row is taken, given the rows already
    there.  A refused insert is the [except] branch, or the empty
    [result.data], of the code. *)
Record Store : Type := {
  accepts_type : list EquipmentType -> EquipmentType -> bool;
  accepts_node : list Node.t -> Node.t -> bool }.

Definition fresh_id (ids : list uuid) : uuid := S (fold_right Nat.max 0 ids).

Definition opt_eqb {A : Type} (eqb : A -> A -> bool) (o : option A) (a : A) : bool :=
  match o with
  | Some x => eqb x a
  | None => false
  end.

Definition is_null {A : Type} (o : option A) : bool :=
  match o with
  | Some _ => false
  | None => true
  end.

(** Truthiness of an optional string: [if geo:]. *)
Definition opt_truthy (o : option string) : bool :=
  match o with
  | Some s => Text.truthy s
  | None => false
  end.

(** [.update(...).eq('id', node_id)] *)
Definition update_node (node_id : uuid) (f : Node.t -> Node.t) (w : World) : World :=
  with_decision_nodes
    (map (fun n => if Nat.eqb (Node.id n) node_id then f n else n) (decision_nodes w))
    w.

(** [.select(...).eq('id', node_id).single()]: exactly one row, or the
    request raises. *)
Definition single_node (node_id : uuid) (w : World) : option Node.t :=
  match filter (fun n => Nat.eqb (Node.id n) node_id) (decision_nodes w) with
  | [n] => Some n
  | _ => None
  end.

(* ===================================================================== *)
(** ** URL slugs *)
(* ===================================================================== *)

Fixpoint string_rev (s : string) : string :=
  match s with
  | EmptyString => EmptyString
  | String c r => string_rev r ++ String c EmptyString
  end.

Fixpoint string_filter (f : ascii -> bool) (s : string) : string :=
  match s with
  | EmptyString => EmptyString
  | String c r => if f c then String c (string_filter f r) else string_filter f r
  end.

Definition is_dash (c : ascii) : bool := Text.code c =? 45.

Definition is_digit (c : ascii) : bool :=
  (48 <=? Text.code c) && (Text.code c <=? 57).

(** [re.sub(r'\-+', '-', s)] *)
Fixpoint collapse_dashes (s : string) : string :=
  match s with
  | EmptyString => EmptyString
  | String c r =>
      if is_dash c
      then match r with
           | String c' _ => if is_dash c' then collapse_dashes r
                            else String c (collapse_dashes r)
           | EmptyString => String c EmptyString
           end
      else String c (collapse_dashes r)
  end.

Fixpoint lstrip_dashes (s : string) : string :=
  match s with
  | EmptyString => EmptyString
  | String c r => if is_dash c then lstrip_dashes r else s
  end.

(** [s.strip('-')] *)
Definition strip_dashes (s : string) : string :=
  string_rev (lstrip_dashes (string_rev (lstrip_dashes s))).

(** [normalize_text(text)]; on ASCII text the accent stripping changes
    nothing. *)
Definition normalize_text (text : string) : string :=
  if negb (Text.truthy text) then EmptyString
  else Text.join " " (Text.split (Text.lower text)).

(** [generate_url_slug(text)] *)
Definition generate_url_slug (text : string) : string :=
  let normalized := normalize_text text in
  let slug := Text.replace " " "-" normalized in
  let slug := string_filter
                (fun c => Text.is_lower c || is_digit c || is_dash c) slug in
  let slug := collapse_dashes slug in
  substring 0 100 (strip_dashes slug).

(* ===================================================================== *)
(** ** Decision engine and cluster builder *)
(* ===================================================================== *)

(** [ClassifiedKeyword]; the two float scores are not read by the decision
    engine and are left out. *)
Record ClassifiedKeyword : Type := {
  original_keyword : string;
  equipment_type : string;
  ck_geo : option string;
  ck_modifier : option string;
  ck_brand : option string;
  ck_spoke_type : string;
  ck_page_category : string }.

(** The dictionary [decide_and_queue] returns. *)
Record Decision : Type := {
  keyword : string;
  actions : list string;
  pages_created : nat;
  pages_skipped : nat;
  error : option string }.

(** The dictionary [create_equipment_cluster] returns. *)
Record Cluster : Type := {
  cluster_pages_created : nat;
  cluster_pages : list (string * uuid) }.

Definition type_titles : list (string * string) :=
  [ ("financing", "Financing"); ("for-sale", "For Sale"); ("rental", "Rental");
    ("brand", "Brands"); ("modifier", "Special Options") ].

Fixpoint assoc (k : string) (l : list (string * string)) : option string :=
  match l with
  | [] => None
  | (k', v) :: r => if String.eqb k k' then Some v else assoc k r
  end.

Fixpoint traverse {A B : Type} (f : A -> option B) (l : list A) : option (list B) :=
  match l with
  | [] => Some []
  | a :: r => b <- f a ;; bs <- traverse f r ;; Some (b :: bs)
  end.

(** The row filter built by [check_page_exists]. *)
Definition page_filter (equipment_type_id : uuid) (spoke_type : string)
    (geo modifier : option string) (brand_id : option uuid) (n : Node.t) : bool :=
  opt_eqb Nat.eqb (Node.equipment_type_id n) equipment_type_id
  && (if String.eqb spoke_type "hub"
      then opt_eqb String.eqb (Node.page_category n) "hub"
      else opt_eqb String.eqb (Node.spoke_type n) spoke_type)
  && (if opt_truthy geo
      then match geo with
           | Some g => opt_eqb String.eqb (Node.geo n) g
           | None => false
           end
      else is_null (Node.geo n))
  && (if opt_truthy modifier
      then match modifier with
           | Some m => opt_eqb String.eqb (Node.modifier n) m
           | None => false
           end
      else is_null (Node.modifier n))
  && (match brand_id with
      | Some b => opt_eqb Nat.eqb (Node.brand_id n) b
      | None => true
      end).

(** [check_page_exists(...)]: the id of the first matching row. *)
Definition check_page_exists (w : World) (equipment_type_id : uuid)
    (spoke_type : string) (geo modifier : option string)
    (brand_id : option uuid) : option uuid :=
  match filter (page_filter equipment_type_id spoke_type geo modifier brand_id)
               (decision_nodes w) with
  | n :: _ => Some (Node.id n)
  | [] => None
  end.

(** The query both builders use to find the hub of an equipment type. *)
Definition is_hub_of (equipment_type_id : uuid) (n : Node.t) : bool :=
  opt_eqb Nat.eqb (Node.equipment_type_id n) equipment_type_id
  && opt_eqb String.eqb (Node.page_category n) "hub".

Definition find_hub (w : World) (equipment_type_id : uuid) : option uuid :=
  match filter (is_hub_of equipment_type_id) (decision_nodes w) with
  | n :: _ => Some (Node.id n)
  | [] => None
  end.

Definition is_spoke_of (equipment_type_id : uuid) (n : Node.t) : bool :=
  opt_eqb Nat.eqb (Node.equipment_type_id n) equipment_type_id
  && opt_eqb String.eqb (Node.page_category n) "spoke".

(** One entry of the grid; [spoke['spoke_type'].title()] is evaluated for
    every row and raises on a NULL spoke type. *)
Definition grid_entry (n : Node.t) : option SpokeGridEntry :=
  st <- Node.spoke_type n ;;
  let fallback := Text.title st in
  Some {| sg_url := "/equipment/" ++ fstr (Node.url_slug n) ++ "/";
          sg_title := match assoc st type_titles with
                      | Some t => t
                      | None => fallback
                      end;
          sg_keyword := Node.primary_keyword n |}.

(** [update_hub_spoke_grid(hub_node_id, equipment_type_id)] *)
Definition update_hub_spoke_grid (w : World) (hub_node_id equipment_type_id : uuid)
    : option World :=
  spoke_grid <- traverse grid_entry
                  (filter (is_spoke_of equipment_type_id) (decision_nodes w)) ;;
  Some (update_node hub_node_id (Node.set_spoke_grid (Some spoke_grid)) w).

Section DecisionEngine.

Variable db : Store.

(** [.insert(row)]: the store numbers the row and takes it, or refuses. *)
Definition insert_node (w : World) (row : Node.t) : World * option uuid :=
  let n := Node.set_id (fresh_id (map Node.id (decision_nodes w))) row in
  if accepts_node db (decision_nodes w) n
  then (with_decision_nodes (decision_nodes w ++ [n])%list w, Some (Node.id n))
  else (w, None).

(** [get_or_create_equipment_type(equipment_name)] *)
Definition get_or_create_equipment_type (w : World) (equipment_name : string)
    : World * option uuid :=
  let slug := generate_url_slug equipment_name in
  match filter (fun e => String.eqb (et_slug e) slug) (equipment_types w) with
  | e :: _ => (w, Some (et_id e))
  | [] =>
      let row := {| et_id := fresh_id (map et_id (equipment_types w));
                    et_name := Text.title equipment_name;
                    et_slug := slug;
                    et_hub_node_id := None |} in
      if accepts_type db (equipment_types w) row
      then (with_equipment_types (equipment_types w ++ [row])%list w,
            Some (et_id row))
      else (w, None)
  end.

(** [create_spoke_page(...)] *)
Definition create_spoke_page (w : World) (equipment_type_id : uuid)
    (equipment_name spoke_type keyword : string) (geo modifier : option string)
    (brand_id parent_hub_id : option uuid) (volume kd : Z)
    : World * option uuid :=
  let parent_hub_id :=
    match parent_hub_id with
    | Some h => Some h
    | None => find_hub w equipment_type_id
    end in
  let slug_parts :=
    ([equipment_name]
     ++ [if Text.truthy spoke_type && negb (String.eqb spoke_type "financing")
         then Text.replace "-" " " spoke_type
         else "financing"]
     ++ (if opt_truthy geo then [fstr geo] else [])
     ++ (if opt_truthy modifier then [fstr modifier] else []))%list in
  let url_slug := generate_url_slug (Text.join " " slug_parts) in
  insert_node w
    {|
       Node.id := 0;
       Node.primary_keyword := Some keyword;
       Node.url_slug := Some url_slug;
       Node.normalized_decision_key := Some url_slug;
       Node.node_type := Some "spoke";
       Node.equipment_type_id := Some equipment_type_id;
       Node.page_category := Some "spoke";
       Node.spoke_type := Some spoke_type;
       Node.parent_hub_id := parent_hub_id;
       Node.geo := geo;
       Node.modifier := modifier;
       Node.brand_id := brand_id;
       Node.status := Some "discovery";
       Node.commercial_score := None;
       Node.node_total_volume := Some volume;
       Node.difficulty_score := Some kd;
       Node.spoke_grid := None;
       Node.generated_content := None;
       Node.word_count := None;
       Node.content_version := None;
       Node.faq_count := None;
       Node.sources_used := None;
       Node.publish_gate_status := None;
       Node.publish_gate_reason := None;
       Node.short_description := None;
       Node.schema_json := None;
       Node.has_schema_markup := None;
       Node.serp_signature_hash := None;
       Node.hero_image_url := None;
       Node.hero_image_alt := None;
       Node.webflow_item_id := None;
       Node.webflow_status := None |}.

Definition set_hub_node_id (equipment_type_id hub_node_id : uuid) (w : World) : World :=
  with_equipment_types
    (map (fun e => if Nat.eqb (et_id e) equipment_type_id
                   then {| et_id := et_id e; et_name := et_name e;
                           et_slug := et_slug e;
                           et_hub_node_id := Some hub_node_id |}
                   else e)
         (equipment_types w))
    w.

(** The hub part of [create_equipment_cluster]: the hub found or created,
    and the pages counted so far. *)
Definition create_hub (w : World) (equipment_type_id : uuid)
    (equipment_name : string) : World * option uuid * Cluster :=
  match find_hub w equipment_type_id with
  | Some h => (w, Some h, {| cluster_pages_created := 0; cluster_pages := [] |})
  | None =>
      let slug := generate_url_slug equipment_name in
      match insert_node w
              {|
       Node.id := 0;
       Node.primary_keyword := Some (Text.title equipment_name);
       Node.url_slug := Some slug;
       Node.normalized_decision_key := Some slug;
       Node.node_type := Some "hub";
       Node.equipment_type_id := Some equipment_type_id;
       Node.page_category := Some "hub";
       Node.spoke_type := None;
       Node.parent_hub_id := None;
       Node.geo := None;
       Node.modifier := None;
       Node.brand_id := None;
       Node.status := Some "discovery";
       Node.commercial_score := Some 8%Z;
       Node.node_total_volume := None;
       Node.difficulty_score := None;
       Node.spoke_grid := None;
       Node.generated_content := None;
       Node.word_count := None;
       Node.content_version := None;
       Node.faq_count := None;
       Node.sources_used := None;
       Node.publish_gate_status := None;
       Node.publish_gate_reason := None;
       Node.short_description := None;
       Node.schema_json := None;
       Node.has_schema_markup := None;
       Node.serp_signature_hash := None;
       Node.hero_image_url := None;
       Node.hero_image_alt := None;
       Node.webflow_item_id := None;
       Node.webflow_status := None |}
      with
      | (w', Some h) =>
          (set_hub_node_id equipment_type_id h w', Some h,
           {| cluster_pages_created := 1; cluster_pages := [("hub", h)] |})
      | (w', None) =>
          (w', None, {| cluster_pages_created := 0; cluster_pages := [] |})
      end
  end.

Definition default_spokes (equipment_name : string) : list (string * string) :=
  [ ("financing", equipment_name ++ " financing");
    ("for-sale", equipment_name ++ " for sale");
    ("rental", equipment_name ++ " rental") ].

(** The loop over the default spokes. *)
Fixpoint create_default_spokes (spokes : list (string * string)) (w : World)
    (equipment_type_id : uuid) (equipment_name : string)
    (hub_node_id : option uuid) (result : Cluster) : World * Cluster :=
  match spokes with
  | [] => (w, result)
  | (type, kw) :: rest =>
      match check_page_exists w equipment_type_id type None None None with
      | Some _ =>
          create_default_spokes rest w equipment_type_id equipment_name
            hub_node_id result
      | None =>
          match create_spoke_page w equipment_type_id equipment_name type kw
                  None None None hub_node_id 0%Z 0%Z with
          | (w', Some sid) =>
              create_default_spokes rest w' equipment_type_id equipment_name
                hub_node_id
                {| cluster_pages_created := cluster_pages_created result + 1;
                   cluster_pages := (cluster_pages result ++ [(type, sid)])%list |}
          | (w', None) =>
              create_default_spokes rest w' equipment_type_id equipment_name
                hub_node_id result
          end
      end
  end.

(** [create_equipment_cluster(equipment_type_id, equipment_name)]; the
    result is [None] when refreshing the hub's grid raises, with the rows
    inserted so far kept. *)
Definition create_equipment_cluster (w : World) (equipment_type_id : uuid)
    (equipment_name : string) : World * option Cluster :=
  let '(w1, hub_node_id, result) :=
    create_hub w equipment_type_id equipment_name in
  let '(w2, result) :=
    create_default_spokes (default_spokes equipment_name) w1 equipment_type_id
      equipment_name hub_node_id result in
  match hub_node_id with
  | Some h =>
      match update_hub_spoke_grid w2 h equipment_type_id with
      | Some w3 => (w3, Some result)
      | None => (w2, None)
      end
  | None => (w2, Some result)
  end.

Definition cluster_action (c : Cluster) : string :=
  "Created cluster: " ++ Text.of_nat (cluster_pages_created c) ++ " pages".

(** The last part of [decide_and_queue]: the spoke of the keyword itself. *)
Definition decide_spoke (w : World) (classified : ClassifiedKeyword)
    (equipment_type_id : uuid) (volume kd : Z) (result : Decision)
    : World * Decision :=
  if negb (String.eqb (ck_spoke_type classified) "hub") then
    match check_page_exists w equipment_type_id (ck_spoke_type classified)
            (ck_geo classified) (ck_modifier classified) None with
    | Some _ =>
        (w, {| keyword := keyword result;
               actions := app (actions result)
                              ["Skipped: " ++ ck_spoke_type classified
                               ++ " page exists"];
               pages_created := pages_created result;
               pages_skipped := pages_skipped result + 1;
               error := error result |})
    | None =>
        match create_spoke_page w equipment_type_id (equipment_type classified)
                (ck_spoke_type classified) (original_keyword classified)
                (ck_geo classified) (ck_modifier classified) None None
                volume kd with
        | (w', Some _) =>
            (w', {| keyword := keyword result;
                    actions := app (actions result)
                                   ["Created " ++ ck_spoke_type classified
                                    ++ " spoke"];
                    pages_created := pages_created result + 1;
                    pages_skipped := pages_skipped result;
                    error := error result |})
        | (w', None) => (w', result)
        end
    end
  else (w, result).

(** [decide_and_queue(classified, volume, kd)]; [None] when the cluster
    builder raises. *)
Definition decide_and_queue (w : World) (classified : ClassifiedKeyword)
    (volume kd : Z) : World * option Decision :=
  let result := {| keyword := original_keyword classified; actions := [];
                   pages_created := 0; pages_skipped := 0; error := None |} in
  match get_or_create_equipment_type w (equipment_type classified) with
  | (w0, None) =>
      (w0, Some {| keyword := keyword result; actions := [];
                   pages_created := 0; pages_skipped := 0;
                   error := Some "Failed to get equipment type" |})
  | (w0, Some equipment_type_id) =>
      let hub_exists := check_page_exists w0 equipment_type_id "hub" None None None in
      if String.eqb (ck_spoke_type classified) "hub" && is_null hub_exists then
        match create_equipment_cluster w0 equipment_type_id
                (equipment_type classified) with
        | (w1, Some c) =>
            (w1, Some {| keyword := keyword result;
                         actions := [cluster_action c];
                         pages_created := cluster_pages_created c;
                         pages_skipped := 0; error := None |})
        | (w1, None) => (w1, None)
        end
      else if is_null hub_exists then
        match create_equipment_cluster w0 equipment_type_id
                (equipment_type classified) with
        | (w1, Some c) =>
            let '(w2, r) :=
              decide_spoke w1 classified equipment_type_id volume kd
                {| keyword := keyword result;
                   actions := [cluster_action c];
                   pages_created := cluster_pages_created c;
                   pages_skipped := 0; error := None |} in
            (w2, Some r)
        | (w1, None) => (w1, None)
        end
      else
        let '(w2, r) :=
          decide_spoke w0 classified equipment_type_id volume kd result in
        (w2, Some r)
  end.

End DecisionEngine.

(** A store that takes every row. *)
Definition accept_all : Store :=
  {| accepts_type := fun _ _ => true; accepts_node := fun _ _ => true |}.

(** A store that enforces the uniqueness of [url_slug]. *)
Definition unique_slug : Store :=
  {| accepts_type := fun _ _ => true;
     accepts_node := fun rows n =>
       negb (existsb (fun r => match Node.url_slug r, Node.url_slug n with
                               | Some a, Some b => String.eqb a b
                               | _, _ => false
                               end) rows) |}.

Definition empty_world : World :=
  {| equipment_types := []; decision_nodes := []; publishing_control := None;
     circuit_breaker := new_breaker; cms_calls := [] |}.

(* ===================================================================== *)
(** ** Content versioning *)
(* ===================================================================== *)

(** The update of the [except] branch: content and word count, no version. *)
Definition update_content_fallback (w : World) (node_id : uuid) (content : json)
    (word_count : Z) : World :=
  update_node node_id
    (fun n => Node.set_word_count (Some word_count)
                (Node.set_generated_content (Some content) n)) w.

(** [update_content_safe(node_id, content, word_count)] with
    [ENABLE_CONTENT_VERSIONING] on.  The test [word_count >= current_wc * 0.9]
    is taken on the integers as [9 * current_wc <= 10 * word_count]: for
    word counts below [10^14] the float product compares with an integer
    exactly as the rational one does.  A NULL [word_count] or
    [content_version], or a missing row, raises inside the [try] and ends in
    the fallback update. *)
Definition update_content_safe (w : World) (node_id : uuid) (content : json)
    (word_count : Z) : World * bool :=
  match single_node node_id w with
  | None => (update_content_fallback w node_id content word_count, true)
  | Some current =>
      match Node.word_count current with
      | None => (update_content_fallback w node_id content word_count, true)
      | Some current_wc =>
          if (9 * current_wc <=? 10 * word_count)%Z then
            match Node.content_version current with
            | None =>
                (update_content_fallback w node_id content word_count, true)
            | Some current_version =>
                (update_node node_id
                   (fun n => Node.set_content_version (Some (current_version + 1)%Z)
                               (Node.set_word_count (Some word_count)
                                  (Node.set_generated_content (Some content) n)))
                   w, true)
            end
          else (w, false)
      end
  end.

(* ===================================================================== *)
(** ** Content pipeline *)
(* ===================================================================== *)

Definition get_default (k : string) (default : json) (d : dict) : json :=
  match Dict.get k d with
  | Some v => v
  | None => default
  end.

(** [sanitize_brand_content(v)] on an arbitrary value: a falsy value is
    returned as it is, a string is rewritten, anything else has no
    [replace]. *)
Definition sanitize_value (v : json) : option json :=
  if negb (json_truthy v) then Some v
  else match v with
       | JStr s => Some (JStr (sanitize_brand_content s))
       | _ => None
       end.

Definition sanitize_item (item : json) : option json :=
  match item with
  | JObj d =>
      q <- sanitize_value (get_default "q" (JStr EmptyString) d) ;;
      a <- sanitize_value (get_default "a" (JStr EmptyString) d) ;;
      Some (JObj [("q", q); ("a", a)])
  | _ => Some item
  end.

Definition sanitize_entry (kv : string * json) : option (string * json) :=
  match snd kv with
  | JStr s => Some (fst kv, JStr (sanitize_brand_content s))
  | JArr l => l' <- traverse sanitize_item l ;; Some (fst kv, JArr l')
  | _ => Some kv
  end.

(** The sanitising loop of [generate_content_for_node]. *)
Definition sanitize_content (content : dict) : option dict :=
  traverse sanitize_entry content.

(** [sum(len(str(v).split()) for v in content.values() if isinstance(v, str))] *)
Fixpoint string_words (content : dict) : nat :=
  match content with
  | [] => 0
  | (_, JStr s) :: r => Text.word_count s + string_words r
  | _ :: r => string_words r
  end.

Definition faq_item_words (faq : json) : option nat :=
  match faq with
  | JObj d => q <- Gate.qa_words "q" d ;; a <- Gate.qa_words "a" d ;; Some (q + a)
  | _ => None
  end.

(** What [for faq in v] runs over, when every element must be a [dict]:
    iterating a non-empty string or object yields strings, which have no
    [get]. *)
Definition faq_items (v : json) : option (list json) :=
  match v with
  | JArr l => Some l
  | JStr EmptyString => Some []
  | JObj [] => Some []
  | _ => None
  end.

(** The FAQ part of the word count. *)
Definition faq_words (content : dict) : option nat :=
  items <- faq_items (get_default "faq" (JArr []) content) ;;
  ns <- traverse faq_item_words items ;;
  Some (fold_right Nat.add 0 ns).

Section ContentPipeline.

Variable SITE_URL : string.
(** [datetime.now().strftime("%Y-%m-%d")] *)
Variable today : string.

Definition schema_question (faq : json) : option json :=
  match faq with
  | JObj d =>
      Some (JObj [ ("@type", JStr "Question");
                   ("name", get_default "q" (JStr EmptyString) d);
                   ("acceptedAnswer",
                    JObj [ ("@type", JStr "Answer");
                           ("text", get_default "a" (JStr EmptyString) d) ]) ])
  | _ => None
  end.

Definition organization : json :=
  JObj [ ("@type", JStr "Organization"); ("name", JStr "EquipFlow");
         ("url", JStr SITE_URL) ].

Definition list_item (position : nat) (name : json) (item : string) : json :=
  JObj [ ("@type", JStr "ListItem"); ("position", JNum (Z.of_nat position));
         ("name", name); ("item", JStr item) ].

(** [generate_schema_json(seo_title, meta_desc, url_slug, equipment_type, geo,
    faq_list)], as the pipeline calls it (no hero image). *)
Definition generate_schema_json (seo_title meta_desc : json) (url_slug : string)
    (equipment_type : string) (geo : option string) (faq_list : json)
    : option json :=
  let page_url := SITE_URL ++ "/equipment/" ++ url_slug ++ "/" in
  faqs <- (if json_truthy faq_list then faq_items faq_list else Some []) ;;
  main_entity <- traverse schema_question faqs ;;
  let faq_schema :=
    JObj [ ("@context", JStr "https://schema.org"); ("@type", JStr "FAQPage");
           ("mainEntity", JArr main_entity) ] in
  let article_schema :=
    JObj [ ("@context", JStr "https://schema.org"); ("@type", JStr "Article");
           ("headline", seo_title); ("description", meta_desc);
           ("author", organization);
           ("publisher",
            JObj [ ("@type", JStr "Organization"); ("name", JStr "EquipFlow");
                   ("url", JStr SITE_URL);
                   ("logo", JObj [ ("@type", JStr "ImageObject");
                                   ("url", JStr (SITE_URL ++ "/logo.png")) ]) ]);
           ("datePublished", JStr today); ("dateModified", JStr today);
           ("mainEntityOfPage",
            JObj [ ("@type", JStr "WebPage"); ("@id", JStr page_url) ]) ] in
  let service_schema :=
    JObj [ ("@context", JStr "https://schema.org"); ("@type", JStr "Service");
           ("name", JStr (Text.title equipment_type ++ " Financing"));
           ("description", meta_desc);
           ("provider", organization);
           ("areaServed",
            JObj [ ("@type", JStr "Place");
                   ("name", JStr (if opt_truthy geo then fstr geo
                                  else "United States")) ]);
           ("serviceType", JStr "Equipment Financing") ] in
  let breadcrumb_items :=
    ([ list_item 1 (JStr "Home") SITE_URL;
       list_item 2 (JStr "Equipment Financing") (SITE_URL ++ "/equipment-financing") ]
     ++ (if opt_truthy geo
         then [ list_item 3 (JStr (Text.title (fstr geo) ++ " Financing"))
                  (SITE_URL ++ "/"
                   ++ Text.replace " " "-" (Text.lower (fstr geo))
                   ++ "-financing") ]
         else []))%list in
  let breadcrumb_items :=
    (breadcrumb_items
     ++ [ list_item (List.length breadcrumb_items + 1) seo_title page_url ])%list in
  let breadcrumb_schema :=
    JObj [ ("@context", JStr "https://schema.org");
           ("@type", JStr "BreadcrumbList");
           ("itemListElement", JArr breadcrumb_items) ] in
  Some (JObj [ ("@context", JStr "https://schema.org");
               ("@graph", JArr [ faq_schema; article_schema; service_schema;
                                 breadcrumb_schema ]) ]).

(** What the reasoning backend did: the call raised, or its text went
    through [parse_json_safely]. *)
Inductive LlmReply : Type :=
| LlmRaised
| LlmParsed (content : option json).

(** What the outside world contributes to one run of
    [generate_content_for_node]: the competitor sources that were scraped,
    the SERP hash [save_serp_snapshot] stored (if it ran), the budget check
    and the backend's reply. *)
Record GenEnv : Type := {
  env_sources : list string;
  env_serp_hash : option string;
  env_budget_ok : bool;
  env_reply : LlmReply }.

Inductive GenError : Type :=
| ErrMessage (msg : string)
| ErrValidation (errors : list string)
| ErrException.

(** The dictionary [generate_content_for_node] returns. *)
Record Generated : Type := {
  success : bool;
  gen_error : option GenError;
  gen_word_count : option nat;
  gate_passed : option bool;
  schema_generated : bool }.

Definition gen_failed (e : GenError) (schema : bool) : Generated :=
  {| success := false; gen_error := Some e; gen_word_count := None;
     gate_passed := None; schema_generated := schema |}.

Definition find_equipment_type (w : World) (n : Node.t) : option EquipmentType :=
  match Node.equipment_type_id n with
  | Some et =>
      match filter (fun e => Nat.eqb (et_id e) et) (equipment_types w) with
      | e :: _ => Some e
      | [] => None
      end
  | None => None
  end.

(** [node_data.get('equipment_types', {}).get('name', 'Equipment')] *)
Definition equipment_name_of (w : World) (n : Node.t) : string :=
  match find_equipment_type w n with
  | Some e => et_name e
  | None => "Equipment"
  end.

(** The validation block of [generate_content_for_node]. *)
Definition generation_errors (w : World) (n : Node.t) : list string :=
  ((if is_null (Node.equipment_type_id n) then ["Missing equipment_type_id"] else [])
   ++ (if is_null (find_equipment_type w n)
       then ["No linked equipment_types record"] else [])
   ++ (if opt_truthy (Node.page_category n) then []
       else ["Missing page_category (hub/spoke)"])
   ++ (if opt_eqb String.eqb (Node.page_category n) "spoke"
       then (if opt_truthy (Node.spoke_type n) then []
             else ["Missing spoke_type for spoke page"])
            ++ (if is_null (Node.parent_hub_id n)
                then ["Missing parent_hub_id for spoke page"] else [])
       else [])
   ++ (if opt_truthy (Node.url_slug n) then [] else ["Missing url_slug"]))%list.

(** The template of the auto-filled [short_description]. *)
Definition auto_short_description (page_category : string)
    (spoke_type : option string) (equipment_name : string) : string :=
  let name := Text.lower equipment_name in
  if String.eqb page_category "hub"
  then "Compare " ++ name ++ " financing, rental & buying options"
  else if opt_eqb String.eqb spoke_type "financing"
  then "Get flexible " ++ name ++ " financing options"
  else if opt_eqb String.eqb spoke_type "rental"
  then "Rent quality " ++ name ++ " for your project"
  else if opt_eqb String.eqb spoke_type "for-sale"
  then "Find " ++ name ++ " for sale near you"
  else "Explore " ++ name ++ " options".

Definition opt_json (o : option string) : json :=
  match o with
  | Some s => JStr s
  | None => JNull
  end.

(** Everything [generate_content_for_node] computes from the parsed reply
    before it touches the database; [None] when any step raises. *)
Record Draft : Type := {
  draft_content : dict;
  draft_word_count : nat;
  draft_gate : Gate.QualityGateResult;
  draft_schema : json;
  draft_faq_count : nat }.

Definition draft (n : Node.t) (equipment_name : string) (sources : list string)
    (reply : dict) : option Draft :=
  content <- sanitize_content reply ;;
  fw <- faq_words content ;;
  let word_count := string_words content + fw in
  gate_result <- Gate.validate_quality_gates content sources
                   Gate.MIN_WORDS Gate.MIN_SOURCES Gate.MIN_FAQS ;;
  schema_json <- generate_schema_json
                   (get_default "seo_title" (opt_json (Node.primary_keyword n)) content)
                   (get_default "meta_desc" (JStr EmptyString) content)
                   (fstr (Node.url_slug n)) equipment_name (Node.geo n)
                   (get_default "faq" (JArr []) content) ;;
  let content :=
    if json_truthy (get_default "short_description" JNull content) then content
    else Dict.set "short_description"
           (JStr (auto_short_description (fstr (Node.page_category n))
                    (Node.spoke_type n) equipment_name))
           content in
  faq_count <- Gate.content_faq_count content ;;
  Some {| draft_content := content; draft_word_count := word_count;
          draft_gate := gate_result; draft_schema := schema_json;
          draft_faq_count := faq_count |}.

(** The second update of the versioning branch: every column of
    [update_data] but [generated_content] and [word_count]. *)
Definition update_other_fields (d : Draft) (sources : list string) (n : Node.t)
    : Node.t :=
  let g := draft_gate d in
  Node.set_has_schema_markup (Some true)
    (Node.set_schema_json (Some (draft_schema d))
       (Node.set_short_description
          (Some (get_default "short_description" (JStr EmptyString) (draft_content d)))
          (Node.set_publish_gate_reason
             (match Gate.failures g with
              | [] => None
              | _ => Some (Gate.failures g)
              end)
             (Node.set_publish_gate_status
                (Some (if Gate.passed g then "passed" else "blocked"))
                (Node.set_status
                   (Some (if Gate.passed g then "ready_to_publish"
                          else "blocked_quality"))
                   (Node.set_sources_used (Some sources)
                      (Node.set_faq_count (Some (Z.of_nat (draft_faq_count d)))
                         n))))))).

(** [generate_content_for_node(node_id)] *)
Definition generate_content_for_node (w : World) (node_id : uuid) (env : GenEnv)
    : World * Generated :=
  match single_node node_id w with
  | None => (w, gen_failed (ErrMessage "Node not found") false)
  | Some n =>
      match generation_errors w n with
      | (_ :: _) as errors => (w, gen_failed (ErrValidation errors) false)
      | [] =>
          let equipment_name := equipment_name_of w n in
          let w :=
            match env_serp_hash env with
            | Some h => update_node node_id (Node.set_serp_signature_hash (Some h)) w
            | None => w
            end in
          if negb (env_budget_ok env)
          then (w, gen_failed (ErrMessage "Claude budget exceeded") false)
          else
            match env_reply env with
            | LlmRaised => (w, gen_failed ErrException false)
            | LlmParsed (Some (JObj ((_ :: _) as reply))) =>
                match draft n equipment_name (env_sources env) reply with
                | None => (w, gen_failed ErrException false)
                | Some d =>
                    let '(w, _) :=
                      update_content_safe w node_id (JObj (draft_content d))
                        (Z.of_nat (draft_word_count d)) in
                    let w :=
                      update_node node_id
                        (update_other_fields d (env_sources env)) w in
                    (w, {| success := true; gen_error := None;
                           gen_word_count := Some (draft_word_count d);
                           gate_passed := Some (Gate.passed (draft_gate d));
                           schema_generated := true |})
                end
            | LlmParsed (Some (JObj [])) | LlmParsed None =>
                (w, gen_failed (ErrMessage "Failed to parse content") false)
            | LlmParsed (Some others) =>
                if json_truthy others
                then (w, gen_failed ErrException false)
                else (w, gen_failed (ErrMessage "Failed to parse content") false)
            end
      end
  end.

End ContentPipeline.

(* ===================================================================== *)
(** ** Interlinking: anchors injected into the body *)
(* ===================================================================== *)

(** One entry of [related_links]; the text is the linked page's
    [primary_keyword], NULL included. *)
Record Link : Type := {
  link_url : string;
  link_text : option string;
  link_type : string }.

Definition nl : string := String (ascii_of_nat 10) EmptyString.

Definition link_icon (link_type : string) : string :=
  if String.eqb link_type "parent_hub" then "📚 "
  else if String.eqb link_type "sibling" then "→ "
  else "🔗 ".

Definition link_item (link : Link) : string :=
  "<li><a href=" ++ dquote ++ link_url link ++ dquote ++ ">"
    ++ link_icon (link_type link) ++ fstr (link_text link) ++ "</a></li>".

(** [generate_related_links_html(related_links)] *)
Definition generate_related_links_html (related_links : list Link) : string :=
  match related_links with
  | [] => EmptyString
  | _ =>
      "<div class=" ++ dquote ++ "related-links" ++ dquote
        ++ "><h3>Related Resources</h3><ul>"
        ++ String.concat EmptyString (map link_item (firstn 6 related_links))
        ++ "</ul></div>"
  end.

(** Two characters the pattern takes for equal under [re.IGNORECASE]. *)
Definition eqb_ci (a b : ascii) : bool :=
  Ascii.eqb (Text.lower_char a) (Text.lower_char b).

Fixpoint prefix_ci (p s : string) : bool :=
  match p, s with
  | EmptyString, _ => true
  | String a p', String b s' => eqb_ci a b && prefix_ci p' s'
  | String _ _, EmptyString => false
  end.

Fixpoint drop (n : nat) (s : string) : string :=
  match n, s with
  | O, _ => s
  | S k, String _ r => drop k r
  | S _, EmptyString => EmptyString
  end.

(** Whether the pattern
    [(?<!</a>)(?<!href=")(variation)(?!</a>)(?!">)] matches at the cursor;
    [rev_before] is the text left of the cursor, last character first. *)
Definition matches_here (variation rev_before s : string) : bool :=
  prefix_ci variation s
  && negb (prefix_ci (string_rev "</a>") rev_before)
  && negb (prefix_ci (string_rev ("href=" ++ dquote)) rev_before)
  && negb (prefix_ci "</a>" (drop (String.length variation) s))
  && negb (prefix_ci (dquote ++ ">") (drop (String.length variation) s)).

(** [pattern.sub(replacement, s, count=1)] when the pattern matches: the
    leftmost match is replaced.  [None] when [pattern.search] finds
    nothing. *)
Fixpoint sub_first (variation replacement rev_before s : string) : option string :=
  if matches_here variation rev_before s
  then Some (replacement ++ drop (String.length variation) s)
  else match s with
       | EmptyString => None
       | String c r =>
           option_map (String c)
             (sub_first variation replacement (String c rev_before) r)
       end.

Definition anchor (url variation : string) : string :=
  "<a href=" ++ dquote ++ url ++ dquote ++ ">" ++ variation ++ "</a>".

(** The anchor-text variations of one link.  [anchor_text.split()[0]]
    raises on a text made of blanks only. *)
Definition variations (anchor_text : string) : option (list (option string)) :=
  first <- (if Text.contains " " anchor_text
            then match Text.split anchor_text with
                 | w :: _ => Some (Some w)
                 | [] => None
                 end
            else Some None) ;;
  Some [ Some anchor_text; Some (Text.lower anchor_text);
         Some (Text.replace " financing" EmptyString anchor_text); first ].

Inductive Injected : Type :=
| NoMatch
| Replaced (field_content : string).

(** The loop over the variations.  [re] reads the replacement as a
    template, so a backslash in the URL or in the variation is not written
    as it stands (it is expanded, or refused as a bad escape); such a
    substitution is outside the model and ends in [None], like a raise. *)
Fixpoint try_variations (vs : list (option string)) (url field_content : string)
    : option Injected :=
  match vs with
  | [] => Some NoMatch
  | None :: rest => try_variations rest url field_content
  | Some variation :: rest =>
      if String.length variation <? 4
      then try_variations rest url field_content
      else
        match sub_first variation (anchor url variation) EmptyString field_content with
        | Some field_content' =>
            if Text.contains "\" (anchor url variation) then None
            else Some (Replaced field_content')
        | None => try_variations rest url field_content
        end
  end.

Definition max_links_per_field : nat := 2.

(** The loop over the links for one field: the new text and the two
    counters [field_links] and [links_injected] at its end. *)
Fixpoint inject_field (links : list Link) (field_content : string)
    (field_links links_injected : nat) : option (string * nat * nat) :=
  match links with
  | [] => Some (field_content, field_links, links_injected)
  | link :: rest =>
      if max_links_per_field <=? field_links
      then Some (field_content, field_links, links_injected)
      else if 5 <=? links_injected
      then Some (field_content, field_links, links_injected)
      else
        match link_text link with
        | None => inject_field rest field_content field_links links_injected
        | Some anchor_text =>
            if negb (Text.truthy anchor_text) || negb (Text.truthy (link_url link))
            then inject_field rest field_content field_links links_injected
            else
              vs <- variations anchor_text ;;
              r <- try_variations vs (link_url link) field_content ;;
              match r with
              | Replaced field_content' =>
                  inject_field rest field_content' (field_links + 1)
                    (links_injected + 1)
              | NoMatch =>
                  inject_field rest field_content field_links links_injected
              end
        end
  end.

Definition linkable_fields : list string :=
  [ "main_content"; "intro"; "features"; "how_it_works" ].

(** The loop over the fields; the log lists, for every field it rewrote,
    the value of [field_links] at the end of its turn. *)
Fixpoint inject_fields (fields : list string) (links : list Link)
    (content : dict) (links_injected : nat) (log : list (string * nat))
    : option (dict * nat * list (string * nat)) :=
  match fields with
  | [] => Some (content, links_injected, log)
  | field :: rest =>
      match Dict.get field content with
      | Some (JStr field_content) =>
          r <- inject_field links field_content 0 links_injected ;;
          let '(field_content', field_links, links_injected') := r in
          inject_fields rest links
            (Dict.set field (JStr field_content') content) links_injected'
            (log ++ [(field, field_links)])%list
      | _ => inject_fields rest links content links_injected log
      end
  end.

(** [inject_links_into_content(content, related_links)]; appending the
    related block to a [main_content] that is not a string raises. *)
Definition inject_links_into_content (content : dict) (related_links : list Link)
    : option dict :=
  match related_links, content with
  | [], _ => Some content
  | _, [] => Some content
  | _, _ =>
      r <- inject_fields linkable_fields related_links content 0 [] ;;
      let '(content, _, _) := r in
      match Dict.get "main_content" content with
      | None => Some content
      | Some (JStr main_content) =>
          let related_html := generate_related_links_html related_links in
          Some (Dict.set "main_content"
                  (JStr (main_content ++ nl ++ nl ++ related_html)) content)
      | Some _ => None
      end
  end.

(* ===================================================================== *)
(** ** Safety systems and publisher *)
(* ===================================================================== *)

(** [check_kill_switch()]: publishing goes on when the control row cannot
    be read; a row whose flag is false or NULL stops it. *)
Definition check_kill_switch (w : World) : bool :=
  match publishing_control w with
  | Some (Some true) => true
  | Some _ => false
  | None => true
  end.

(** What the CMS answered to the request: the transport raised, or a reply
    came back with its status, the [id] of its body and its text. *)
Inductive CmsResponse : Type :=
| CmsRaised
| CmsReplied (status_code : Z) (id : option string) (text : string).

Inductive PublishError : Type :=
| PubMessage (msg : string)
| PubException.

(** The dictionary [publish_to_webflow] returns. *)
Record Published : Type := {
  pub_success : bool;
  pub_error : option PublishError;
  pub_validation_errors : list string;
  pub_item_id : option string;
  pub_url : option string }.

Definition pub_failed (e : PublishError) (errors : list string) : Published :=
  {| pub_success := false; pub_error := Some e; pub_validation_errors := errors;
     pub_item_id := None; pub_url := None |}.

Definition opt_json_truthy (o : option json) : bool :=
  match o with
  | Some j => json_truthy j
  | None => false
  end.

(** The validation block of [publish_to_webflow]. *)
Definition publish_errors (n : Node.t) : list string :=
  ((if opt_json_truthy (Node.generated_content n) then []
    else ["No generated content"])
   ++ (if opt_truthy (Node.hero_image_url n) then [] else ["No hero image"])
   ++ (if opt_json_truthy (Node.short_description n) then []
       else ["No short description"])
   ++ (if opt_truthy (Node.page_category n) then []
       else ["Missing page_category"])
   ++ (if opt_eqb String.eqb (Node.page_category n) "spoke"
          && negb (opt_truthy (Node.spoke_type n))
       then ["Missing spoke_type"] else []))%list.

Section Publisher.

Variables WEBFLOW_API_TOKEN WEBFLOW_COLLECTION_ID SITE_URL : string.

(** Whether [prepare_webflow_payload(node)] returns; the payload itself
    (Markdown rendered by an outside library) is not modelled, a request
    is identified by the row it carries. *)
Variable payload_ready : Node.t -> bool.

Definition or_else (a b : option string) : option string :=
  if opt_truthy a then a else b.

(** [publish_to_webflow(node_id)]; [cms] is what the CMS answers if it is
    asked.  [None] when building the payload raises. *)
Definition publish_to_webflow (w : World) (node_id : uuid) (cms : CmsResponse)
    : option (World * Published) :=
  if negb (Text.truthy WEBFLOW_API_TOKEN) || negb (Text.truthy WEBFLOW_COLLECTION_ID)
  then Some (w, pub_failed (PubMessage "Webflow not configured") [])
  else if negb (check_kill_switch w)
  then Some (w, pub_failed (PubMessage "Kill switch active") [])
  else if negb (CircuitBreaker.can_proceed (circuit_breaker w))
  then Some (w, pub_failed (PubMessage "Circuit breaker open") [])
  else
    match single_node node_id w with
    | None => Some (w, pub_failed (PubMessage "Node not found") [])
    | Some node_data =>
        let existing_item_id := Node.webflow_item_id node_data in
        match publish_errors node_data with
        | (_ :: _) as validation_errors =>
            Some (w, pub_failed
                       (PubMessage ("Publish validation failed: "
                                    ++ Text.join ", " validation_errors))
                       validation_errors)
        | [] =>
            if negb (payload_ready node_data) then None
            else
              let call :=
                match existing_item_id with
                | Some item => if Text.truthy item then CmsUpdate item node_id
                               else CmsCreate node_id
                | None => CmsCreate node_id
                end in
              let w := with_cms_calls (cms_calls w ++ [call])%list w in
              match cms with
              | CmsRaised =>
                  Some (with_circuit_breaker (CircuitBreaker.record_failure (circuit_breaker w)) w,
                        pub_failed PubException [])
              | CmsReplied status_code id text =>
                  if (status_code =? 200)%Z || (status_code =? 201)%Z
                     || (status_code =? 202)%Z
                  then
                    let item_id := or_else id existing_item_id in
                    let w :=
                      update_node node_id
                        (fun n => Node.set_status (Some "published")
                                    (Node.set_webflow_status (Some "published")
                                       (Node.set_webflow_item_id item_id n)))
                        w in
                    Some (with_circuit_breaker (CircuitBreaker.record_success (circuit_breaker w)) w,
                          {| pub_success := true; pub_error := None;
                             pub_validation_errors := [];
                             pub_item_id := item_id;
                             pub_url := Some (SITE_URL ++ "/equipment/"
                                              ++ fstr (Node.url_slug node_data)
                                              ++ "/") |})
                  else
                    Some (with_circuit_breaker (CircuitBreaker.record_failure (circuit_breaker w)) w,
                          pub_failed
                            (PubMessage ("HTTP " ++ Text.of_Z status_code ++ ": "
                                         ++ substring 0 200 text))
                            [])
              end
        end
    end.

(** A series of publish calls, one after the other, as the batch loops
    make them: each attempt names its row and what the CMS would answer. *)
Fixpoint publish_many (w : World) (attempts : list (uuid * CmsResponse))
    : option (World * list Published) :=
  match attempts with
  | [] => Some (w, [])
  | (node_id, cms) :: rest =>
      r <- publish_to_webflow w node_id cms ;;
      rs <- publish_many (fst r) rest ;;
      Some (fst rs, snd r :: snd rs)
  end.

End Publisher.

(* ===================================================================== *)
(** ** Internal links of a page *)
(* ===================================================================== *)

(** One entry of [related_links], built from the linked row. *)
Definition link_of (link_type : string) (n : Node.t) : Link :=
  {| link_url := "/equipment/" ++ fstr (Node.url_slug n) ++ "/";
     link_text := Node.primary_keyword n;
     link_type := link_type |}.

(** Step 1 of [generate_internal_links]: the parent hub of a spoke, read
    with [.single()], which raises when the row is not there. *)
Definition parent_hub_links (w : World) (node_data : Node.t) : option (list Link) :=
  if opt_eqb String.eqb (Node.page_category node_data) "spoke"
  then match Node.parent_hub_id node_data with
       | Some h => hub <- single_node h w ;; Some [link_of "parent_hub" hub]
       | None => Some []
       end
  else Some [].

(** Step 2: the other spokes of the equipment type. *)
Definition sibling_rows (w : World) (node_id equipment_type_id : uuid) : list Node.t :=
  filter (fun m => opt_eqb Nat.eqb (Node.equipment_type_id m) equipment_type_id
                   && opt_eqb String.eqb (Node.page_category m) "spoke"
                   && negb (Nat.eqb (Node.id m) node_id))
         (decision_nodes w).

(** Step 3: the rows that name the page as their parent hub. *)
Definition child_rows (w : World) (node_id : uuid) : list Node.t :=
  filter (fun m => opt_eqb Nat.eqb (Node.parent_hub_id m) node_id)
         (decision_nodes w).

(** Step 4: up to 4 hubs of other equipment types; a row without
    equipment type does not pass [neq]. *)
Definition related_rows (w : World) (equipment_type_id : uuid) : list Node.t :=
  firstn 4
    (filter (fun m => opt_eqb String.eqb (Node.page_category m) "hub"
                      && match Node.equipment_type_id m with
                         | Some e => negb (Nat.eqb e equipment_type_id)
                         | None => false
                         end)
            (decision_nodes w)).

(** Step 5: the value written back to [generated_content].  A stored
    object goes through [inject_links_into_content]; NULL stays NULL; the
    other shapes a JSON column can hold are followed as Python treats them
    (a list is searched for the field names and indexed by them, a number
    or a boolean cannot be searched).  Parsing a stored non-empty string
    with [json.loads] is outside the model. *)
Definition relinked_content (stored : option json) (related_links : list Link)
    : option (option json) :=
  match stored with
  | None | Some JNull => Some None
  | Some (JStr EmptyString) => Some (Some (JObj []))
  | Some (JStr _) => None
  | Some (JObj content) =>
      match content, related_links with
      | _ :: _, _ :: _ =>
          content' <- inject_links_into_content content related_links ;;
          Some (Some (JObj content'))
      | _, _ => Some (Some (JObj content))
      end
  | Some (JArr items) =>
      match items, related_links with
      | _ :: _, _ :: _ =>
          if existsb (fun field =>
                        existsb (fun item => match item with
                                             | JStr s => String.eqb s field
                                             | _ => false
                                             end) items)
                     linkable_fields
          then None
          else Some (Some (JArr items))
      | _, _ => Some (Some (JArr items))
      end
  | Some other =>
      match related_links with
      | _ :: _ => if json_truthy other then None else Some (Some other)
      | [] => Some (Some other)
      end
  end.

(** [generate_internal_links(node_id)] with [ENABLE_INTERLINKING] on: the
    new registry and the list that is both written to the [related_links]
    column and returned as [links] ([links_added] is its length).  [None]
    is a call that writes nothing and returns no links: the row of the
    page or of its parent hub cannot be read ([.single()] raises), the
    injection raises, or the [equipment_type_id] is NULL (the queries then
    compare the id column with the text [None], which the store
    refuses). *)
Definition generate_internal_links (w : World) (node_id : uuid)
    : option (World * list Link) :=
  node_data <- single_node node_id w ;;
  equipment_type_id <- Node.equipment_type_id node_data ;;
  let page_category := Node.page_category node_data in
  parent <- parent_hub_links w node_data ;;
  let siblings :=
    if opt_eqb String.eqb page_category "spoke"
    then map (link_of "sibling") (sibling_rows w node_id equipment_type_id)
    else [] in
  let children :=
    if opt_eqb String.eqb page_category "hub"
    then map (link_of "child_spoke") (child_rows w node_id)
    else [] in
  let related := map (link_of "related") (related_rows w equipment_type_id) in
  let related_links := (parent ++ siblings ++ children ++ related)%list in
  content <- relinked_content (Node.generated_content node_data) related_links ;;
  Some (update_node node_id (Node.set_generated_content content) w, related_links).

(* ===================================================================== *)
(** ** Keyword discovery: LSI terms and the explorer queue *)
(* ===================================================================== *)

Definition lsi_candidates : list string :=
  [ "equipment loan"; "equipment lease"; "heavy equipment";
    "construction equipment"; "financing options"; "loan terms";
    "interest rate"; "down payment"; "credit score"; "approval";
    "monthly payment"; "lease vs buy"; "tax benefits"; "depreciation";
    "section 179"; "working capital"; "cash flow"; "collateral";
    "application process"; "quick approval"; "same day funding";
    "flexible terms"; "competitive rates"; "equipment lender";
    "commercial loan"; "business financing"; "capital equipment" ].

(** [extract_lsi_keywords(scraped_content, primary_keyword)] *)
Definition extract_lsi_keywords (scraped_content primary_keyword : string)
    : list string :=
  let content_lower := Text.lower scraped_content in
  let found_lsi :=
    filter (fun term => Text.contains term content_lower
                        && negb (Text.contains term (Text.lower primary_keyword)))
           lsi_candidates in
  firstn 10 found_lsi.

Fixpoint lstrip (s : string) : string :=
  match s with
  | EmptyString => EmptyString
  | String c r => if Text.is_space c then lstrip r else s
  end.

(** [s.strip()] *)
Definition strip (s : string) : string :=
  string_rev (lstrip (string_rev (lstrip s))).

(** A row of the keyword queue [market_intelligence_ahrefs], with the
    columns the explorer writes. *)
Record QueueRow : Type := {
  q_keyword : string;
  q_volume : Z;
  q_source : string;
  q_status : string }.

(** [.upsert(row, on_conflict='keyword')]: the row that has the keyword
    takes the new values, or the row is added. *)
Fixpoint upsert (row : QueueRow) (queue : list QueueRow) : list QueueRow :=
  match queue with
  | [] => [row]
  | r :: rest =>
      if String.eqb (q_keyword r) (q_keyword row) then row :: rest
      else r :: upsert row rest
  end.

Definition territory_terms : list string :=
  [ "financing"; "loan"; "lease"; "credit"; "equipment" ].

Section Explorer.

(** Whether the store takes the upsert; a refusal is the [except: pass] of
    the loop. *)
Variable queue_accepts : list QueueRow -> QueueRow -> bool.

(** The loop of [expand_territory]. *)
Fixpoint expand_loop (lsi_keywords : list string) (source_keyword : string)
    (queue : list QueueRow) (queued_count : nat) : list QueueRow * nat :=
  match lsi_keywords with
  | [] => (queue, queued_count)
  | kw :: rest =>
      let clean_kw := Text.lower (strip kw) in
      if String.length clean_kw <? 8
      then expand_loop rest source_keyword queue queued_count
      else if negb (existsb (fun term => Text.contains term clean_kw) territory_terms)
      then expand_loop rest source_keyword queue queued_count
      else if String.eqb clean_kw (Text.lower source_keyword)
      then expand_loop rest source_keyword queue queued_count
      else
        let row := {| q_keyword := clean_kw; q_volume := 100%Z;
                      q_source := "discovered_from:" ++ source_keyword;
                      q_status := "unprocessed" |} in
        if queue_accepts queue row
        then expand_loop rest source_keyword (upsert row queue) (queued_count + 1)
        else expand_loop rest source_keyword queue queued_count
  end.

(** [expand_territory(lsi_keywords, source_keyword)] with [ENABLE_EXPLORER]
    on: the queue afterwards and the number of keywords queued. *)
Definition expand_territory (queue : list QueueRow) (lsi_keywords : list string)
    (source_keyword : string) : list QueueRow * nat :=
  match lsi_keywords with
  | [] => (queue, 0)
  | _ => expand_loop lsi_keywords source_keyword queue 0
  end.

End Explorer.

(* ===================================================================== *)
(** ** Maintenance: refreshing stale pages *)
(* ===================================================================== *)

(** A page [get_stale_pages] returned (the ages of the rows are not
    modelled, so the list is an input), with what the outside world
    answers when the page is regenerated and republished. *)
Record StalePage : Type := {
  stale_id : uuid;
  stale_keyword : option string;
  stale_env : GenEnv;
  stale_cms : CmsResponse }.

Section Maintenance.

Variables WEBFLOW_API_TOKEN WEBFLOW_COLLECTION_ID SITE_URL today : string.
Variable payload_ready : Node.t -> bool.

(** The loop of [refresh_stale_content], with [ENABLE_INTERLINKING] and
    [ENABLE_SAFE_PUBLISHING] on; an exception of the relinking or of the
    publisher leaves the loop. *)
Fixpoint refresh_loop (w : World) (stale_pages : list StalePage)
    (refreshed : list (option string)) : option (World * list (option string)) :=
  match stale_pages with
  | [] => Some (w, refreshed)
  | page :: rest =>
      let node_id := stale_id page in
      let keyword := stale_keyword page in
      let '(w, content_result) :=
        generate_content_for_node SITE_URL today w node_id (stale_env page) in
      if success content_result
      then
        linked <- generate_internal_links w node_id ;;
        published <- publish_to_webflow WEBFLOW_API_TOKEN WEBFLOW_COLLECTION_ID
                       SITE_URL payload_ready (fst linked) node_id
                       (stale_cms page) ;;
        refresh_loop (fst published) rest (refreshed ++ [keyword])%list
      else refresh_loop w rest refreshed
  end.

(** [refresh_stale_content(limit)]: the registry afterwards and the
    [pages] of the result ([refreshed] is their number). *)
Definition refresh_stale_content (w : World) (stale_pages : list StalePage)
    : option (World * list (option string)) :=
  match stale_pages with
  | [] => Some (w, [])
  | _ => refresh_loop w stale_pages []
  end.

End Maintenance.

(* ===================================================================== *)
(** ** The [publish] command and [publish_only.py] *)
(* ===================================================================== *)

Section PublishOnly.

Variables WEBFLOW_API_TOKEN WEBFLOW_COLLECTION_ID SITE_URL : string.
Variable payload_ready : Node.t -> bool.

(** [python sei_unified.py publish <node_id>]: the command runs in a
    process of its own, whose breaker is the closed one the module creates
    when it is loaded.  [None] when the command ends with a traceback. *)
Definition publish_command (w : World) (node_id : uuid) (cms : CmsResponse)
    : option (World * Published) :=
  publish_to_webflow WEBFLOW_API_TOKEN WEBFLOW_COLLECTION_ID SITE_URL payload_ready
    (with_circuit_breaker new_breaker w) node_id cms.

(** The loop of [publish_only.py]: one [publish] command per page, whatever
    became of the command before ([subprocess.run] does not look at it);
    what each command printed is kept. *)
Fixpoint publish_only (w : World) (pages : list (uuid * CmsResponse))
    : World * list (option Published) :=
  match pages with
  | [] => (w, [])
  | (node_id, cms) :: rest =>
      match publish_command w node_id cms with
      | Some (w', result) =>
          let '(w'', results) := publish_only w' rest in
          (w'', Some result :: results)
      | None =>
          let '(w'', results) := publish_only w rest in
          (w'', None :: results)
      end
  end.

End PublishOnly.

(* ===================================================================== *)
(** ** Vocabulary of the properties and sample data *)
(* ===================================================================== *)

(** A registry holding one row. *)
Definition world_of (rows : list Node.t) : World :=
  with_decision_nodes rows empty_world.

(** A row with 1000 words at version 3. *)
Definition versioned_row : Node.t :=
  Node.set_content_version (Some 3%Z)
    (Node.set_word_count (Some 1000%Z)
       (Node.set_generated_content (Some (JObj [("intro", JStr "old text")]))
          (Node.set_id 7 Node.blank))).

(** A row that lacks only its hero image. *)
Definition row_without_hero : Node.t :=
  Node.set_short_description (Some (JStr "Get flexible excavator financing options"))
    (Node.set_generated_content (Some (JObj [("intro", JStr "text")]))
       {| Node.id := 7; Node.primary_keyword := Some "excavator financing";
          Node.url_slug := Some "excavator-financing";
          Node.normalized_decision_key := Some "excavator-financing";
          Node.node_type := Some "spoke"; Node.equipment_type_id := Some 1;
          Node.page_category := Some "spoke"; Node.spoke_type := Some "financing";
          Node.parent_hub_id := Some 1; Node.geo := None; Node.modifier := None;
          Node.brand_id := None; Node.status := Some "ready_to_publish";
          Node.commercial_score := None; Node.node_total_volume := None;
          Node.difficulty_score := None; Node.spoke_grid := None;
          Node.generated_content := None; Node.word_count := Some 1000%Z;
          Node.content_version := Some 1%Z; Node.faq_count := None;
          Node.sources_used := None; Node.publish_gate_status := None;
          Node.publish_gate_reason := None; Node.short_description := None;
          Node.schema_json := None; Node.has_schema_markup := None;
          Node.serp_signature_hash := None; Node.hero_image_url := None;
          Node.hero_image_alt := None; Node.webflow_item_id := None;
          Node.webflow_status := None |}).

Definition open_breaker : CircuitBreaker.t := CircuitBreaker.mk 3 3 true.

(** The same row with its hero image: nothing is missing. *)
Definition complete_row : Node.t :=
  {| Node.id := 7; Node.primary_keyword := Some "excavator financing";
     Node.url_slug := Some "excavator-financing";
     Node.normalized_decision_key := Some "excavator-financing";
     Node.node_type := Some "spoke"; Node.equipment_type_id := Some 1;
     Node.page_category := Some "spoke"; Node.spoke_type := Some "financing";
     Node.parent_hub_id := Some 1; Node.geo := None; Node.modifier := None;
     Node.brand_id := None; Node.status := Some "ready_to_publish";
     Node.commercial_score := None; Node.node_total_volume := None;
     Node.difficulty_score := None; Node.spoke_grid := None;
     Node.generated_content := Some (JObj [("intro", JStr "text")]);
     Node.word_count := Some 1000%Z;
     Node.content_version := Some 1%Z; Node.faq_count := None;
     Node.sources_used := None; Node.publish_gate_status := None;
     Node.publish_gate_reason := None;
     Node.short_description :=
       Some (JStr "Get flexible excavator financing options");
     Node.schema_json := None; Node.has_schema_markup := None;
     Node.serp_signature_hash := None;
     Node.hero_image_url := Some "https://cdn.example/excavator.webp";
     Node.hero_image_alt := None; Node.webflow_item_id := None;
     Node.webflow_status := None |}.

(** A registry left by some other writer: a spoke row of equipment type 1
    without spoke type, and no hub. *)
Definition untyped_spoke_world : World :=
  with_equipment_types
    [ {| et_id := 1; et_name := "Excavator"; et_slug := "excavator";
         et_hub_node_id := None |} ]
    (world_of [ Node.set_word_count None
                  (Node.mk 3 (Some "excavator leasing") (Some "excavator-leasing")
                     (Some "excavator-leasing") (Some "spoke") (Some 1)
                     (Some "spoke") None None None None None (Some "discovery")
                     None None None None None None None None None None None
                     None None None None None None None None) ]).


(** The row as it is when the reply comes back: the SERP hash may have been
    stored in between. *)
Definition after_intelligence (env : GenEnv) (n : Node.t) : Node.t :=
  match env_serp_hash env with
  | Some h => Node.set_serp_signature_hash (Some h) n
  | None => n
  end.

Definition world_after_intelligence (env : GenEnv) (node_id : uuid) (w : World)
    : World :=
  match env_serp_hash env with
  | Some h => update_node node_id (Node.set_serp_signature_hash (Some h)) w
  | None => w
  end.

(** A sample registry: one equipment type and one financing spoke with
    1000 words at version 1. *)
Definition sample_world : World :=
  with_equipment_types
    [ {| et_id := 1; et_name := "Excavator"; et_slug := "excavator";
         et_hub_node_id := Some 1 |} ]
    (world_of [row_without_hero]).

Definition sample_faq : json :=
  JObj [ ("q", JStr "How does excavator financing work?");
         ("a", JStr "Lending partners in the network review the application.") ].

(** A reply with [words] words of body and [faqs] FAQ entries. *)
Definition sample_reply (words faqs : nat) : dict :=
  [ ("seo_title", JStr "Excavator Financing");
    ("main_content", JStr (Text.repeat "loader " words));
    ("faq", JArr (List.repeat sample_faq faqs)) ].

Definition sample_env (words faqs : nat) : GenEnv :=
  {| env_sources := [ "https://a.example/guide"; "https://b.example/rates" ];
     env_serp_hash := Some "9f86d081";
     env_budget_ok := true;
     env_reply := LlmParsed (Some (JObj (sample_reply words faqs))) |}.

(** The draft of the sample run: 864 words, four FAQ entries, two sources. *)
Definition sample_draft : option Draft :=
  draft "https://equipflow.co" "2026-01-15" row_without_hero
    (equipment_name_of sample_world row_without_hero)
    (env_sources (sample_env 810 4)) (sample_reply 810 4).

Fixpoint take (n : nat) (s : string) : string :=
  match n, s with
  | S k, String c r => String c (take k r)
  | _, _ => EmptyString
  end.

(** [k] anchors were put into the first text, one after the other, each
    around an occurrence as long as its anchor text, to give the second. *)
Inductive wraps : nat -> string -> string -> Prop :=
| wraps_none : forall s, wraps 0 s s
| wraps_more : forall k pre m post url variation s',
    String.length m = String.length variation ->
    wraps k (pre ++ anchor url variation ++ post) s' ->
    wraps (S k) (pre ++ m ++ post) s'.

Definition link_to (url text : string) : Link :=
  {| link_url := url; link_text := Some text; link_type := "sibling" |}.

(** A discriminator as the classifier means it: NULL or a non-empty
    string. *)
Definition discriminator_ok (o : option string) : bool :=
  match o with
  | Some s => Text.truthy s
  | None => true
  end.

(** The dedup key of a spoke request, as [decide_and_queue] looks it up. *)
Definition key_filter (et : uuid) (st : string) (g m : option string)
    : Node.t -> bool :=
  page_filter et st g m None.

Definition all_ids (w : World) : list uuid := map Node.id (decision_nodes w).

(** The ids of the rows that answer a query. *)
Definition ids_of (p : Node.t -> bool) (w : World) : list uuid :=
  map Node.id (filter p (decision_nodes w)).

(** Every spoke row carries a spoke type (the grid of a hub cannot be
    written otherwise). *)
Definition spokes_typed (w : World) : Prop :=
  Forall (fun n => Node.page_category n = Some "spoke" -> Node.spoke_type n <> None)
         (decision_nodes w).

(** How the rows of one key may move in a step of the engine: the rows
    already there stay, a key that has a row keeps exactly its rows, and a
    key without a row gets at most one, under a new id. *)
Definition keeps_key (p : Node.t -> bool) (w w' : World) : Prop :=
  (forall i, In i (all_ids w) -> In i (all_ids w'))
  /\ (ids_of p w <> [] -> ids_of p w' = ids_of p w)
  /\ (ids_of p w = [] ->
      ids_of p w' = [] \/ exists i, ids_of p w' = [i] /\ ~ In i (all_ids w)).

(** A query that does not read the grid of a hub. *)
Definition grid_blind (p : Node.t -> bool) : Prop :=
  forall g n, p (Node.set_spoke_grid g n) = p n.

(** The rows of the first world are still there in the second, in the same
    order and before any new one. *)
Definition extends (w w' : World) : Prop :=
  forall p, grid_blind p -> exists extra, ids_of p w' = (ids_of p w ++ extra)%list.

Definition keeps_keys (w w' : World) : Prop :=
  forall et st g m,
    st <> "hub" -> discriminator_ok g = true -> discriminator_ok m = true ->
    keeps_key (key_filter et st g m) w w'.

Definition type_index (w : World) : list (uuid * string) :=
  map (fun e => (et_id e, et_slug e)) (equipment_types w).

(** What every step of the engine keeps. *)
Definition engine_step (w w' : World) : Prop :=
  keeps_keys w w' /\ extends w w'
  /\ (spokes_typed w -> spokes_typed w')
  /\ type_index w' = type_index w.

(** The default spokes of an equipment type all have a row. *)
Definition cluster_complete (et : uuid) (name : string) (w : World) : Prop :=
  forall s, In s (default_spokes name) ->
            ids_of (key_filter et (fst s) None None) w <> [].

(** The dedup key of a request, once its equipment type is resolved. *)
Definition request_key (et : uuid) (k : ClassifiedKeyword) : Node.t -> bool :=
  key_filter et (ck_spoke_type k) (ck_geo k) (ck_modifier k).

(** The same request for another geography. *)
Definition with_geo (g : option string) (k : ClassifiedKeyword) : ClassifiedKeyword :=
  {| original_keyword := original_keyword k; equipment_type := equipment_type k;
     ck_geo := g; ck_modifier := ck_modifier k; ck_brand := ck_brand k;
     ck_spoke_type := ck_spoke_type k; ck_page_category := ck_page_category k |}.

Definition summary (n : Node.t)
    : uuid * option string * option string * option string * option uuid :=
  (Node.id n, Node.url_slug n, Node.page_category n, Node.geo n,
   Node.parent_hub_id n).

(** A request whose geography came back as the empty string. *)
Definition blank_geo_request : ClassifiedKeyword :=
  {| original_keyword := "excavator bad credit financing";
     equipment_type := "excavator";
     ck_geo := Some EmptyString; ck_modifier := Some "bad-credit"; ck_brand := None;
     ck_spoke_type := "modifier"; ck_page_category := "spoke" |}.

Definition texas_geo_request : ClassifiedKeyword :=
  {| original_keyword := "excavator financing texas";
     equipment_type := "excavator";
     ck_geo := Some "texas"; ck_modifier := None; ck_brand := None;
     ck_spoke_type := "financing"; ck_page_category := "spoke" |}.

Definition texas_modifier_request : ClassifiedKeyword :=
  {| original_keyword := "excavator financing texas";
     equipment_type := "excavator";
     ck_geo := None; ck_modifier := Some "texas"; ck_brand := None;
     ck_spoke_type := "financing"; ck_page_category := "spoke" |}.

(** The world after a run, when the run returns. *)
Definition after (db : Store) (w : World) (k : ClassifiedKeyword) : World :=
  fst (decide_and_queue db w k 0%Z 0%Z).

Definition truck_rental_request : ClassifiedKeyword :=
  {| original_keyword := "truck rental"; equipment_type := "truck";
     ck_geo := None; ck_modifier := None; ck_brand := None;
     ck_spoke_type := "rental"; ck_page_category := "spoke" |}.

(** The classifier took "truck rental" for the equipment. *)
Definition truck_rental_financing_request : ClassifiedKeyword :=
  {| original_keyword := "truck rental financing";
     equipment_type := "truck rental";
     ck_geo := None; ck_modifier := None; ck_brand := None;
     ck_spoke_type := "financing"; ck_page_category := "spoke" |}.

(** I2 for one row: a spoke names a hub of its own equipment type. *)
Definition parent_ok (w : World) (n : Node.t) : Prop :=
  Node.page_category n = Some "spoke" ->
  exists h et,
    Node.parent_hub_id n = Some h /\ Node.equipment_type_id n = Some et
    /\ In h (ids_of (is_hub_of et) w).

Definition referential (w : World) : Prop :=
  Forall (parent_ok w) (decision_nodes w).

(** I1 for hubs: at most one hub per equipment type. *)
Definition one_hub (w : World) : Prop :=
  forall et, List.length (ids_of (is_hub_of et) w) <= 1.

Definition registry_ok (w : World) : Prop :=
  referential w /\ one_hub w /\ spokes_typed w.

(** Every character of the string passes the test. *)
Fixpoint all_chars (f : ascii -> bool) (s : string) : bool :=
  match s with
  | EmptyString => true
  | String c r => f c && all_chars f r
  end.

(** The characters a slug is made of. *)
Definition slug_char (c : ascii) : bool :=
  Text.is_lower c || is_digit c || is_dash c.

(** What the callers do to the breaker. *)
Inductive BreakerCall : Type :=
| CallSuccess
| CallFailure
| CallReset.

Definition breaker_call (b : CircuitBreaker.t) (c : BreakerCall) : CircuitBreaker.t :=
  match c with
  | CallSuccess => CircuitBreaker.record_success b
  | CallFailure => CircuitBreaker.record_failure b
  | CallReset => CircuitBreaker.reset b
  end.

(** The process-wide breaker after a history of calls, oldest first. *)
Definition breaker_after (calls : list BreakerCall) : CircuitBreaker.t :=
  fold_left breaker_call calls new_breaker.

Fixpoint leading_failures (calls : list BreakerCall) : nat :=
  match calls with
  | CallFailure :: rest => S (leading_failures rest)
  | _ => 0
  end.

(** The number of failures since the last success or reset. *)
Definition trailing_failures (calls : list BreakerCall) : nat :=
  leading_failures (rev calls).

(** The rows that do not carry the id. *)
Definition other_rows (node_id : uuid) (w : World) : list Node.t :=
  filter (fun n => negb (Nat.eqb (Node.id n) node_id)) (decision_nodes w).

(** A spoke row as the decision engine leaves it: no content, no word
    count, no version. *)
Definition discovery_row : Node.t :=
  {| Node.id := 7; Node.primary_keyword := Some "excavator financing";
     Node.url_slug := Some "excavator-financing";
     Node.normalized_decision_key := Some "excavator-financing";
     Node.node_type := Some "spoke"; Node.equipment_type_id := Some 1;
     Node.page_category := Some "spoke"; Node.spoke_type := Some "financing";
     Node.parent_hub_id := Some 1; Node.geo := None; Node.modifier := None;
     Node.brand_id := None; Node.status := Some "discovery";
     Node.commercial_score := None; Node.node_total_volume := Some 0%Z;
     Node.difficulty_score := Some 0%Z; Node.spoke_grid := None;
     Node.generated_content := None; Node.word_count := None;
     Node.content_version := None; Node.faq_count := None;
     Node.sources_used := None; Node.publish_gate_status := None;
     Node.publish_gate_reason := None; Node.short_description := None;
     Node.schema_json := None; Node.has_schema_markup := None;
     Node.serp_signature_hash := None; Node.hero_image_url := None;
     Node.hero_image_alt := None; Node.webflow_item_id := None;
     Node.webflow_status := None |}.

(** A spoke row that has its hero image but no content yet. *)
Definition illustrated_row : Node.t :=
  {| Node.id := 7; Node.primary_keyword := Some "excavator financing";
     Node.url_slug := Some "excavator-financing";
     Node.normalized_decision_key := Some "excavator-financing";
     Node.node_type := Some "spoke"; Node.equipment_type_id := Some 1;
     Node.page_category := Some "spoke"; Node.spoke_type := Some "financing";
     Node.parent_hub_id := Some 1; Node.geo := None; Node.modifier := None;
     Node.brand_id := None; Node.status := Some "discovery";
     Node.commercial_score := None; Node.node_total_volume := Some 0%Z;
     Node.difficulty_score := Some 0%Z; Node.spoke_grid := None;
     Node.generated_content := None; Node.word_count := None;
     Node.content_version := None; Node.faq_count := None;
     Node.sources_used := None; Node.publish_gate_status := None;
     Node.publish_gate_reason := None; Node.short_description := None;
     Node.schema_json := None; Node.has_schema_markup := None;
     Node.serp_signature_hash := None;
     Node.hero_image_url := Some "https://cdn.example/excavator.webp";
     Node.hero_image_alt := None; Node.webflow_item_id := None;
     Node.webflow_status := None |}.

Definition illustrated_world : World :=
  with_equipment_types
    [ {| et_id := 1; et_name := "Excavator"; et_slug := "excavator";
         et_hub_node_id := Some 1 |} ]
    (world_of [illustrated_row]).

(** A short reply: 40 words, one FAQ entry. *)
Definition short_env : GenEnv := sample_env 40 1.

(** How the rows may move in a run, whatever the store decides: the rows
    already there stay where they are, and an equipment type that has a
    hub gets no second one. *)
Definition grows (w w' : World) : Prop :=
  extends w w'
  /\ forall et,
       List.length (ids_of (is_hub_of et) w') <= 1
       \/ List.length (ids_of (is_hub_of et) w')
          <= List.length (ids_of (is_hub_of et) w).

(** A store that refuses every row. *)
Definition refuse_all : Store :=
  {| accepts_type := fun _ _ => false; accepts_node := fun _ _ => false |}.

(** What a run appends to a field: the related block after [main_content],
    nothing after the other fields. *)
Definition appended_block (field : string) (related_links : list Link) : string :=
  if String.eqb field "main_content"
  then nl ++ nl ++ generate_related_links_html related_links
  else EmptyString.

Definition is_text (v : option json) : bool :=
  match v with
  | Some (JStr _) => true
  | _ => false
  end.


(** A hub, two of its spokes and the hub of another equipment type; the
    financing spoke has content. *)
Definition linked_world : World :=
  world_of
    [ Node.mk 1 (Some "Excavator") (Some "excavator") (Some "excavator")
        (Some "hub") (Some 1) (Some "hub") None None None None None
        (Some "published") None None None None None None None None None None None
        None None None None None None None None;
      Node.set_generated_content
        (Some (JObj [("main_content", JStr "Compare excavator rental offers")]))
        (Node.mk 2 (Some "excavator financing") (Some "excavator-financing")
           (Some "excavator-financing") (Some "spoke") (Some 1) (Some "spoke")
           (Some "financing") (Some 1) None None None (Some "published")
           None None None None None None None None None None None
           None None None None None None None None);
      Node.mk 3 (Some "excavator rental") (Some "excavator-rental")
        (Some "excavator-rental") (Some "spoke") (Some 1) (Some "spoke")
        (Some "rental") (Some 1) None None None (Some "published")
        None None None None None None None None None None None
        None None None None None None None None;
      Node.mk 4 (Some "Forklift") (Some "forklift") (Some "forklift")
        (Some "hub") (Some 2) (Some "hub") None None None None None
        (Some "published") None None None None None None None None None None None
        None None None None None None None None ].

(** A queue store that takes every upsert. *)
Definition queue_accepts_all : list QueueRow -> QueueRow -> bool :=
  fun _ _ => true.

(** The filter of [expand_territory] on a cleaned keyword. *)
Definition worth_queueing (clean_kw source_keyword : string) : bool :=
  negb (String.length clean_kw <? 8)
  && existsb (fun term => Text.contains term clean_kw) territory_terms
  && negb (String.eqb clean_kw (Text.lower source_keyword)).

(** The row the explorer writes for a cleaned keyword. *)
Definition discovered_row (clean_kw source_keyword : string) : QueueRow :=
  {| q_keyword := clean_kw; q_volume := 100%Z;
     q_source := "discovered_from:" ++ source_keyword;
     q_status := "unprocessed" |}.

(** The sanitised value of a reply value. *)
Definition sanitized_item (item item' : json) : Prop :=
  match item with
  | JObj _ => exists q a, item' = JObj [("q", q); ("a", a)]
  | _ => item' = item
  end.

Definition sanitized_entry (kv kv' : string * json) : Prop :=
  fst kv' = fst kv
  /\ match snd kv with
     | JStr s => snd kv' = JStr (sanitize_brand_content s)
     | JArr items => exists items', snd kv' = JArr items'
                                    /\ Forall2 sanitized_item items items'
     | v => snd kv' = v
     end.

(** The registry of a page that is published and complete while the
    breaker is open. *)
Definition tripped_world : World :=
  with_circuit_breaker open_breaker
    (with_equipment_types
       [ {| et_id := 1; et_name := "Excavator"; et_slug := "excavator";
            et_hub_node_id := Some 1 |} ]
       (world_of
          [ Node.mk 1 (Some "Excavator") (Some "excavator") (Some "excavator")
              (Some "hub") (Some 1) (Some "hub") None None None None None
              (Some "published") None None None None None None None None None
              None None None None None None None None None None;
            complete_row ])).

Definition stale_sample : StalePage :=
  {| stale_id := 7; stale_keyword := Some "excavator financing";
     stale_env := sample_env 810 4;
     stale_cms := CmsReplied 200 (Some "item-1") "ok" |}.

(* ===================================================================== *)
(** * Properties *)
(* ===================================================================== *)

(** ** Rows and updates *)

Lemma filter_map_same {A : Type} (p : A -> bool) (g : A -> A) (l : list A) :
  (forall a, p (g a) = p a) ->
  filter p (map g l) = map g (filter p l).
Proof.
  intros Hp; induction l as [|a l IH]; simpl; [reflexivity|].
  rewrite Hp; destruct (p a); simpl; now rewrite IH.
Qed.

Lemma single_node_id node_id w n :
  single_node node_id w = Some n -> Node.id n = node_id.
Proof.
  unfold single_node; intros H.
  destruct (filter _ _) as [|m [|m' l]] eqn:E; try discriminate.
  injection H as <-.
  assert (In m (filter (fun n => Node.id n =? node_id) (decision_nodes w)))
    as Hin by (rewrite E; now left).
  apply filter_In in Hin; now apply Nat.eqb_eq.
Qed.

(** An update that keeps the [id] column rewrites the one row it is
    aimed at. *)
Lemma single_node_update node_id w n f :
  (forall m, Node.id (f m) = Node.id m) ->
  single_node node_id w = Some n ->
  single_node node_id (update_node node_id f w) = Some (f n).
Proof.
  intros Hid H; pose proof (single_node_id _ _ _ H) as Hn.
  unfold single_node, update_node in *; simpl.
  rewrite filter_map_same.
  - destruct (filter _ _) as [|m [|m' l]] eqn:E; try discriminate.
    injection H as ->; simpl. now rewrite Hn, Nat.eqb_refl.
  - intros a; destruct (Node.id a =? node_id) eqn:Ea; [now rewrite Hid|exact Ea].
Qed.

(** ** Circuit breaker *)

Lemma record_failure_threshold b :
  CircuitBreaker.threshold (CircuitBreaker.record_failure b) = CircuitBreaker.threshold b.
Proof. reflexivity. Qed.

Lemma record_failure_failures b :
  CircuitBreaker.failures (CircuitBreaker.record_failure b) = (CircuitBreaker.failures b + 1)%Z.
Proof. reflexivity. Qed.

Lemma record_failure_opens b :
  (CircuitBreaker.threshold b <= CircuitBreaker.failures b + 1)%Z ->
  CircuitBreaker.is_open (CircuitBreaker.record_failure b) = true.
Proof.
  intros H; unfold CircuitBreaker.record_failure; simpl.
  destruct (Z.leb_spec (CircuitBreaker.threshold b) (CircuitBreaker.failures b + 1));
    [reflexivity|lia].
Qed.

Section PublisherFacts.

Variables token collection site : string.
Variable ready : Node.t -> bool.

Let publish := publish_to_webflow token collection site ready.
Let publish_series := publish_many token collection site ready.

(** With the breaker open a publish call returns before it reads the row,
    whatever the CMS would have answered. *)
Lemma publish_open_breaker w node_id cms :
  CircuitBreaker.is_open (circuit_breaker w) = true ->
  exists e, publish w node_id cms = Some (w, pub_failed (PubMessage e) []).
Proof.
  intros Hopen; unfold publish, publish_to_webflow, CircuitBreaker.can_proceed.
  destruct (negb (Text.truthy token) || negb (Text.truthy collection)); [eauto|].
  destruct (negb (check_kill_switch w)); [eauto|].
  rewrite Hopen; simpl; eauto.
Qed.

Lemma publish_series_open_breaker attempts : forall w,
  CircuitBreaker.is_open (circuit_breaker w) = true ->
  exists rs, publish_series w attempts = Some (w, rs)
             /\ List.length rs = List.length attempts
             /\ Forall (fun r => pub_success r = false /\ pub_error r <> None) rs.
Proof.
  induction attempts as [|[node_id cms] rest IH]; intros w Hopen; simpl.
  - exists []; repeat split; constructor.
  - destruct (publish_open_breaker w node_id cms Hopen) as [e He].
    unfold publish in He; rewrite He; simpl.
    destruct (IH w Hopen) as (rs & Hrs & Hlen & Hall).
    fold publish_series in Hrs; rewrite Hrs; simpl.
    eexists; repeat split; [simpl; now rewrite Hlen|].
    constructor; [split; [reflexivity|discriminate]|exact Hall].
Qed.

(** A call that reaches the CMS records the outcome on the breaker. *)
Lemma publish_records w node_id cms w' r :
  publish w node_id cms = Some (w', r) ->
  cms_calls w' <> cms_calls w ->
  circuit_breaker w' =
    (if pub_success r then CircuitBreaker.record_success (circuit_breaker w)
     else CircuitBreaker.record_failure (circuit_breaker w)).
Proof.
  unfold publish, publish_to_webflow; intros H Hcalls.
  destruct (negb (Text.truthy token) || negb (Text.truthy collection));
    [injection H as <- <-; now destruct Hcalls|].
  destruct (negb (check_kill_switch w)); [injection H as <- <-; now destruct Hcalls|].
  destruct (negb (CircuitBreaker.can_proceed (circuit_breaker w)));
    [injection H as <- <-; now destruct Hcalls|].
  destruct (single_node node_id w) as [n|]; [|injection H as <- <-; now destruct Hcalls].
  destruct (publish_errors n); [|injection H as <- <-; now destruct Hcalls].
  destruct (negb (ready n)); [discriminate|].
  destruct cms as [|code id text]; [injection H as <- <-; reflexivity|].
  destruct ((code =? 200)%Z || (code =? 201)%Z || (code =? 202)%Z);
    injection H as <- <-; reflexivity.
Qed.

End PublisherFacts.

(** C5 (circuit breaker).  Three recorded failures in a row leave the
    breaker open; while it is open every publish attempt, alone or in a
    series, comes back with an error, sends nothing to the CMS and leaves
    the world (the breaker included) as it was, so the rejection lasts until
    [CircuitBreaker.reset]; a recorded success puts the failure counter back to 0 and
    closes the breaker, and so does [CircuitBreaker.reset].  A publish call that reached
    the CMS records its outcome on the breaker. *)
Theorem circuit_breaker_trips_and_resets :
  forall (token collection site : string) (ready : Node.t -> bool),
    (forall b,
        CircuitBreaker.threshold b = CIRCUIT_BREAKER_THRESHOLD ->
        (0 <= CircuitBreaker.failures b)%Z ->
        CircuitBreaker.is_open (CircuitBreaker.record_failure (CircuitBreaker.record_failure (CircuitBreaker.record_failure b)))
        = true)
    /\ (forall w attempts,
           CircuitBreaker.is_open (circuit_breaker w) = true ->
           exists rs,
             publish_many token collection site ready w attempts = Some (w, rs)
             /\ List.length rs = List.length attempts
             /\ Forall (fun r => pub_success r = false /\ pub_error r <> None) rs)
    /\ (forall w node_id cms w' r,
           publish_to_webflow token collection site ready w node_id cms = Some (w', r) ->
           cms_calls w' <> cms_calls w ->
           circuit_breaker w' =
             (if pub_success r then CircuitBreaker.record_success (circuit_breaker w)
              else CircuitBreaker.record_failure (circuit_breaker w)))
    /\ (forall b,
           CircuitBreaker.failures (CircuitBreaker.record_success b) = 0%Z
           /\ CircuitBreaker.is_open (CircuitBreaker.record_success b) = false
           /\ CircuitBreaker.can_proceed (CircuitBreaker.reset b) = true).
Proof.
  intros token collection site ready; repeat split.
  - intros b Ht Hf; apply record_failure_opens.
    rewrite !record_failure_threshold, !record_failure_failures, Ht.
    unfold CIRCUIT_BREAKER_THRESHOLD; lia.
  - intros w attempts; apply publish_series_open_breaker.
  - intros w node_id cms w' r; apply publish_records.
Qed.

Lemma circuit_breaker_trips_and_resets_witness :
  CircuitBreaker.threshold new_breaker = CIRCUIT_BREAKER_THRESHOLD
  /\ (0 <= CircuitBreaker.failures new_breaker)%Z
  /\ CircuitBreaker.is_open
       (CircuitBreaker.record_failure
          (CircuitBreaker.record_failure
             (CircuitBreaker.record_failure new_breaker))) = true
  /\ (let run :=
         publish_many "token" "collection" "https://equipflow.co" (fun _ => true)
           (world_of [complete_row])
           [ (7, CmsReplied 500 None "server error"); (7, CmsRaised);
             (7, CmsReplied 503 None "unavailable");
             (7, CmsReplied 200 (Some "item-1") EmptyString) ] in
       option_map (fun r => map pub_error (snd r)) run
       = Some [ Some (PubMessage "HTTP 500: server error"); Some PubException;
                Some (PubMessage "HTTP 503: unavailable");
                Some (PubMessage "Circuit breaker open") ]
       /\ option_map (fun r => cms_calls (fst r)) run
          = Some [ CmsCreate 7; CmsCreate 7; CmsCreate 7 ])
  /\ option_map (fun r => CircuitBreaker.failures (circuit_breaker (fst r)))
       (publish_many "token" "collection" "https://equipflow.co" (fun _ => true)
          (world_of [complete_row])
          [ (7, CmsReplied 500 None "server error"); (7, CmsRaised);
            (7, CmsReplied 200 (Some "item-1") EmptyString) ])
     = Some 0%Z.
Proof.
  split; [reflexivity|]. split; [vm_compute; discriminate|].
  split; [|split; [split; vm_compute; reflexivity|vm_compute; reflexivity]].
  apply (proj1 (circuit_breaker_trips_and_resets "token" "collection" "site"
                  (fun _ => true)));
    [reflexivity | vm_compute; discriminate].
Defined.

(** ** Content-version guard *)



(** ** Publish validation *)

Lemma publish_errors_named n :
  (In "No generated content" (publish_errors n)
   <-> opt_json_truthy (Node.generated_content n) = false)
  /\ (In "No hero image" (publish_errors n)
      <-> opt_truthy (Node.hero_image_url n) = false)
  /\ (In "No short description" (publish_errors n)
      <-> opt_json_truthy (Node.short_description n) = false)
  /\ (In "Missing page_category" (publish_errors n)
      <-> opt_truthy (Node.page_category n) = false)
  /\ (In "Missing spoke_type" (publish_errors n)
      <-> (Node.page_category n = Some "spoke"
           /\ opt_truthy (Node.spoke_type n) = false)).
Proof.
  unfold publish_errors.
  assert (Hspoke : opt_eqb String.eqb (Node.page_category n) "spoke" = true
                   <-> Node.page_category n = Some "spoke").
  { destruct (Node.page_category n) as [c|]; simpl; [|split; discriminate].
    rewrite String.eqb_eq; split; [now intros ->|now intros [= ->]]. }
  destruct (opt_json_truthy (Node.generated_content n));
    destruct (opt_truthy (Node.hero_image_url n));
    destruct (opt_json_truthy (Node.short_description n));
    destruct (opt_truthy (Node.page_category n));
    destruct (opt_eqb String.eqb (Node.page_category n) "spoke") eqn:Es;
    destruct (opt_truthy (Node.spoke_type n));
    simpl;
    repeat match goal with
           | |- _ /\ _ => split
           | |- _ <-> _ => split
           end;
    intros;
    repeat match goal with
           | H : _ \/ _ |- _ => destruct H
           | H : False |- _ => destruct H
           | H : _ /\ _ |- _ => destruct H
           | H : String _ _ = String _ _ |- _ => discriminate H
           end;
    try discriminate; try tauto;
    try (apply Hspoke; assumption);
    try (match goal with
         | H : Node.page_category n = Some "spoke" |- _ =>
             apply Hspoke in H; discriminate H
         end).
Qed.

(** A row has something missing exactly when the validation list is not
    empty. *)
Lemma publish_errors_nonempty n :
  publish_errors n <> []
  <-> (opt_json_truthy (Node.generated_content n) = false
       \/ opt_truthy (Node.hero_image_url n) = false
       \/ opt_json_truthy (Node.short_description n) = false
       \/ opt_truthy (Node.page_category n) = false
       \/ (Node.page_category n = Some "spoke"
           /\ opt_truthy (Node.spoke_type n) = false)).
Proof.
  destruct (publish_errors_named n) as (H1 & H2 & H3 & H4 & H5).
  split.
  - intros Hne. unfold publish_errors in *.
    destruct (opt_json_truthy (Node.generated_content n)); [|now left].
    destruct (opt_truthy (Node.hero_image_url n)); [|now right; left].
    destruct (opt_json_truthy (Node.short_description n)); [|now right; right; left].
    destruct (opt_truthy (Node.page_category n)); [|now right; right; right; left].
    right; right; right; right. apply H5.
    simpl in *.
    destruct (opt_eqb String.eqb (Node.page_category n) "spoke"
              && negb (opt_truthy (Node.spoke_type n))); [now left|now destruct Hne].
  - intros [H|[H|[H|[H|H]]]] E;
      [apply H1 in H|apply H2 in H|apply H3 in H|apply H4 in H|apply H5 in H];
      rewrite E in H; exact H.
Qed.

(** C9, as the claim states it, fails: with the breaker open a row without
    hero image is turned away with "Circuit breaker open" and an empty list
    of validation errors; the same happens when Webflow is not configured. *)
Lemma publish_validation_not_reached :
  publish_to_webflow "token" "collection" "https://equipflow.co" (fun _ => true)
    (with_circuit_breaker open_breaker (world_of [row_without_hero])) 7
    (CmsReplied 200 (Some "item-1") EmptyString)
  = Some (with_circuit_breaker open_breaker (world_of [row_without_hero]),
          pub_failed (PubMessage "Circuit breaker open") [])
  /\ publish_errors row_without_hero = ["No hero image"]
  /\ publish_to_webflow EmptyString "collection" "https://equipflow.co" (fun _ => true)
       (world_of [row_without_hero]) 7 (CmsReplied 200 (Some "item-1") EmptyString)
     = Some (world_of [row_without_hero],
             pub_failed (PubMessage "Webflow not configured") []).
Proof. repeat split. Qed.

(** C9 (publish validation), amended.  For a row with a required field
    missing (no generated content, hero image, short description or page
    category, or no spoke type on a spoke), [publish_to_webflow] always
    fails without sending anything to the CMS and without changing the
    world; when Webflow is configured, the kill switch is off and the
    breaker is closed, the failure is the validation failure, and it lists
    every missing field (a missing hero image as "No hero image"). *)
Theorem publish_validation_blocks_incomplete_rows :
  forall (token collection site : string) (ready : Node.t -> bool)
         (w : World) (node_id : uuid) (n : Node.t) (cms : CmsResponse),
    single_node node_id w = Some n ->
    publish_errors n <> [] ->
    (exists r,
        publish_to_webflow token collection site ready w node_id cms = Some (w, r)
        /\ pub_success r = false /\ pub_error r <> None)
    /\ (Text.truthy token = true -> Text.truthy collection = true ->
        check_kill_switch w = true ->
        CircuitBreaker.is_open (circuit_breaker w) = false ->
        publish_to_webflow token collection site ready w node_id cms
        = Some (w, pub_failed
                     (PubMessage ("Publish validation failed: "
                                  ++ Text.join ", " (publish_errors n)))
                     (publish_errors n)))
    /\ (opt_truthy (Node.hero_image_url n) = false ->
        In "No hero image" (publish_errors n))
    /\ (opt_json_truthy (Node.generated_content n) = false ->
        In "No generated content" (publish_errors n))
    /\ (opt_json_truthy (Node.short_description n) = false ->
        In "No short description" (publish_errors n))
    /\ (opt_truthy (Node.page_category n) = false ->
        In "Missing page_category" (publish_errors n))
    /\ (Node.page_category n = Some "spoke" ->
        opt_truthy (Node.spoke_type n) = false ->
        In "Missing spoke_type" (publish_errors n)).
Proof.
  intros token collection site ready w node_id n cms Hn Hne.
  destruct (publish_errors_named n) as (H1 & H2 & H3 & H4 & H5).
  split; [|split; [|repeat split; intros; [apply H2|apply H1|apply H3|apply H4|apply H5];
                     auto]].
  - unfold publish_to_webflow.
    destruct (negb (Text.truthy token) || negb (Text.truthy collection));
      [eexists; repeat split; discriminate|].
    destruct (negb (check_kill_switch w)); [eexists; repeat split; discriminate|].
    destruct (negb (CircuitBreaker.can_proceed (circuit_breaker w)));
      [eexists; repeat split; discriminate|].
    rewrite Hn. destruct (publish_errors n); [now destruct Hne|].
    eexists; repeat split; discriminate.
  - intros Ht Hc Hk Hb. unfold publish_to_webflow, CircuitBreaker.can_proceed.
    rewrite Ht, Hc, Hk, Hb, Hn; cbn [negb orb].
    destruct (publish_errors n); [now destruct Hne|reflexivity].
Qed.

Lemma publish_validation_blocks_incomplete_rows_witness :
  single_node 7 (world_of [row_without_hero]) = Some row_without_hero
  /\ publish_errors row_without_hero <> []
  /\ publish_to_webflow "token" "collection" "https://equipflow.co" (fun _ => true)
       (world_of [row_without_hero]) 7 (CmsReplied 200 (Some "item-1") EmptyString)
     = Some (world_of [row_without_hero],
             pub_failed (PubMessage "Publish validation failed: No hero image")
               ["No hero image"]).
Proof.
  split; [reflexivity|]. split; [discriminate|].
  apply (proj1 (proj2 (publish_validation_blocks_incomplete_rows
                         "token" "collection" "https://equipflow.co" (fun _ => true)
                         (world_of [row_without_hero]) 7 row_without_hero
                         (CmsReplied 200 (Some "item-1") EmptyString)
                         eq_refl ltac:(discriminate))));
    reflexivity.
Defined.

(** ** Brand sanitization *)










(** ** Quality gates *)



(** ** What [generate_content_for_node] persists *)


Section GenerateFacts.

Variables SITE_URL today : string.

Let generate := generate_content_for_node SITE_URL today.

Lemma single_after_intelligence env node_id w n :
  single_node node_id w = Some n ->
  single_node node_id (world_after_intelligence env node_id w)
  = Some (after_intelligence env n).
Proof.
  intros Hn; unfold world_after_intelligence, after_intelligence.
  destruct (env_serp_hash env); [|exact Hn].
  apply single_node_update; [reflexivity|exact Hn].
Qed.

(** A run that gets a usable reply ends in the two updates. *)
Lemma generate_success w node_id env n reply d :
  single_node node_id w = Some n ->
  generation_errors w n = [] ->
  env_budget_ok env = true ->
  env_reply env = LlmParsed (Some (JObj reply)) ->
  reply <> [] ->
  draft SITE_URL today n (equipment_name_of w n) (env_sources env) reply = Some d ->
  generate w node_id env
  = (update_node node_id (update_other_fields d (env_sources env))
       (fst (update_content_safe (world_after_intelligence env node_id w) node_id
               (JObj (draft_content d)) (Z.of_nat (draft_word_count d)))),
     {| success := true; gen_error := None;
        gen_word_count := Some (draft_word_count d);
        gate_passed := Some (Gate.passed (draft_gate d));
        schema_generated := true |}).
Proof.
  intros Hn Hv Hb Hr Hne Hd.
  unfold generate, generate_content_for_node.
  rewrite Hn, Hv, Hb, Hr; cbn [negb].
  destruct reply as [|kv reply]; [now destruct Hne|].
  rewrite Hd. fold (world_after_intelligence env node_id w).
  now destruct (update_content_safe _ _ _ _).
Qed.


(** When the guard rejects, the row keeps its content, word count and
    version, and takes the status columns of the rejected draft. *)
Lemma generate_rejected w node_id env n reply d W :
  single_node node_id w = Some n ->
  generation_errors w n = [] ->
  env_budget_ok env = true ->
  env_reply env = LlmParsed (Some (JObj reply)) ->
  reply <> [] ->
  draft SITE_URL today n (equipment_name_of w n) (env_sources env) reply = Some d ->
  Node.word_count n = Some W ->
  (10 * Z.of_nat (draft_word_count d) < 9 * W)%Z ->
  single_node node_id (fst (generate w node_id env))
  = Some (update_other_fields d (env_sources env) (after_intelligence env n)).
Proof.
  intros Hn Hv Hb Hr Hne Hd HW Hlt.
  rewrite (generate_success w node_id env n reply d Hn Hv Hb Hr Hne Hd); cbn [fst].
  pose proof (single_after_intelligence env node_id w n Hn) as Hn1.
  unfold update_content_safe. rewrite Hn1.
  assert (HW1 : Node.word_count (after_intelligence env n) = Some W)
    by (unfold after_intelligence; destruct (env_serp_hash env); exact HW).
  rewrite HW1.
  destruct (Z.leb_spec (9 * W) (10 * Z.of_nat (draft_word_count d))); [lia|].
  cbn [fst]. apply single_node_update; [reflexivity|exact Hn1].
Qed.

End GenerateFacts.






(** ** The guard protects two columns only *)

(** C10 (frame of a rejected update).  When the version guard rejects the
    draft (its word count is below 0.9 times the stored one),
    [generate_content_for_node] still succeeds and overwrites [status],
    [publish_gate_status], [publish_gate_reason], [faq_count],
    [sources_used], [short_description] and the schema columns with the
    values of the rejected draft, while [generated_content], [word_count]
    and [content_version] stay as they were; so a row gets
    [ready_to_publish] when the rejected draft passes the gate. *)
Theorem rejected_update_overwrites_status :
  forall site today w node_id env n reply d W,
    single_node node_id w = Some n ->
    generation_errors w n = [] ->
    env_budget_ok env = true ->
    env_reply env = LlmParsed (Some (JObj reply)) ->
    reply <> [] ->
    draft site today n (equipment_name_of w n) (env_sources env) reply = Some d ->
    Node.word_count n = Some W ->
    (10 * Z.of_nat (draft_word_count d) < 9 * W)%Z ->
    success (snd (generate_content_for_node site today w node_id env)) = true
    /\ exists n',
        single_node node_id
          (fst (generate_content_for_node site today w node_id env)) = Some n'
        /\ Node.generated_content n' = Node.generated_content n
        /\ Node.word_count n' = Node.word_count n
        /\ Node.content_version n' = Node.content_version n
        /\ Node.status n'
           = Some (if Gate.passed (draft_gate d) then "ready_to_publish"
                   else "blocked_quality")
        /\ Node.publish_gate_status n'
           = Some (if Gate.passed (draft_gate d) then "passed" else "blocked")
        /\ Node.publish_gate_reason n'
           = match Gate.failures (draft_gate d) with
             | [] => None
             | _ => Some (Gate.failures (draft_gate d))
             end
        /\ Node.faq_count n' = Some (Z.of_nat (draft_faq_count d))
        /\ Node.sources_used n' = Some (env_sources env)
        /\ Node.short_description n'
           = Some (get_default "short_description" (JStr EmptyString) (draft_content d))
        /\ Node.schema_json n' = Some (draft_schema d)
        /\ Node.has_schema_markup n' = Some true.
Proof.
  intros site today w node_id env n reply d W Hn Hv Hb Hr Hne Hd HW Hlt.
  split.
  - now rewrite (generate_success site today w node_id env n reply d
                   Hn Hv Hb Hr Hne Hd).
  - eexists; split;
      [exact (generate_rejected site today w node_id env n reply d W
                Hn Hv Hb Hr Hne Hd HW Hlt)|].
    unfold update_other_fields, after_intelligence.
    destruct (env_serp_hash env); repeat split.
Qed.

Lemma rejected_update_overwrites_status_witness :
  exists d n',
    sample_draft = Some d
    /\ (10 * Z.of_nat (draft_word_count d) < 9 * 1000)%Z
    /\ single_node 7
         (fst (generate_content_for_node "https://equipflow.co" "2026-01-15"
                 sample_world 7 (sample_env 810 4))) = Some n'
    /\ Node.status n' = Some "ready_to_publish"
    /\ Node.generated_content n' = Some (JObj [("intro", JStr "text")])
    /\ Node.word_count n' = Some 1000%Z
    /\ Node.content_version n' = Some 1%Z.
Proof.
  destruct sample_draft as [d|] eqn:Hd; [|vm_compute in Hd; discriminate].
  assert (Hwc : draft_word_count d = 864)
    by (vm_compute in Hd; injection Hd as <-; reflexivity).
  assert (Hpass : Gate.passed (draft_gate d) = true)
    by (vm_compute in Hd; injection Hd as <-; reflexivity).
  assert (Hlt : (10 * Z.of_nat (draft_word_count d) < 9 * 1000)%Z)
    by (rewrite Hwc; vm_compute; reflexivity).
  destruct (rejected_update_overwrites_status "https://equipflow.co" "2026-01-15"
              sample_world 7 (sample_env 810 4) row_without_hero
              (sample_reply 810 4) d 1000
              eq_refl eq_refl eq_refl eq_refl ltac:(discriminate) Hd eq_refl Hlt)
    as (_ & n' & Hn' & Hc & Hw & Hver & Hst & _).
  exists d, n'. split; [reflexivity|]. split; [exact Hlt|]. split; [exact Hn'|].
  rewrite Hpass in Hst. repeat split; assumption.
Defined.

(** ** Link injection *)

Lemma length_append (a b : string) :
  String.length (a ++ b) = String.length a + String.length b.
Proof. induction a as [|c a IH]; cbn; [reflexivity|now rewrite IH]. Qed.

Lemma append_assoc (a b c : string) : (a ++ b) ++ c = a ++ b ++ c.
Proof. induction a as [|x a IH]; cbn; [reflexivity|now rewrite IH]. Qed.

Lemma take_drop n : forall s, take n s ++ drop n s = s.
Proof.
  induction n as [|n IH]; intros [|c r]; cbn; try reflexivity.
  now rewrite IH.
Qed.

Lemma prefix_ci_take p : forall s,
  prefix_ci p s = true -> String.length (take (String.length p) s) = String.length p.
Proof.
  induction p as [|a p IH]; intros [|b s] H; cbn in *; try reflexivity;
    try discriminate.
  apply andb_true_iff in H as [_ H]. now rewrite IH.
Qed.

(** A successful substitution cuts the text around the matched occurrence
    and puts the replacement in its place. *)
Lemma sub_first_splits variation replacement : forall s rev_before s',
  sub_first variation replacement rev_before s = Some s' ->
  exists pre m post,
    s = pre ++ m ++ post
    /\ s' = pre ++ replacement ++ post
    /\ String.length m = String.length variation.
Proof.
  induction s as [|c r IH]; intros rev_before s' H; cbn [sub_first] in H.
  - destruct (matches_here variation rev_before EmptyString) eqn:E; [|discriminate].
    injection H as <-. unfold matches_here in E.
    repeat (apply andb_true_iff in E as [E _]).
    exists EmptyString, (take (String.length variation) EmptyString), (drop (String.length variation) EmptyString).
    split; [now rewrite take_drop|]. split; [reflexivity|].
    now apply prefix_ci_take.
  - destruct (matches_here variation rev_before (String c r)) eqn:E.
    + injection H as <-. unfold matches_here in E.
      repeat (apply andb_true_iff in E as [E _]).
      exists EmptyString, (take (String.length variation) (String c r)),
        (drop (String.length variation) (String c r)).
      split; [now rewrite take_drop|]. split; [reflexivity|].
      now apply prefix_ci_take.
    + destruct (sub_first variation replacement (String c rev_before) r)
        as [s''|] eqn:E'; [|discriminate].
      injection H as <-.
      destruct (IH _ _ E') as (pre & m & post & -> & -> & Hm).
      exists (String c pre), m, post. now repeat split.
Qed.

Lemma anchor_length url variation :
  String.length (anchor url variation)
  = 15 + String.length url + String.length variation.
Proof. unfold anchor, dquote. rewrite !length_append. cbn. lia. Qed.

Lemma wraps_length k s s' :
  wraps k s s' -> String.length s + 15 * k <= String.length s'.
Proof.
  induction 1 as [s|k pre m post url variation s' Hm _ IH]; [lia|].
  rewrite !length_append, anchor_length in *. lia.
Qed.

Lemma try_variations_wraps url : forall vs s s',
  try_variations vs url s = Some (Replaced s') -> wraps 1 s s'.
Proof.
  induction vs as [|[v|] vs IH]; intros s s' H; cbn [try_variations] in H;
    [discriminate| |now apply IH].
  destruct (String.length v <? 4); [now apply IH|].
  destruct (sub_first v (anchor url v) EmptyString s) as [s1|] eqn:E; [|now apply IH].
  destruct (Text.contains "\" (anchor url v)); [discriminate|].
  injection H as <-.
  destruct (sub_first_splits _ _ _ _ _ E) as (pre & m & post & -> & -> & Hm).
  eapply wraps_more; [exact Hm|constructor].
Qed.

(** The loop over the links of one field: the counters move together, the
    field count never passes 2 nor the total 5, and the text carries as
    many new anchors as the field counter gained. *)
Lemma inject_field_spec : forall links s fl li s' fl' li',
  inject_field links s fl li = Some (s', fl', li') ->
  fl <= fl' /\ li' + fl = li + fl'
  /\ (fl <= 2 -> fl' <= 2) /\ (li <= 5 -> li' <= 5)
  /\ wraps (fl' - fl) s s'.
Proof.
  induction links as [|link links IH]; intros s fl li s' fl' li' H;
    cbn [inject_field] in H.
  - injection H as <- <- <-. rewrite Nat.sub_diag. repeat split; try lia; constructor.
  - unfold max_links_per_field in H.
    destruct (Nat.leb_spec 2 fl) as [Hfl|Hfl].
    { injection H as <- <- <-. rewrite Nat.sub_diag.
      repeat split; try lia; constructor. }
    destruct (Nat.leb_spec 5 li) as [Hli|Hli].
    { injection H as <- <- <-. rewrite Nat.sub_diag.
      repeat split; try lia; constructor. }
    destruct (link_text link) as [anchor_text|]; [|now apply IH].
    destruct (negb (Text.truthy anchor_text) || negb (Text.truthy (link_url link)));
      [now apply IH|].
    destruct (variations anchor_text) as [vs|]; [|discriminate]. cbn [bind] in H.
    destruct (try_variations vs (link_url link) s) as [[|s1]|] eqn:E;
      [now apply IH| |discriminate]. cbn [bind] in H.
    apply IH in H as (G1 & G2 & G3 & G4 & G5).
    repeat split; try lia.
    apply try_variations_wraps in E.
    inversion E as [|k pre m post url variation s2 Hm Hrest]; subst.
    inversion Hrest; subst.
    replace (fl' - fl) with (S (fl' - (fl + 1))) by lia.
    eapply wraps_more; eassumption.
Qed.

Lemma get_set_same k v : forall d, Dict.get k (Dict.set k v d) = Some v.
Proof.
  induction d as [|[k' v'] d IH]; cbn; [now rewrite String.eqb_refl|].
  destruct (String.eqb k k') eqn:E; cbn; rewrite ?String.eqb_refl, ?E; auto.
Qed.

Lemma get_set_other k k' v : forall d,
  k <> k' -> Dict.get k (Dict.set k' v d) = Dict.get k d.
Proof.
  intros d Hne; apply String.eqb_neq in Hne.
  induction d as [|[k2 v2] d IH]; cbn; [now rewrite Hne|].
  destruct (String.eqb k' k2) eqn:E; cbn.
  - apply String.eqb_eq in E; subst k2. now rewrite Hne.
  - destruct (String.eqb k k2); auto.
Qed.

(** The loop over the fields: a body field ends with at most 2 more
    anchors, all fields together with at most 5; the log names the fields
    that were rewritten with the number of anchors each one got; a string
    field outside the list is left as it was. *)
Lemma inject_fields_spec links : forall fields content li log content' li' log',
  NoDup fields ->
  inject_fields fields links content li log = Some (content', li', log') ->
  li <= li'
  /\ (li <= 5 -> li' <= 5)
  /\ (forall k t,
         Dict.get k content = Some (JStr t) ->
         exists t' n,
           Dict.get k content' = Some (JStr t') /\ n <= 2 /\ wraps n t t'
           /\ (~ In k fields -> t' = t))
  /\ (exists entries,
         log' = (log ++ entries)%list
         /\ li' = li + fold_right Nat.add 0 (map snd entries)
         /\ Forall (fun e => snd e <= 2) entries
         /\ forall k n,
             In (k, n) entries ->
             In k fields
             /\ exists t t',
                 Dict.get k content = Some (JStr t)
                 /\ Dict.get k content' = Some (JStr t')
                 /\ wraps n t t').
Proof.
  induction fields as [|field fields IH];
    intros content li log content' li' log' Hnd H; cbn [inject_fields] in H.
  - injection H as <- <- <-. split; [lia|]. split; [lia|]. split.
    + intros k t Hk. exists t, 0. repeat split; auto; constructor.
    + exists []. rewrite app_nil_r. cbn.
      repeat split; try lia; try constructor; contradiction.
  - inversion Hnd as [|? ? Hfresh Hnd']; subst.
    assert (Hskip :
              inject_fields fields links content li log = Some (content', li', log') ->
              li <= li' /\ (li <= 5 -> li' <= 5)
              /\ (forall k t,
                     Dict.get k content = Some (JStr t) ->
                     exists t' n,
                       Dict.get k content' = Some (JStr t') /\ n <= 2 /\ wraps n t t'
                       /\ (~ In k (field :: fields) -> t' = t))
              /\ (exists entries,
                     log' = (log ++ entries)%list
                     /\ li' = li + fold_right Nat.add 0 (map snd entries)
                     /\ Forall (fun e => snd e <= 2) entries
                     /\ forall k n,
                         In (k, n) entries ->
                         In k (field :: fields)
                         /\ exists t t',
                             Dict.get k content = Some (JStr t)
                             /\ Dict.get k content' = Some (JStr t')
                             /\ wraps n t t')).
    { intros H'.
      apply IH in H' as (H1 & H2 & H4 & (entries & He1 & He2 & He3 & He4));
        [|exact Hnd'].
      split; [exact H1|]. split; [exact H2|]. split.
      - intros k t Hk.
        destruct (H4 k t Hk) as (t' & n & Ht' & Hn & Hw & Hfix).
        exists t', n. repeat split; auto.
        intros Hnot; apply Hfix; intros Hin; apply Hnot; now right.
      - exists entries. repeat split; auto.
        + right. now apply (He4 k n).
        + now apply (He4 k n). }
    destruct (Dict.get field content) as [[| | |fc| |]|] eqn:Ef;
      try (exact (Hskip H)).
    clear Hskip.
    destruct (inject_field links fc 0 li) as [[[fc' fl] li1]|] eqn:Ei;
      [|discriminate]. cbn [bind] in H.
    apply inject_field_spec in Ei as (_ & Hsum & Hfl & Hli & Hw).
    rewrite Nat.sub_0_r in Hw.
    apply IH in H as (H1 & H2 & H4 & (entries & -> & -> & Hall & Hlog));
      [|exact Hnd'].
    assert (Hfield : Dict.get field content' = Some (JStr fc')).
    { destruct (H4 field fc' (get_set_same _ _ _))
        as (t' & n & Ht' & _ & _ & Hfix).
      now rewrite (Hfix Hfresh) in Ht'. }
    split; [lia|]. split; [lia|]. split.
    + intros k t Hk. destruct (String.eqb_spec k field) as [->|Hne].
      * rewrite Ef in Hk. injection Hk as <-. exists fc', fl.
        repeat split; [exact Hfield|lia|exact Hw|].
        intros Hno; exfalso; apply Hno; now left.
      * rewrite <- (get_set_other k field (JStr fc') content Hne) in Hk.
        destruct (H4 k t Hk) as (t' & n & Ht' & Hn & Hw' & Hfix).
        exists t', n. repeat split; auto.
        intros Hnot; apply Hfix; intros Hin; apply Hnot; now right.
    + exists ((field, fl) :: entries). rewrite <- app_assoc. cbn [app map snd fold_right].
      split; [reflexivity|]. split; [lia|].
      split; [constructor; [cbn; lia|exact Hall]|].
      intros k n [Hk|Hk].
      * injection Hk as <- <-. split; [now left|]. now exists fc, fc'.
      * destruct (Hlog k n Hk) as (Hin & t & t' & Ht & Ht' & Hwt).
        split; [now right|]. exists t, t'. repeat split; auto.
        rewrite <- Ht. symmetry. apply get_set_other.
        intros ->. now apply Hfresh.
Qed.

Lemma linkable_fields_distinct : NoDup linkable_fields.
Proof.
  unfold linkable_fields.
  repeat (constructor; [cbn; intros H;
                        repeat (destruct H as [H|H]; [discriminate H|]); exact H|]).
  constructor.
Qed.

Lemma related_links_html_shape links :
  links <> [] ->
  generate_related_links_html links
  = "<div class=" ++ dquote ++ "related-links" ++ dquote
      ++ "><h3>Related Resources</h3><ul>"
      ++ String.concat EmptyString (map link_item (firstn 6 links))
      ++ "</ul></div>".
Proof. destruct links; [intros H; now destruct H|reflexivity]. Qed.

(** What one run does to the primary body: up to 2 anchors, then the
    related block. *)
Lemma inject_links_main_content content links main content' :
  links <> [] ->
  Dict.get "main_content" content = Some (JStr main) ->
  inject_links_into_content content links = Some content' ->
  exists body n,
    n <= 2 /\ wraps n main body
    /\ Dict.get "main_content" content'
       = Some (JStr (body ++ nl ++ nl ++ generate_related_links_html links)).
Proof.
  intros Hlinks Hmain H. unfold inject_links_into_content in H.
  destruct links as [|link links]; [now destruct Hlinks|].
  destruct content as [|kv content]; [discriminate Hmain|].
  destruct (inject_fields linkable_fields (link :: links) (kv :: content) 0 [])
    as [[[c1 total] log]|] eqn:E; [|discriminate]. cbn [bind] in H.
  apply inject_fields_spec in E as (_ & _ & Hkeep & _);
    [|exact linkable_fields_distinct].
  destruct (Hkeep _ _ Hmain) as (body & n & Hbody & Hn & Hw & _).
  rewrite Hbody in H. injection H as <-.
  exists body, n. repeat split; auto. apply get_set_same.
Qed.

(** The bounds of one run: the log of the fields that were rewritten gives
    at most 2 anchors to each and at most 5 in all. *)
Lemma inject_links_bounds content links content' total log :
  inject_fields linkable_fields links content 0 [] = Some (content', total, log) ->
  total <= 5
  /\ total = fold_right Nat.add 0 (map snd log)
  /\ Forall (fun e => snd e <= 2) log
  /\ forall k n,
      In (k, n) log ->
      exists t t',
        Dict.get k content = Some (JStr t)
        /\ Dict.get k content' = Some (JStr t')
        /\ wraps n t t'.
Proof.
  intros H.
  apply inject_fields_spec in H
      as (_ & Hfive & _ & (entries & -> & -> & Hall & Hlog));
    [|exact linkable_fields_distinct].
  cbn [app]. repeat split; [lia|exact Hall|].
  intros k n Hin. now destruct (Hlog k n Hin) as (_ & Hex).
Qed.

(** C6 at a failing input: two candidate links, one plain field.  The
    first link wraps "excavator financing"; the second link then finds
    "excavator" inside that anchor's text, which neither look-around of
    the pattern excludes, and wraps it once more: an anchor inside an
    anchor. *)
Lemma inject_rewraps_linked_text :
  inject_links_into_content
    [("intro", JStr "We compare excavator financing offers")]
    [ link_to "/equipment/financing-guide/" "excavator financing";
      link_to "/equipment/excavator/" "Excavator" ]
  = Some [("intro",
           JStr ("We compare "
                 ++ anchor "/equipment/financing-guide/"
                      (anchor "/equipment/excavator/" "Excavator" ++ " financing")
                 ++ " offers"))].
Proof. vm_compute. reflexivity. Qed.

(** C7, as the claim states it, fails: a second run over the result of the
    first, with the same link, writes an anchor into the [href] of the
    first one and appends the related block a second time. *)
Lemma inject_links_not_idempotent :
  let links := [ link_to "/equipment/excavator-financing/" "excavator financing" ] in
  let block := generate_related_links_html links in
  let once :=
    [("main_content",
      JStr ("Get " ++ anchor "/equipment/excavator-financing/" "excavator financing"
            ++ " today" ++ nl ++ nl ++ block))] in
  let twice :=
    [("main_content",
      JStr ("Get "
            ++ anchor ("/equipment/"
                       ++ anchor "/equipment/excavator-financing/" "excavator"
                       ++ "-financing/") "excavator financing"
            ++ " today" ++ nl ++ nl ++ block ++ nl ++ nl ++ block))] in
  inject_links_into_content
    [("main_content", JStr "Get excavator financing today")] links = Some once
  /\ inject_links_into_content once links = Some twice
  /\ twice <> once.
Proof.
  cbv zeta. split; [vm_compute; reflexivity|].
  split; [vm_compute; reflexivity|]. vm_compute; discriminate.
Qed.

(** C7 (re-running the injection), amended.  A run with at least one link
    over a document whose [main_content] is a string puts up to 2 anchors
    into that field and then appends the related-resources block, which
    lists the first 6 links at most; so the run always changes the
    document, and a further run over its result changes it again: one more
    block is appended every time. *)
Theorem related_block_appended_every_run :
  forall content links main content',
    links <> [] ->
    Dict.get "main_content" content = Some (JStr main) ->
    inject_links_into_content content links = Some content' ->
    (exists body n,
        n <= 2 /\ wraps n main body
        /\ Dict.get "main_content" content'
           = Some (JStr (body ++ nl ++ nl ++ generate_related_links_html links)))
    /\ generate_related_links_html links
       = "<div class=" ++ dquote ++ "related-links" ++ dquote
           ++ "><h3>Related Resources</h3><ul>"
           ++ String.concat EmptyString (map link_item (firstn 6 links))
           ++ "</ul></div>"
    /\ List.length (firstn 6 links) <= 6
    /\ content' <> content
    /\ (forall content'',
           inject_links_into_content content' links = Some content'' ->
           content'' <> content').
Proof.
  assert (Hgrow : forall content links main content',
             links <> [] ->
             Dict.get "main_content" content = Some (JStr main) ->
             inject_links_into_content content links = Some content' ->
             content' <> content).
  { intros content links main content' Hlinks Hmain H E. subst content'.
    destruct (inject_links_main_content _ _ _ _ Hlinks Hmain H)
      as (body & n & _ & Hw & Hget).
    rewrite Hmain in Hget. injection Hget as Hget.
    apply wraps_length in Hw.
    apply (f_equal String.length) in Hget.
    rewrite !length_append in Hget. cbn in Hget. lia. }
  intros content links main content' Hlinks Hmain H.
  destruct (inject_links_main_content _ _ _ _ Hlinks Hmain H)
    as (body & n & Hn & Hw & Hget).
  split; [now exists body, n|].
  split; [now apply related_links_html_shape|].
  split; [apply firstn_le_length|].
  split; [now apply (Hgrow content links main)|].
  intros content'' H'. now apply (Hgrow content' links _ content'' Hlinks Hget).
Qed.

Lemma related_block_appended_every_run_witness :
  let links := [ link_to "/equipment/excavator-financing/" "excavator financing" ] in
  let content := [("main_content", JStr "Get excavator financing today")] in
  exists content',
    inject_links_into_content content links = Some content'
    /\ content' <> content.
Proof.
  cbv zeta.
  destruct (inject_links_into_content
              [("main_content", JStr "Get excavator financing today")]
              [ link_to "/equipment/excavator-financing/" "excavator financing" ])
    as [content'|] eqn:E; [|vm_compute in E; discriminate].
  exists content'. split; [reflexivity|].
  exact (proj1 (proj2 (proj2 (proj2
           (related_block_appended_every_run
              [("main_content", JStr "Get excavator financing today")]
              [ link_to "/equipment/excavator-financing/" "excavator financing" ]
              "Get excavator financing today" content'
              ltac:(discriminate) eq_refl E))))).
Defined.

(** ** Decision engine: one row per dedup key *)

Lemma fresh_id_above ids i : In i ids -> i < fresh_id ids.
Proof.
  unfold fresh_id. induction ids as [|j ids IH]; cbn; [contradiction|].
  intros [->|H]; [lia|]. specialize (IH H). lia.
Qed.

Lemma fresh_id_new ids : ~ In (fresh_id ids) ids.
Proof. intros H. apply fresh_id_above in H. lia. Qed.

Lemma ids_of_app p w n :
  ids_of p (with_decision_nodes (decision_nodes w ++ [n])%list w)
  = (ids_of p w ++ (if p n then [Node.id n] else []))%list.
Proof.
  unfold ids_of; cbn. rewrite filter_app, map_app. cbn.
  now destruct (p n).
Qed.

Lemma ids_of_update p node_id f w :
  (forall n, p (f n) = p n) -> (forall n, Node.id (f n) = Node.id n) ->
  ids_of p (update_node node_id f w) = ids_of p w.
Proof.
  intros Hp Hid. unfold ids_of, update_node; cbn.
  rewrite filter_map_same.
  - rewrite map_map. apply map_ext. intros n.
    destruct (Node.id n =? node_id); [apply Hid|reflexivity].
  - intros n. destruct (Node.id n =? node_id); [apply Hp|reflexivity].
Qed.

Lemma all_ids_update node_id f w :
  (forall n, Node.id (f n) = Node.id n) ->
  all_ids (update_node node_id f w) = all_ids w.
Proof.
  intros Hid. unfold all_ids, update_node; cbn. rewrite map_map.
  apply map_ext. intros n. destruct (Node.id n =? node_id); [apply Hid|reflexivity].
Qed.

Lemma check_page_exists_ids w et st g m :
  check_page_exists w et st g m None = None <-> ids_of (key_filter et st g m) w = [].
Proof.
  unfold check_page_exists, ids_of, key_filter.
  destruct (filter _ _); cbn; split; intros H; try reflexivity; discriminate.
Qed.

(** A row that answers the query of a key carries the columns of the
    key. *)
Lemma key_filter_fields et st g m n :
  st <> "hub" ->
  discriminator_ok g = true -> discriminator_ok m = true ->
  key_filter et st g m n = true ->
  Node.equipment_type_id n = Some et /\ Node.spoke_type n = Some st
  /\ Node.geo n = g /\ Node.modifier n = m.
Proof.
  intros Hst Hg Hm H.
  unfold key_filter, page_filter in H.
  apply String.eqb_neq in Hst. rewrite Hst in H.
  apply andb_true_iff in H as [H _].
  apply andb_true_iff in H as [H Hmod].
  apply andb_true_iff in H as [H Hgeo].
  apply andb_true_iff in H as [Het Hsp].
  split; [|split; [|split]].
  - destruct (Node.equipment_type_id n) as [e|]; [|discriminate].
    cbn in Het. apply Nat.eqb_eq in Het. now subst.
  - destruct (Node.spoke_type n) as [t|]; [|discriminate].
    cbn in Hsp. apply String.eqb_eq in Hsp. now subst.
  - destruct g as [s|]; cbn in Hg, Hgeo.
    + rewrite Hg in Hgeo. destruct (Node.geo n) as [s'|]; [|discriminate].
      cbn in Hgeo. apply String.eqb_eq in Hgeo. now subst.
    + now destruct (Node.geo n).
  - destruct m as [s|]; cbn in Hm, Hmod.
    + rewrite Hm in Hmod. destruct (Node.modifier n) as [s'|]; [|discriminate].
      cbn in Hmod. apply String.eqb_eq in Hmod. now subst.
    + now destruct (Node.modifier n).
Qed.

(** A row written for a key answers the query of that key. *)
Lemma key_filter_own_row et st g m n :
  st <> "hub" ->
  discriminator_ok g = true -> discriminator_ok m = true ->
  Node.equipment_type_id n = Some et ->
  Node.spoke_type n = Some st ->
  Node.geo n = g -> Node.modifier n = m ->
  key_filter et st g m n = true.
Proof.
  intros Hst Hg Hm Het Hsp Hgeo Hmod.
  unfold key_filter, page_filter. rewrite Het, Hsp, Hgeo, Hmod.
  apply String.eqb_neq in Hst. rewrite Hst. cbn.
  rewrite Nat.eqb_refl, String.eqb_refl. cbn.
  destruct g as [s|], m as [s'|]; cbn in *;
    rewrite ?Hg, ?Hm, ?String.eqb_refl; reflexivity.
Qed.

Lemma keeps_key_refl p w : keeps_key p w w.
Proof. repeat split; auto. Qed.

Lemma keeps_key_trans p w1 w2 w3 :
  keeps_key p w1 w2 -> keeps_key p w2 w3 -> keeps_key p w1 w3.
Proof.
  intros (A1 & B1 & C1) (A2 & B2 & C2). split; [auto|]. split.
  - intros H. rewrite <- (B1 H). apply B2. now rewrite (B1 H).
  - intros H. destruct (C1 H) as [E|(i & E & Hi)].
    + destruct (C2 E) as [E'|(i & E' & Hi)]; [now left|].
      right. exists i. split; [exact E'|]. intros Hin; apply Hi; auto.
    + right. exists i. split; [|exact Hi].
      rewrite <- E. apply B2. rewrite E. discriminate.
Qed.

(** A change of the tables that leaves the rows of [decision_nodes] alone. *)
Lemma keeps_key_same_rows p w w' :
  decision_nodes w' = decision_nodes w -> keeps_key p w w'.
Proof.
  intros E. unfold keeps_key, ids_of, all_ids. rewrite E. repeat split; auto.
Qed.

Lemma keeps_key_update p node_id f w :
  (forall n, p (f n) = p n) -> (forall n, Node.id (f n) = Node.id n) ->
  keeps_key p w (update_node node_id f w).
Proof.
  intros Hp Hid. unfold keeps_key.
  rewrite ids_of_update, all_ids_update by assumption. repeat split; auto.
Qed.

(** An insert that the query does not see. *)
Lemma keeps_key_insert_other p w n :
  p n = false ->
  keeps_key p w (with_decision_nodes (decision_nodes w ++ [n])%list w).
Proof.
  intros Hn. unfold keeps_key. rewrite ids_of_app, Hn, app_nil_r.
  repeat split; auto.
  intros i Hi. unfold all_ids; cbn. rewrite map_app. apply in_or_app; now left.
Qed.

(** An insert under a new id, made after the query found nothing. *)
Lemma keeps_key_insert_first p w n :
  ids_of p w = [] -> ~ In (Node.id n) (all_ids w) ->
  keeps_key p w (with_decision_nodes (decision_nodes w ++ [n])%list w).
Proof.
  intros Hnone Hnew. unfold keeps_key. rewrite ids_of_app, Hnone.
  split; [|split].
  - intros i Hi. unfold all_ids; cbn. rewrite map_app. apply in_or_app; now left.
  - intros H; now destruct H.
  - intros _. destruct (p n); [right|now left]. now exists (Node.id n).
Qed.

Lemma engine_step_refl w : engine_step w w.
Proof.
  split; [|split; [|split]]; auto.
  - intros et st g m _ _ _. apply keeps_key_refl.
  - intros p _. exists []. now rewrite app_nil_r.
Qed.

Lemma engine_step_trans w1 w2 w3 :
  engine_step w1 w2 -> engine_step w2 w3 -> engine_step w1 w3.
Proof.
  intros (K1 & E1 & T1 & I1) (K2 & E2 & T2 & I2). split; [|split; [|split]].
  - intros et st g m Hst Hg Hm.
    eapply keeps_key_trans; [apply K1|apply K2]; assumption.
  - intros p Hp. destruct (E1 p Hp) as [x1 H1]. destruct (E2 p Hp) as [x2 H2].
    exists (x1 ++ x2)%list. now rewrite H2, H1, app_assoc.
  - auto.
  - congruence.
Qed.

Lemma key_filter_grid_blind et st g m : grid_blind (key_filter et st g m).
Proof. intros x n. reflexivity. Qed.

Lemma engine_step_grid w node_id grid :
  engine_step w (update_node node_id (Node.set_spoke_grid grid) w).
Proof.
  split; [|split; [|split]].
  - intros et st g m _ _ _. apply keeps_key_update; reflexivity.
  - intros p Hp. exists []. rewrite app_nil_r.
    apply ids_of_update; [intros n; apply Hp|reflexivity].
  - unfold spokes_typed, update_node; cbn. intros H.
    apply Forall_map. eapply Forall_impl; [|exact H].
    intros n Hn. now destruct (Node.id n =? node_id).
  - reflexivity.
Qed.

Lemma engine_step_types w ets :
  map (fun e => (et_id e, et_slug e)) ets = type_index w ->
  engine_step w (with_equipment_types ets w).
Proof.
  intros Hidx. split; [|split; [|split]].
  - intros et st g m _ _ _. now apply keeps_key_same_rows.
  - intros p _. exists []. now rewrite app_nil_r.
  - auto.
  - exact Hidx.
Qed.

(** The insert of a spoke row for a key whose query found nothing. *)
Lemma engine_step_insert_spoke w et st g m n :
  check_page_exists w et st g m None = None ->
  Node.id n = fresh_id (all_ids w) ->
  Node.equipment_type_id n = Some et -> Node.spoke_type n = Some st ->
  Node.geo n = g -> Node.modifier n = m ->
  engine_step w (with_decision_nodes (decision_nodes w ++ [n])%list w).
Proof.
  intros Hcheck Hid Het Hsp Hgeo Hmod. split; [|split; [|split]].
  - intros et' st' g' m' Hst' Hg' Hm'.
    destruct (key_filter et' st' g' m' n) eqn:E;
      [|now apply keeps_key_insert_other].
    destruct (key_filter_fields _ _ _ _ _ Hst' Hg' Hm' E) as (A & B & C & D).
    assert (et' = et) by congruence. assert (st' = st) by congruence.
    subst et' st'. rewrite Hgeo in C. rewrite Hmod in D. subst g' m'.
    apply keeps_key_insert_first.
    + now apply check_page_exists_ids.
    + rewrite Hid. apply fresh_id_new.
  - intros p _. rewrite ids_of_app. eauto.
  - unfold spokes_typed; cbn. intros H. apply Forall_app. split; [exact H|].
    constructor; [|constructor]. intros _. rewrite Hsp. discriminate.
  - reflexivity.
Qed.

(** The insert of a hub row. *)
Lemma engine_step_insert_hub w n :
  Node.spoke_type n = None -> Node.page_category n = Some "hub" ->
  engine_step w (with_decision_nodes (decision_nodes w ++ [n])%list w).
Proof.
  intros Hsp Hcat. split; [|split; [|split]].
  - intros et st g m Hst Hg Hm. apply keeps_key_insert_other.
    destruct (key_filter et st g m n) eqn:E; [|reflexivity].
    destruct (key_filter_fields _ _ _ _ _ Hst Hg Hm E) as (_ & B & _).
    congruence.
  - intros p _. rewrite ids_of_app. eauto.
  - unfold spokes_typed; cbn. intros H. apply Forall_app. split; [exact H|].
    constructor; [|constructor]. rewrite Hcat. discriminate.
  - reflexivity.
Qed.

(** With a store that takes every row, [create_spoke_page] appends one
    row, which carries the columns it was asked for. *)
Lemma create_spoke_page_row w et name st kw g m parent volume kd :
  exists n,
    create_spoke_page accept_all w et name st kw g m None parent volume kd
    = (with_decision_nodes (decision_nodes w ++ [n])%list w, Some (Node.id n))
    /\ Node.id n = fresh_id (all_ids w)
    /\ Node.equipment_type_id n = Some et /\ Node.spoke_type n = Some st
    /\ Node.geo n = g /\ Node.modifier n = m
    /\ Node.page_category n = Some "spoke".
Proof. eexists. split; [reflexivity|]. repeat split. Qed.

Lemma ids_of_nonempty_extends p w w' :
  grid_blind p -> extends w w' -> ids_of p w <> [] -> ids_of p w' <> [].
Proof.
  intros Hp He Hne. destruct (He p Hp) as [extra ->].
  destruct (ids_of p w); [now destruct Hne|discriminate].
Qed.

Lemma is_hub_of_grid_blind et : grid_blind (is_hub_of et).
Proof. intros x n. reflexivity. Qed.

Lemma page_filter_grid_blind et st g m b : grid_blind (page_filter et st g m b).
Proof. intros x n. reflexivity. Qed.

Lemma find_hub_ids w et :
  find_hub w et = None <-> ids_of (is_hub_of et) w = [].
Proof.
  unfold find_hub, ids_of.
  destruct (filter _ _); cbn; split; intros H; try reflexivity; discriminate.
Qed.

Lemma find_hub_some w et :
  ids_of (is_hub_of et) w <> [] -> exists h, find_hub w et = Some h.
Proof.
  intros H. destruct (find_hub w et) as [h|] eqn:E; [eauto|].
  apply find_hub_ids in E. now destruct H.
Qed.

Lemma default_spokes_not_hub name :
  Forall (fun s : string * string => fst s <> "hub") (default_spokes name).
Proof. repeat constructor; discriminate. Qed.

Lemma create_hub_row w et name :
  find_hub w et = None ->
  exists n,
    create_hub accept_all w et name
    = (set_hub_node_id et (Node.id n)
         (with_decision_nodes (decision_nodes w ++ [n])%list w),
       Some (Node.id n),
       {| cluster_pages_created := 1; cluster_pages := [("hub", Node.id n)] |})
    /\ Node.spoke_type n = None /\ Node.page_category n = Some "hub"
    /\ Node.equipment_type_id n = Some et
    /\ Node.geo n = None /\ Node.modifier n = None.
Proof.
  intros E. unfold create_hub. rewrite E.
  eexists. split; [reflexivity|]. repeat split.
Qed.

(** The hub step of the cluster builder, with a store that takes every
    row. *)
Lemma create_hub_step w et name :
  exists w' h c,
    create_hub accept_all w et name = (w', Some h, c)
    /\ engine_step w w'
    /\ ids_of (is_hub_of et) w' <> []
    /\ (ids_of (is_hub_of et) w <> [] -> w' = w /\ cluster_pages_created c = 0)
    /\ (ids_of (is_hub_of et) w = [] ->
        ids_of (page_filter et "hub" None None None) w' <> []).
Proof.
  destruct (find_hub w et) as [h|] eqn:E.
  - unfold create_hub. rewrite E.
    exists w, h. eexists. split; [reflexivity|].
    assert (Hne : ids_of (is_hub_of et) w <> []).
    { intros H. apply find_hub_ids in H. congruence. }
    split; [apply engine_step_refl|]. split; [exact Hne|].
    split; [now split|]. intros H; now destruct Hne.
  - destruct (create_hub_row w et name E)
      as (n & -> & Hsp & Hcat & Het & Hgeo & Hmod).
    eexists. eexists. eexists. split; [reflexivity|].
    split; [|split; [|split]].
    + apply engine_step_trans
        with (w2 := with_decision_nodes (decision_nodes w ++ [n])%list w);
        [now apply engine_step_insert_hub|].
      apply engine_step_types. unfold type_index; cbn. rewrite map_map.
      apply map_ext. intros e. now destruct (et_id e =? et).
    + unfold ids_of; cbn. rewrite filter_app, map_app. cbn.
      unfold is_hub_of at 2. rewrite Het, Hcat. cbn. rewrite Nat.eqb_refl. cbn.
      intros H. now apply app_eq_nil in H as [_ H].
    + intros Hne. apply find_hub_ids in E. now destruct Hne.
    + intros _. unfold ids_of; cbn. rewrite filter_app, map_app. cbn.
      unfold page_filter at 2. rewrite Het, Hcat, Hgeo, Hmod. cbn.
      rewrite Nat.eqb_refl. cbn.
      intros H. now apply app_eq_nil in H as [_ H].
Qed.

(** The loop over the default spokes. *)
Lemma create_default_spokes_step et name hub : forall spokes w res w' res',
  Forall (fun s : string * string => fst s <> "hub") spokes ->
  create_default_spokes accept_all spokes w et name hub res = (w', res') ->
  engine_step w w'
  /\ (forall s, In s spokes -> ids_of (key_filter et (fst s) None None) w' <> [])
  /\ ((forall s, In s spokes -> ids_of (key_filter et (fst s) None None) w <> []) ->
      w' = w /\ res' = res).
Proof.
  induction spokes as [|[type kw] spokes IH]; intros w res w' res' Hall H;
    cbn [create_default_spokes] in H.
  - injection H as <- <-. split; [apply engine_step_refl|].
    split; [intros s []|]. now split.
  - inversion Hall as [|? ? Htype Hrest]; subst. cbn [fst] in Htype.
    destruct (check_page_exists w et type None None None) as [i|] eqn:Ec.
    + apply IH in H as (Hstep & Hdone & Hsame); [|exact Hrest].
      assert (Hhead : ids_of (key_filter et type None None) w <> []).
      { intros E. apply check_page_exists_ids in E. congruence. }
      split; [exact Hstep|]. split.
      * intros s [<-|Hs]; [|now apply Hdone]. cbn [fst].
        destruct Hstep as (_ & Hext & _).
        eapply ids_of_nonempty_extends; eauto. apply key_filter_grid_blind.
      * intros Hc. apply Hsame. intros s Hs. apply Hc. now right.
    + destruct (create_spoke_page_row w et name type kw None None hub 0%Z 0%Z)
        as (n & Hn & Hid & Het & Hsp & Hgeo & Hmod & Hcat).
      rewrite Hn in H.
      assert (Hstep1 : engine_step w
                (with_decision_nodes (decision_nodes w ++ [n])%list w))
        by (eapply engine_step_insert_spoke; eauto).
      apply IH in H as (Hstep & Hdone & Hsame); [|exact Hrest].
      split; [eapply engine_step_trans; eauto|]. split.
      * intros s [<-|Hs]; [|now apply Hdone]. cbn [fst].
        destruct Hstep as (_ & Hext & _).
        eapply ids_of_nonempty_extends; eauto; [apply key_filter_grid_blind|].
        rewrite ids_of_app.
        rewrite (key_filter_own_row et type None None n); auto.
        intros E. now apply app_eq_nil in E as [_ E].
      * intros Hc. exfalso. apply (Hc (type, kw)); [now left|].
        now apply check_page_exists_ids.
Qed.

Lemma traverse_total {A B : Type} (f : A -> option B) (l : list A) :
  Forall (fun a => f a <> None) l -> exists bs, traverse f l = Some bs.
Proof.
  induction l as [|a l IH]; intros H; [now exists []|].
  inversion H as [|? ? Ha Hl]; subst. cbn.
  destruct (f a) as [b|]; [|now destruct Ha]. cbn.
  destruct (IH Hl) as [bs ->]. cbn. eauto.
Qed.

(** With typed spokes the grid of a hub can be written. *)
Lemma update_hub_spoke_grid_total w h et :
  spokes_typed w ->
  exists grid,
    update_hub_spoke_grid w h et
    = Some (update_node h (Node.set_spoke_grid (Some grid)) w).
Proof.
  intros Ht. unfold update_hub_spoke_grid.
  destruct (traverse_total grid_entry
              (filter (is_spoke_of et) (decision_nodes w))) as [grid ->].
  - apply Forall_forall. intros n Hn. apply filter_In in Hn as [Hin Hsp].
    unfold spokes_typed in Ht. rewrite Forall_forall in Ht.
    specialize (Ht n Hin). unfold is_spoke_of in Hsp.
    apply andb_true_iff in Hsp as [_ Hcat].
    destruct (Node.page_category n) as [c|]; [|discriminate].
    cbn in Hcat. apply String.eqb_eq in Hcat. subst c.
    unfold grid_entry. destruct (Node.spoke_type n); [discriminate|].
    now destruct Ht.
  - cbn. eauto.
Qed.

(** The cluster builder, with a store that takes every row: it returns,
    the equipment type has its hub and its three default spokes afterwards,
    and nothing is added to a cluster that was complete. *)
Lemma create_equipment_cluster_step w et name :
  spokes_typed w ->
  exists w' c,
    create_equipment_cluster accept_all w et name = (w', Some c)
    /\ engine_step w w'
    /\ ids_of (is_hub_of et) w' <> []
    /\ cluster_complete et name w'
    /\ (ids_of (is_hub_of et) w <> [] -> cluster_complete et name w ->
        all_ids w' = all_ids w /\ cluster_pages_created c = 0
        /\ forall p, grid_blind p -> ids_of p w' = ids_of p w).
Proof.
  intros Ht. unfold create_equipment_cluster.
  destruct (create_hub_step w et name)
    as (w1 & h & c0 & -> & S1 & Hhub & Hsame1 & Hplain).
  destruct (create_default_spokes accept_all (default_spokes name) w1 et name
              (Some h) c0) as [w2 c] eqn:E.
  apply create_default_spokes_step in E as (S2 & Hdone & Hsame2);
    [|apply default_spokes_not_hub].
  assert (Ht2 : spokes_typed w2).
  { destruct S2 as (_ & _ & T2 & _). apply T2.
    destruct S1 as (_ & _ & T1 & _). now apply T1. }
  destruct (update_hub_spoke_grid_total w2 h et Ht2) as [grid ->].
  pose proof (engine_step_grid w2 h (Some grid)) as S3.
  eexists. exists c. split; [reflexivity|].
  assert (S : engine_step w (update_node h (Node.set_spoke_grid (Some grid)) w2))
    by (eapply engine_step_trans; [exact S1|eapply engine_step_trans; eauto]).
  split; [exact S|]. split; [|split].
  - destruct S2 as (_ & E2 & _). destruct S3 as (_ & E3 & _).
    eapply ids_of_nonempty_extends; [apply is_hub_of_grid_blind|exact E3|].
    eapply ids_of_nonempty_extends; [apply is_hub_of_grid_blind|exact E2|exact Hhub].
  - intros s Hs. destruct S3 as (_ & E3 & _).
    eapply ids_of_nonempty_extends; [apply key_filter_grid_blind|exact E3|].
    now apply Hdone.
  - intros Hh Hc. destruct (Hsame1 Hh) as [-> Hc0].
    destruct (Hsame2 Hc) as [-> ->].
    split; [now apply all_ids_update|]. split; [exact Hc0|].
    intros p Hp. apply ids_of_update; [intros n; apply Hp|reflexivity].
Qed.

(** The spoke step of [decide_and_queue] for a non-hub keyword: afterwards
    the key has a row; when it had one before, nothing is written and the
    request is counted as skipped. *)
Lemma decide_spoke_step w k et volume kd r :
  ck_spoke_type k <> "hub" ->
  discriminator_ok (ck_geo k) = true -> discriminator_ok (ck_modifier k) = true ->
  exists w' r',
    decide_spoke accept_all w k et volume kd r = (w', r')
    /\ engine_step w w'
    /\ ids_of (key_filter et (ck_spoke_type k) (ck_geo k) (ck_modifier k)) w' <> []
    /\ error r' = error r
    /\ (ids_of (key_filter et (ck_spoke_type k) (ck_geo k) (ck_modifier k)) w <> [] ->
        w' = w /\ pages_skipped r' = pages_skipped r + 1
        /\ pages_created r' = pages_created r).
Proof.
  intros Hst Hg Hm. unfold decide_spoke.
  apply String.eqb_neq in Hst as Hst'. rewrite Hst'. cbn [negb].
  destruct (check_page_exists w et (ck_spoke_type k) (ck_geo k) (ck_modifier k) None)
    as [i|] eqn:Ec.
  - assert (Hne : ids_of (key_filter et (ck_spoke_type k) (ck_geo k)
                            (ck_modifier k)) w <> []).
    { intros E. apply check_page_exists_ids in E. congruence. }
    eexists. eexists. split; [reflexivity|].
    split; [apply engine_step_refl|]. split; [exact Hne|].
    split; [reflexivity|]. intros _. repeat split.
  - destruct (create_spoke_page_row w et (equipment_type k) (ck_spoke_type k)
                (original_keyword k) (ck_geo k) (ck_modifier k) None volume kd)
      as (n & -> & Hid & Het & Hsp & Hgeo & Hmod & Hcat).
    eexists. eexists. split; [reflexivity|].
    split; [eapply engine_step_insert_spoke; eauto|].
    split; [|split; [reflexivity|]].
    + rewrite ids_of_app. rewrite (key_filter_own_row et _ _ _ n); auto.
      intros E. now apply app_eq_nil in E as [_ E].
    + intros Hne. apply check_page_exists_ids in Ec. now destruct Hne.
Qed.

Lemma slug_lookup_index slug ets :
  map et_id (filter (fun e => String.eqb (et_slug e) slug) ets)
  = map fst (filter (fun p => String.eqb (snd p) slug)
               (map (fun e => (et_id e, et_slug e)) ets)).
Proof.
  induction ets as [|e ets IH]; cbn; [reflexivity|].
  destruct (String.eqb (et_slug e) slug); cbn; now rewrite IH.
Qed.

(** With a store that takes every row the equipment type is found or
    created, the rows of [decision_nodes] are not touched, and the same type
    is found again in every world that lists the same types. *)
Lemma get_or_create_equipment_type_step w name :
  exists w0 et,
    get_or_create_equipment_type accept_all w name = (w0, Some et)
    /\ decision_nodes w0 = decision_nodes w
    /\ forall w', type_index w' = type_index w0 ->
                  get_or_create_equipment_type accept_all w' name = (w', Some et).
Proof.
  unfold get_or_create_equipment_type.
  destruct (filter (fun e => String.eqb (et_slug e) (generate_url_slug name))
              (equipment_types w)) as [|e rest] eqn:E.
  - eexists. eexists. split; [reflexivity|]. split; [reflexivity|].
    intros w' Hidx.
    pose proof (slug_lookup_index (generate_url_slug name) (equipment_types w'))
      as Hl.
    fold (type_index w') in Hl. rewrite Hidx in Hl.
    unfold type_index in Hl; cbn in Hl. rewrite map_app, filter_app in Hl.
    fold (type_index w) in Hl.
    pose proof (slug_lookup_index (generate_url_slug name) (equipment_types w))
      as Hl0.
    rewrite E in Hl0. cbn in Hl0. fold (type_index w) in Hl0.
    destruct (filter _ (type_index w)); [|discriminate].
    cbn in Hl. rewrite String.eqb_refl in Hl. cbn in Hl.
    destruct (filter _ (equipment_types w')) as [|e' rest']; [discriminate|].
    cbn in Hl. now injection Hl as -> _.
  - exists w, (et_id e). split; [reflexivity|]. split; [reflexivity|].
    intros w' Hidx.
    pose proof (slug_lookup_index (generate_url_slug name) (equipment_types w'))
      as Hl.
    fold (type_index w') in Hl. rewrite Hidx in Hl. unfold type_index in Hl.
    rewrite <- slug_lookup_index, E in Hl. cbn in Hl.
    destruct (filter _ (equipment_types w')) as [|e' rest']; [discriminate|].
    cbn in Hl. now injection Hl as -> _.
Qed.

Lemma ids_of_same_rows p w w' :
  decision_nodes w' = decision_nodes w -> ids_of p w' = ids_of p w.
Proof. unfold ids_of. now intros ->. Qed.

Lemma engine_step_same_rows w w' w'' :
  decision_nodes w' = decision_nodes w ->
  engine_step w' w'' ->
  keeps_keys w w'' /\ extends w w'' /\ (spokes_typed w -> spokes_typed w'').
Proof.
  intros Hrows (K & E & T & _). split; [|split].
  - intros et st g m Hst Hg Hm. specialize (K et st g m Hst Hg Hm).
    unfold keeps_key, all_ids in *.
    rewrite <- (ids_of_same_rows _ w w' Hrows), <- Hrows. exact K.
  - intros p Hp. rewrite <- (ids_of_same_rows _ w w' Hrows). now apply E.
  - unfold spokes_typed in *. now rewrite <- Hrows.
Qed.

(** One run of the decision engine on a non-hub keyword, with a store that
    takes every row. *)
Lemma decide_and_queue_run w k volume kd :
  ck_spoke_type k <> "hub" ->
  discriminator_ok (ck_geo k) = true -> discriminator_ok (ck_modifier k) = true ->
  spokes_typed w ->
  exists w0 et w1 r,
    get_or_create_equipment_type accept_all w (equipment_type k) = (w0, Some et)
    /\ decision_nodes w0 = decision_nodes w
    /\ decide_and_queue accept_all w k volume kd = (w1, Some r)
    /\ error r = None
    /\ engine_step w0 w1
    /\ ids_of (key_filter et (ck_spoke_type k) (ck_geo k) (ck_modifier k)) w1 <> []
    /\ (ids_of (key_filter et (ck_spoke_type k) (ck_geo k) (ck_modifier k)) w <> [] ->
        pages_skipped r = 1)
    /\ (ids_of (page_filter et "hub" None None None) w = [] ->
        ids_of (is_hub_of et) w1 <> []
        /\ cluster_complete et (equipment_type k) w1)
    /\ (ids_of (key_filter et (ck_spoke_type k) (ck_geo k) (ck_modifier k)) w <> [] ->
        ids_of (page_filter et "hub" None None None) w <> []
        \/ (ids_of (is_hub_of et) w <> []
            /\ cluster_complete et (equipment_type k) w) ->
        all_ids w1 = all_ids w /\ pages_created r = 0).
Proof.
  intros Hst Hg Hm Ht.
  destruct (get_or_create_equipment_type_step w (equipment_type k))
    as (w0 & et & Hget & Hrows & _).
  exists w0, et. unfold decide_and_queue. rewrite Hget.
  apply String.eqb_neq in Hst as Hst'. rewrite Hst'. cbn [andb].
  assert (Ht0 : spokes_typed w0) by (unfold spokes_typed; now rewrite Hrows).
  set (K := key_filter et (ck_spoke_type k) (ck_geo k) (ck_modifier k)).
  destruct (check_page_exists w0 et "hub" None None None) as [h|] eqn:Ehub;
    cbn [is_null].
  - (* the hub is there: only the spoke step runs *)
    destruct (decide_spoke_step w0 k et volume kd
                {| keyword := original_keyword k; actions := [];
                   pages_created := 0; pages_skipped := 0; error := None |}
                Hst Hg Hm)
      as (w1 & r & Hd & Hstep & Hkey & Herr & Hskip).
    rewrite Hd. exists w1, r. split; [reflexivity|]. split; [exact Hrows|].
    split; [reflexivity|]. split; [exact Herr|]. split; [exact Hstep|].
    split; [exact Hkey|]. split; [|split].
    + intros Hne. rewrite <- (ids_of_same_rows K w w0 Hrows) in Hne.
      now destruct (Hskip Hne) as (_ & -> & _).
    + intros Hnone. rewrite <- (ids_of_same_rows _ w w0 Hrows) in Hnone.
      apply check_page_exists_ids in Hnone. unfold key_filter in Hnone.
      congruence.
    + intros Hne _. rewrite <- (ids_of_same_rows K w w0 Hrows) in Hne.
      destruct (Hskip Hne) as (-> & _ & ->). split; [|reflexivity].
      unfold all_ids. now rewrite Hrows.
  - (* no hub: the cluster is built first *)
    destruct (create_equipment_cluster_step w0 et (equipment_type k) Ht0)
      as (wc & c & -> & Sc & Hhub & Hcomplete & Hnothing).
    destruct (decide_spoke_step wc k et volume kd
                {| keyword := original_keyword k; actions := [cluster_action c];
                   pages_created := cluster_pages_created c;
                   pages_skipped := 0; error := None |}
                Hst Hg Hm)
      as (w1 & r & Hd & Hstep & Hkey & Herr & Hskip).
    cbn [keyword]. rewrite Hd.
    exists w1, r. split; [reflexivity|]. split; [exact Hrows|].
    split; [reflexivity|]. split; [exact Herr|].
    split; [eapply engine_step_trans; eauto|].
    split; [exact Hkey|].
    assert (Hkept : ids_of K w <> [] -> ids_of K wc <> []).
    { intros Hne. rewrite <- (ids_of_same_rows K w w0 Hrows) in Hne.
      destruct Sc as (_ & Ec & _).
      eapply ids_of_nonempty_extends; eauto. apply key_filter_grid_blind. }
    split; [|split].
    + intros Hne. now destruct (Hskip (Hkept Hne)) as (_ & -> & _).
    + intros _. destruct Hstep as (_ & Es & _). split.
      * eapply ids_of_nonempty_extends; eauto. apply is_hub_of_grid_blind.
      * intros s Hs. eapply ids_of_nonempty_extends; eauto.
        apply key_filter_grid_blind.
    + intros Hne [Hh|[Hh Hc]].
      * exfalso. apply Hh. rewrite <- (ids_of_same_rows _ w w0 Hrows).
        apply check_page_exists_ids in Ehub. exact Ehub.
      * destruct (Hskip (Hkept Hne)) as (-> & _ & ->).
        rewrite <- (ids_of_same_rows _ w w0 Hrows) in Hh.
        assert (Hc0 : cluster_complete et (equipment_type k) w0).
        { intros s Hs. rewrite (ids_of_same_rows _ w w0 Hrows). now apply Hc. }
        destruct (Hnothing Hh Hc0) as (Hids & Hzero & _).
        split; [|exact Hzero]. rewrite Hids. unfold all_ids. now rewrite Hrows.
Qed.

Lemma ids_of_single p w i :
  ids_of p w = [i] ->
  exists n, filter p (decision_nodes w) = [n] /\ Node.id n = i /\ p n = true.
Proof.
  unfold ids_of. intros H.
  destruct (filter p (decision_nodes w)) as [|n [|n' l]] eqn:E; try discriminate.
  injection H as H. exists n. repeat split; auto.
  assert (Hin : In n (filter p (decision_nodes w))) by (rewrite E; now left).
  now apply filter_In in Hin.
Qed.

(** C1, as the claim states it, fails.  A request whose [geo] is the empty
    string is looked up with [geo IS NULL] and stored with [geo = ''], so the
    same request, sent again, finds nothing and writes a second row for the
    same page without being reported as skipped.  A store that refuses a
    row (here: the slug is taken by the row of another key) leaves a request
    without row although none matched, again without a skip.  And with a
    spoke row that has no spoke type in the registry, writing the grid of the
    new hub raises: the cluster is kept, the row of the request is never
    written. *)
Lemma decide_and_queue_duplicates :
  (let w1 := after accept_all empty_world blank_geo_request in
   let '(w2, r2) := decide_and_queue accept_all w1 blank_geo_request 0%Z 0%Z in
   option_map pages_created r2 = Some 1
   /\ option_map pages_skipped r2 = Some 0
   /\ map summary
        (filter (fun n => opt_eqb String.eqb (Node.url_slug n)
                            "excavator-modifier-bad-credit")
                (decision_nodes w2))
      = [ (5, Some "excavator-modifier-bad-credit", Some "spoke", Some EmptyString, Some 1);
          (6, Some "excavator-modifier-bad-credit", Some "spoke", Some EmptyString, Some 1) ])
  /\ (let w1 := after unique_slug empty_world texas_geo_request in
      let '(w2, r2) := decide_and_queue unique_slug w1 texas_modifier_request 0%Z 0%Z in
      check_page_exists w1 1 "financing" None (Some "texas") None = None
      /\ option_map pages_created r2 = Some 0
      /\ option_map pages_skipped r2 = Some 0
      /\ decision_nodes w2 = decision_nodes w1)
  /\ (let '(w1, r1) :=
         decide_and_queue accept_all untyped_spoke_world texas_geo_request 0%Z 0%Z in
       r1 = None
       /\ check_page_exists w1 1 "financing" (Some "texas") None None = None
       /\ List.length (decision_nodes w1) = 5).
Proof. vm_compute. repeat split. Qed.

(** C1 (one row per dedup key), amended.  Take a non-hub request whose
    [geo] and [modifier] are NULL or non-empty, a registry whose spokes carry
    their spoke type, and a store that takes every row.  Then
    [decide_and_queue] returns without error; if no row answered the key
    (equipment type, spoke type, geo-or-null, modifier-or-null) there is
    exactly one afterwards, under a new id; if rows answered it they are the
    same afterwards and the request is counted as skipped.  The same request
    sent again adds no row and is counted as skipped.  A request that
    differs in [geo] only, sent next, leaves each of the two keys with its
    own new row. *)
Theorem decide_and_queue_dedup :
  forall w k volume kd,
    ck_spoke_type k <> "hub" ->
    discriminator_ok (ck_geo k) = true -> discriminator_ok (ck_modifier k) = true ->
    spokes_typed w ->
    exists w0 et w1 r,
      get_or_create_equipment_type accept_all w (equipment_type k) = (w0, Some et)
      /\ decide_and_queue accept_all w k volume kd = (w1, Some r)
      /\ error r = None
      /\ (ids_of (request_key et k) w = [] ->
          exists n, filter (request_key et k) (decision_nodes w1) = [n]
                    /\ ~ In (Node.id n) (all_ids w))
      /\ (ids_of (request_key et k) w <> [] ->
          ids_of (request_key et k) w1 = ids_of (request_key et k) w
          /\ pages_skipped r = 1)
      /\ (exists w2 r2,
             decide_and_queue accept_all w1 k volume kd = (w2, Some r2)
             /\ all_ids w2 = all_ids w1
             /\ pages_created r2 = 0 /\ pages_skipped r2 = 1)
      /\ (forall g,
             discriminator_ok g = true -> g <> ck_geo k ->
             ids_of (request_key et k) w = [] ->
             ids_of (request_key et (with_geo g k)) w = [] ->
             exists w2 r2 n1 n2,
               decide_and_queue accept_all w1 (with_geo g k) volume kd = (w2, Some r2)
               /\ filter (request_key et k) (decision_nodes w2) = [n1]
               /\ filter (request_key et (with_geo g k)) (decision_nodes w2) = [n2]
               /\ n1 <> n2
               /\ ~ In (Node.id n1) (all_ids w)
               /\ ~ In (Node.id n2) (all_ids w)).
Proof.
  intros w k volume kd Hst Hg Hm Ht.
  destruct (decide_and_queue_run w k volume kd Hst Hg Hm Ht)
    as (w0 & et & w1 & r & Hget & Hrows & Hdec & Herr & Hstep & Hkey & Hskip
        & Hcluster & Hnothing).
  destruct (get_or_create_equipment_type_step w (equipment_type k))
    as (w0' & et' & Hget' & _ & Hstable).
  rewrite Hget in Hget'. injection Hget' as <- <-.
  destruct (engine_step_same_rows w w0 w1 Hrows Hstep)
    as (Hkeys & Hext & Htyped).
  pose proof (Htyped Ht) as Ht1.
  assert (Hidx : type_index w1 = type_index w0) by apply Hstep.
  pose proof (Hstable w1 Hidx) as Hget1.
  fold (request_key et k) in Hkey, Hskip, Hnothing.
  destruct (Hkeys et _ _ _ Hst Hg Hm) as (Hpersist & Hsame & Hnew).
  fold (request_key et k) in Hsame, Hnew.
  assert (Hfirst : ids_of (request_key et k) w = [] ->
                   exists i, ids_of (request_key et k) w1 = [i]
                             /\ ~ In i (all_ids w)).
  { intros Hnone. destruct (Hnew Hnone) as [E|H]; [now destruct Hkey|exact H]. }
  exists w0, et, w1, r.
  split; [exact Hget|]. split; [exact Hdec|]. split; [exact Herr|].
  split; [|split; [|split]].
  - intros Hnone. destruct (Hfirst Hnone) as (i & Hi & Hfresh).
    destruct (ids_of_single _ _ _ Hi) as (n & Hn & <- & _). now exists n.
  - intros Hne. split; [now apply Hsame|now apply Hskip].
  - (* the same request again *)
    destruct (decide_and_queue_run w1 k volume kd Hst Hg Hm Ht1)
      as (w0' & et' & w2 & r2 & Hget2 & _ & Hdec2 & _ & _ & _ & Hskip2 & _
          & Hnothing2).
    rewrite Hget1 in Hget2. injection Hget2 as <- <-.
    exists w2, r2. split; [exact Hdec2|].
    assert (Hhub : ids_of (page_filter et "hub" None None None) w1 <> []
                   \/ (ids_of (is_hub_of et) w1 <> []
                       /\ cluster_complete et (equipment_type k) w1)).
    { destruct (ids_of (page_filter et "hub" None None None) w) eqn:E.
      - right. now apply Hcluster.
      - left. eapply ids_of_nonempty_extends; eauto;
          [apply page_filter_grid_blind|rewrite E; discriminate]. }
    destruct (Hnothing2 Hkey Hhub) as [Hids Hzero].
    split; [exact Hids|]. split; [exact Hzero|]. now apply Hskip2.
  - (* the request that differs in geo *)
    intros g Hg' Hdiff Hnone Hnone'.
    destruct (Hfirst Hnone) as (i1 & Hi1 & Hfresh1).
    assert (Hst2 : ck_spoke_type (with_geo g k) <> "hub") by exact Hst.
    destruct (decide_and_queue_run w1 (with_geo g k) volume kd Hst2 Hg' Hm Ht1)
      as (w0' & et' & w2 & r2 & Hget2 & Hrows2 & Hdec2 & _ & Hstep2 & Hkey2 & _).
    cbn [equipment_type with_geo] in Hget2.
    rewrite Hget1 in Hget2. injection Hget2 as <- <-.
    fold (request_key et (with_geo g k)) in Hkey2.
    destruct (engine_step_same_rows w1 w1 w2 eq_refl Hstep2)
      as (Hkeys2 & _ & _).
    (* the first key keeps its row *)
    destruct (Hkeys2 et _ _ _ Hst Hg Hm) as (_ & Hsame2 & _).
    fold (request_key et k) in Hsame2.
    assert (Hk1 : ids_of (request_key et k) w2 = [i1]).
    { rewrite Hsame2; [exact Hi1|]. rewrite Hi1; discriminate. }
    (* the second key has one new row *)
    destruct (Hkeys et (ck_spoke_type k) g (ck_modifier k) Hst Hg' Hm)
      as (_ & _ & Hnew1).
    destruct (Hkeys2 et (ck_spoke_type k) g (ck_modifier k) Hst Hg' Hm)
      as (_ & Hsame3 & Hnew3).
    change (key_filter et (ck_spoke_type k) g (ck_modifier k))
      with (request_key et (with_geo g k)) in Hnew1, Hsame3, Hnew3.
    assert (Hk2 : exists i2, ids_of (request_key et (with_geo g k)) w2 = [i2]
                             /\ ~ In i2 (all_ids w)).
    { destruct (Hnew1 Hnone') as [E|(i2 & E & Hfresh2)].
      - destruct (Hnew3 E) as [E'|(i2 & E' & Hfresh2)]; [now destruct Hkey2|].
        exists i2. split; [exact E'|]. intros Hin. apply Hfresh2. now apply Hpersist.
      - exists i2. split; [|exact Hfresh2]. rewrite Hsame3; [exact E|].
        rewrite E; discriminate. }
    destruct Hk2 as (i2 & Hi2 & Hfresh2).
    destruct (ids_of_single _ _ _ Hk1) as (n1 & Hn1 & <- & Hp1).
    destruct (ids_of_single _ _ _ Hi2) as (n2 & Hn2 & <- & Hp2).
    exists w2, r2, n1, n2. repeat split; auto.
    intros ->.
    destruct (key_filter_fields _ _ _ _ _ Hst Hg Hm Hp1) as (_ & _ & G1 & _).
    destruct (key_filter_fields _ _ _ _ _ Hst Hg' Hm Hp2) as (_ & _ & G2 & _).
    congruence.
Qed.

Lemma decide_and_queue_dedup_witness :
  exists w0 et w1 r,
    get_or_create_equipment_type accept_all empty_world "excavator" = (w0, Some et)
    /\ decide_and_queue accept_all empty_world texas_geo_request 40%Z 12%Z
       = (w1, Some r)
    /\ error r = None.
Proof.
  destruct (decide_and_queue_dedup empty_world texas_geo_request 40%Z 12%Z
              ltac:(discriminate) eq_refl eq_refl ltac:(constructor))
    as (w0 & et & w1 & r & H1 & H2 & H3 & _).
  exists w0, et, w1, r. repeat split; assumption.
Defined.

(** ** Hub before spoke *)

(** C3 at a failing input.  The store keeps [url_slug] unique.  The first
    request builds the cluster of "truck", whose rental spoke has the slug
    [truck-rental].  The second request is for the equipment type "truck
    rental", which has no hub; the insert of its hub (slug [truck-rental]) is
    refused, the builder goes on, and the three default spokes are written
    with a NULL [parent_hub_id] for an equipment type that has no hub. *)
Lemma orphan_spokes_after_failed_hub_insert :
  let w1 := after unique_slug empty_world truck_rental_request in
  let w2 := after unique_slug w1 truck_rental_financing_request in
  find_hub w1 2 = None
  /\ find_hub w2 2 = None
  /\ map summary (filter (is_spoke_of 2) (decision_nodes w2))
     = [ (5, Some "truck-rental-financing", Some "spoke", None, None);
         (6, Some "truck-rental-for-sale", Some "spoke", None, None);
         (7, Some "truck-rental-rental", Some "spoke", None, None) ].
Proof. vm_compute. repeat split. Qed.

(** *** The invariant when the store takes every row *)

Lemma registry_ok_append w n :
  registry_ok w ->
  parent_ok (with_decision_nodes (decision_nodes w ++ [n])%list w) n ->
  (forall et, is_hub_of et n = true -> ids_of (is_hub_of et) w = []) ->
  (Node.page_category n = Some "spoke" -> Node.spoke_type n <> None) ->
  registry_ok (with_decision_nodes (decision_nodes w ++ [n])%list w).
Proof.
  intros (Hr & Ho & Ht) Hn Hhub Htyped. split; [|split].
  - unfold referential; cbn. apply Forall_app. split; [|now constructor].
    eapply Forall_impl; [|exact Hr]. intros m Hm Hcat.
    destruct (Hm Hcat) as (h & et & Hp & He & Hin).
    exists h, et. repeat split; auto. rewrite ids_of_app.
    apply in_or_app; now left.
  - intros et. rewrite ids_of_app. destruct (is_hub_of et n) eqn:E.
    + rewrite (Hhub et E). cbn. lia.
    + rewrite app_nil_r. apply Ho.
  - unfold spokes_typed; cbn. apply Forall_app. split; [exact Ht|now constructor].
Qed.

Lemma registry_ok_grid w node_id grid :
  registry_ok w ->
  registry_ok (update_node node_id (Node.set_spoke_grid grid) w).
Proof.
  intros (Hr & Ho & Ht). split; [|split].
  - set (w' := update_node node_id (Node.set_spoke_grid grid) w).
    assert (Hsame : forall et, ids_of (is_hub_of et) w' = ids_of (is_hub_of et) w)
      by (intros et; apply ids_of_update; reflexivity).
    unfold referential.
    change (decision_nodes w')
      with (map (fun n => if Node.id n =? node_id
                          then Node.set_spoke_grid grid n else n)
              (decision_nodes w)).
    apply Forall_map. eapply Forall_impl; [|exact Hr]. intros m Hm.
    unfold parent_ok.
    destruct (Node.id m =? node_id); intros Hcat;
      destruct (Hm Hcat) as (h & et & Hp & He & Hin);
      exists h, et; repeat split; auto; now rewrite Hsame.
  - intros et. rewrite ids_of_update by reflexivity. apply Ho.
  - now apply (engine_step_grid w node_id grid).
Qed.

Lemma registry_ok_same_rows w w' :
  decision_nodes w' = decision_nodes w -> registry_ok w -> registry_ok w'.
Proof.
  intros E (Hr & Ho & Ht).
  unfold registry_ok, referential, one_hub, spokes_typed, parent_ok, ids_of in *.
  rewrite E. auto.
Qed.

(** The row [create_spoke_page] writes names the hub it was given, or the
    hub it looked up. *)
Lemma create_spoke_page_parent w et name st kw g m parent volume kd :
  exists n,
    create_spoke_page accept_all w et name st kw g m None parent volume kd
    = (with_decision_nodes (decision_nodes w ++ [n])%list w, Some (Node.id n))
    /\ Node.equipment_type_id n = Some et /\ Node.spoke_type n = Some st
    /\ Node.page_category n = Some "spoke"
    /\ Node.parent_hub_id n
       = match parent with
         | Some h => Some h
         | None => find_hub w et
         end.
Proof. eexists. split; [reflexivity|]. repeat split. Qed.

Lemma spoke_row_ok w et n h :
  registry_ok w ->
  Node.equipment_type_id n = Some et -> Node.spoke_type n <> None ->
  Node.page_category n = Some "spoke" ->
  Node.parent_hub_id n = Some h -> In h (ids_of (is_hub_of et) w) ->
  registry_ok (with_decision_nodes (decision_nodes w ++ [n])%list w).
Proof.
  intros Hok Het Hsp Hcat Hpar Hin. apply registry_ok_append; auto.
  - intros _. exists h, et. repeat split; auto. rewrite ids_of_app.
    apply in_or_app; now left.
  - intros et' E. unfold is_hub_of in E. rewrite Hcat in E.
    apply andb_true_iff in E as [_ E]. discriminate.
Qed.

Lemma create_default_spokes_ok et name h : forall spokes w res w' res',
  registry_ok w -> In h (ids_of (is_hub_of et) w) ->
  create_default_spokes accept_all spokes w et name (Some h) res = (w', res') ->
  registry_ok w' /\ In h (ids_of (is_hub_of et) w').
Proof.
  induction spokes as [|[type kw] spokes IH]; intros w res w' res' Hok Hh H;
    cbn [create_default_spokes] in H.
  - injection H as <- <-. now split.
  - destruct (check_page_exists w et type None None None); [now apply IH in H|].
    destruct (create_spoke_page_parent w et name type kw None None (Some h) 0%Z 0%Z)
      as (n & Hn & Het & Hsp & Hcat & Hpar).
    rewrite Hn in H. apply IH in H; [exact H| |].
    + eapply spoke_row_ok; eauto. rewrite Hsp. discriminate.
    + rewrite ids_of_app. apply in_or_app; now left.
Qed.

Lemma find_hub_in w et h :
  find_hub w et = Some h -> In h (ids_of (is_hub_of et) w).
Proof.
  unfold find_hub, ids_of. destruct (filter _ _); [discriminate|].
  intros [= <-]. now left.
Qed.

(** X12.  With a store that takes every row, a run of the decision engine
    on a registry that satisfies I2 (every spoke names a hub of its own
    equipment type), has at most one hub per equipment type and whose
    spokes carry their type returns, and the registry it leaves satisfies
    the three again: the hub is written first, every spoke written
    afterwards names it, and no second hub is written. *)
Theorem decide_and_queue_keeps_registry w k volume kd :
  registry_ok w ->
  exists w1 r,
    decide_and_queue accept_all w k volume kd = (w1, Some r)
    /\ registry_ok w1.
Proof.
  intros Hok.
  destruct (get_or_create_equipment_type_step w (equipment_type k))
    as (w0 & et & Hget & Hrows & _).
  unfold decide_and_queue. rewrite Hget.
  pose proof (registry_ok_same_rows w w0 Hrows Hok) as Hok0.
  assert (Hspoke : forall w' r0,
             registry_ok w' -> ids_of (is_hub_of et) w' <> [] ->
             exists w1 r,
               decide_spoke accept_all w' k et volume kd r0 = (w1, r)
               /\ registry_ok w1).
  { intros w' r0 Hok' Hhub. unfold decide_spoke.
    destruct (negb (String.eqb (ck_spoke_type k) "hub")); [|eauto].
    destruct (check_page_exists w' et _ _ _ None); [eauto|].
    destruct (create_spoke_page_parent w' et (equipment_type k) (ck_spoke_type k)
                (original_keyword k) (ck_geo k) (ck_modifier k) None volume kd)
      as (n & -> & Het & Hsp & Hcat & Hpar).
    eexists. eexists. split; [reflexivity|].
    destruct (find_hub_some w' et Hhub) as [h Hh]. rewrite Hh in Hpar.
    eapply spoke_row_ok; eauto; [rewrite Hsp; discriminate|].
    now apply find_hub_in. }
  assert (Hcluster : exists wc c,
             create_equipment_cluster accept_all w0 et (equipment_type k)
             = (wc, Some c)
             /\ registry_ok wc /\ ids_of (is_hub_of et) wc <> []).
  { unfold create_equipment_cluster.
    assert (Hhub : exists w1 h c0,
               create_hub accept_all w0 et (equipment_type k) = (w1, Some h, c0)
               /\ registry_ok w1 /\ In h (ids_of (is_hub_of et) w1)).
    { destruct (find_hub w0 et) as [h|] eqn:E.
      - unfold create_hub. rewrite E. exists w0, h. eexists.
        split; [reflexivity|]. split; [exact Hok0|]. now apply find_hub_in.
      - destruct (create_hub_row w0 et (equipment_type k) E)
          as (n & -> & Hsp & Hcat & Het & _).
        eexists. eexists. eexists. split; [reflexivity|].
        assert (Hown : is_hub_of et n = true).
        { unfold is_hub_of. rewrite Het, Hcat. cbn. now rewrite Nat.eqb_refl. }
        split.
        + eapply registry_ok_same_rows; [reflexivity|].
          apply registry_ok_append; auto.
          * intros Hc. rewrite Hcat in Hc. discriminate.
          * intros et' E'. unfold is_hub_of in E'. rewrite Het in E'.
            apply andb_true_iff in E' as [E' _]. cbn in E'.
            apply Nat.eqb_eq in E'. subst et'. now apply find_hub_ids.
          * intros Hc. rewrite Hcat in Hc. discriminate.
        + unfold ids_of; cbn. rewrite filter_app, map_app. cbn. rewrite Hown.
          apply in_or_app; right; now left. }
    destruct Hhub as (w1 & h & c0 & -> & Hok1 & Hin1).
    destruct (create_default_spokes accept_all _ w1 et _ (Some h) c0)
      as [w2 c] eqn:E.
    apply create_default_spokes_ok in E as [Hok2 Hin2]; auto.
    destruct (update_hub_spoke_grid_total w2 h et) as [grid ->];
      [apply Hok2|].
    eexists. exists c. split; [reflexivity|].
    split; [now apply registry_ok_grid|].
    rewrite ids_of_update by reflexivity. intros E. now rewrite E in Hin2. }
  destruct (check_page_exists w0 et "hub" None None None) as [h|] eqn:Ehub;
    cbn [is_null andb].
  - rewrite andb_false_r.
    assert (Hhub : ids_of (is_hub_of et) w0 <> []).
    { unfold check_page_exists in Ehub. unfold ids_of.
      destruct (filter (page_filter et "hub" None None None) (decision_nodes w0))
        as [|n l] eqn:E; [discriminate|].
      assert (Hin : In n (filter (page_filter et "hub" None None None)
                            (decision_nodes w0))) by (rewrite E; now left).
      apply filter_In in Hin as [Hin Hp].
      assert (Hn : In n (filter (is_hub_of et) (decision_nodes w0))).
      { apply filter_In. split; [exact Hin|].
        unfold page_filter in Hp. cbn [String.eqb Ascii.eqb Bool.eqb] in Hp.
        do 3 (apply andb_true_iff in Hp as [Hp _]). exact Hp. }
      intros E'. apply map_eq_nil in E'. now rewrite E' in Hn. }
    destruct (Hspoke w0 {| keyword := original_keyword k; actions := [];
                           pages_created := 0; pages_skipped := 0;
                           error := None |} Hok0 Hhub)
      as (w1 & r & -> & Hok1).
    eauto.
  - destruct Hcluster as (wc & c & -> & Hokc & Hhubc).
    rewrite andb_true_r.
    destruct (String.eqb (ck_spoke_type k) "hub"); [eauto|].
    cbn [keyword].
    destruct (Hspoke wc {| keyword := original_keyword k;
                           actions := [cluster_action c];
                           pages_created := cluster_pages_created c;
                           pages_skipped := 0; error := None |} Hokc Hhubc)
      as (w1 & r & -> & Hok1).
    eauto.
Qed.

Lemma decide_and_queue_keeps_registry_witness :
  exists w1 r,
    decide_and_queue accept_all empty_world truck_rental_request 0%Z 0%Z
    = (w1, Some r)
    /\ registry_ok w1.
Proof.
  apply (decide_and_queue_keeps_registry empty_world truck_rental_request 0%Z 0%Z).
  split; [constructor|]. split; [intros et; cbn; lia|constructor].
Defined.

(** ** Decision engine: whatever the store decides *)

Lemma grows_refl w : grows w w.
Proof.
  split; [|intros et; lia].
  intros p _. exists []. now rewrite app_nil_r.
Qed.

Lemma grows_trans w1 w2 w3 : grows w1 w2 -> grows w2 w3 -> grows w1 w3.
Proof.
  intros [E1 H1] [E2 H2]. split.
  - intros p Hp. destruct (E1 p Hp) as [x1 X1]. destruct (E2 p Hp) as [x2 X2].
    exists (x1 ++ x2)%list. now rewrite X2, X1, app_assoc.
  - intros et. specialize (H1 et). specialize (H2 et). lia.
Qed.

Lemma grows_same_rows w w' : decision_nodes w' = decision_nodes w -> grows w w'.
Proof.
  intros E. split.
  - intros p _. exists []. now rewrite app_nil_r, (ids_of_same_rows p w w' E).
  - intros et. rewrite (ids_of_same_rows _ w w' E). lia.
Qed.

Lemma grows_grid w node_id grid :
  grows w (update_node node_id (Node.set_spoke_grid grid) w).
Proof.
  split.
  - intros p Hp. exists []. rewrite app_nil_r.
    apply ids_of_update; [intros n; apply Hp|reflexivity].
  - intros et. rewrite ids_of_update by reflexivity. lia.
Qed.

Lemma grows_append_spoke w n :
  Node.page_category n = Some "spoke" ->
  grows w (with_decision_nodes (decision_nodes w ++ [n])%list w).
Proof.
  intros Hcat. split.
  - intros p _. rewrite ids_of_app. eauto.
  - intros et. rewrite ids_of_app.
    assert (E : is_hub_of et n = false).
    { unfold is_hub_of. rewrite Hcat. apply andb_false_r. }
    rewrite E, app_nil_r. lia.
Qed.

Lemma grows_append_hub w et n :
  find_hub w et = None -> Node.equipment_type_id n = Some et ->
  grows w (with_decision_nodes (decision_nodes w ++ [n])%list w).
Proof.
  intros Hnone Het. split.
  - intros p _. rewrite ids_of_app. eauto.
  - intros et'. rewrite ids_of_app, length_app.
    destruct (is_hub_of et' n) eqn:E; [|cbn; lia].
    unfold is_hub_of in E. rewrite Het in E. apply andb_true_iff in E as [E _].
    cbn in E. apply Nat.eqb_eq in E. subst et'.
    apply find_hub_ids in Hnone. rewrite Hnone. cbn. lia.
Qed.

Section AnyStore.

Variable db : Store.

(** The store takes the row under a new id, or refuses it. *)
Lemma insert_node_cases w row :
  insert_node db w row = (w, None)
  \/ insert_node db w row
     = (with_decision_nodes
          (decision_nodes w ++ [Node.set_id (fresh_id (all_ids w)) row])%list w,
        Some (fresh_id (all_ids w))).
Proof.
  unfold insert_node, all_ids.
  destruct (accepts_node db _ _); [now right|now left].
Qed.

Lemma create_spoke_page_grows w et name st kw g m b parent volume kd :
  grows w (fst (create_spoke_page db w et name st kw g m b parent volume kd)).
Proof.
  unfold create_spoke_page. cbv zeta.
  match goal with |- context [insert_node db w ?row] =>
    destruct (insert_node_cases w row) as [E | E]; rewrite E end; cbn [fst];
    [apply grows_refl|apply grows_append_spoke; reflexivity].
Qed.

Lemma create_hub_grows w et name :
  grows w (fst (fst (create_hub db w et name))).
Proof.
  unfold create_hub. destruct (find_hub w et) eqn:E; [apply grows_refl|].
  cbv zeta.
  match goal with |- context [insert_node db w ?row] =>
    destruct (insert_node_cases w row) as [E' | E']; rewrite E' end;
    cbv beta iota; cbn [fst]; [apply grows_refl|].
  match goal with |- grows w (set_hub_node_id _ _ ?w1) =>
    apply (grows_trans w w1);
      [apply (grows_append_hub w et); [exact E|reflexivity]
      |apply grows_same_rows; reflexivity]
  end.
Qed.

Lemma create_default_spokes_grows et name hub : forall spokes w res,
  grows w (fst (create_default_spokes db spokes w et name hub res)).
Proof.
  induction spokes as [|[type kw] spokes IH]; intros w res;
    cbn [create_default_spokes]; [apply grows_refl|].
  destruct (check_page_exists w et type None None None); [apply IH|].
  pose proof (create_spoke_page_grows w et name type kw None None None hub 0%Z 0%Z)
    as Hs.
  destruct (create_spoke_page db w et name type kw None None None hub 0%Z 0%Z)
    as [w' [sid|]]; cbn [fst] in Hs; (eapply grows_trans; [exact Hs|apply IH]).
Qed.

Lemma create_equipment_cluster_grows w et name :
  grows w (fst (create_equipment_cluster db w et name)).
Proof.
  unfold create_equipment_cluster.
  pose proof (create_hub_grows w et name) as H1.
  destruct (create_hub db w et name) as [[w1 hub] c0]. cbn [fst] in H1.
  pose proof (create_default_spokes_grows et name hub (default_spokes name) w1 c0)
    as H2.
  destruct (create_default_spokes db (default_spokes name) w1 et name hub c0)
    as [w2 c]. cbn [fst] in H2.
  pose proof (grows_trans _ _ _ H1 H2) as H12.
  destruct hub as [h|]; [|exact H12].
  unfold update_hub_spoke_grid.
  destruct (traverse grid_entry _) as [grid|]; cbn [bind fst]; [|exact H12].
  eapply grows_trans; [exact H12|apply grows_grid].
Qed.

Lemma decide_spoke_grows w k et volume kd r :
  grows w (fst (decide_spoke db w k et volume kd r)).
Proof.
  unfold decide_spoke.
  destruct (negb (String.eqb (ck_spoke_type k) "hub")); [|apply grows_refl].
  destruct (check_page_exists w et _ _ _ None); [apply grows_refl|].
  pose proof (create_spoke_page_grows w et (equipment_type k) (ck_spoke_type k)
                (original_keyword k) (ck_geo k) (ck_modifier k) None None volume kd)
    as Hs.
  destruct (create_spoke_page db w et _ _ _ _ _ None None volume kd)
    as [w' [sid|]]; exact Hs.
Qed.

Lemma get_or_create_equipment_type_rows w name :
  decision_nodes (fst (get_or_create_equipment_type db w name)) = decision_nodes w.
Proof.
  unfold get_or_create_equipment_type.
  destruct (filter _ (equipment_types w)); [|reflexivity].
  destruct (accepts_type db _ _); reflexivity.
Qed.

Lemma decide_and_queue_grows w k volume kd :
  grows w (fst (decide_and_queue db w k volume kd)).
Proof.
  unfold decide_and_queue.
  pose proof (get_or_create_equipment_type_rows w (equipment_type k)) as Hrows.
  destruct (get_or_create_equipment_type db w (equipment_type k)) as [w0 [et|]];
    cbn [fst] in Hrows; [|now apply grows_same_rows].
  apply (grows_trans w w0); [now apply grows_same_rows|].
  pose proof (create_equipment_cluster_grows w0 et (equipment_type k)) as Hc.
  destruct (String.eqb (ck_spoke_type k) "hub"
            && is_null (check_page_exists w0 et "hub" None None None)).
  { destruct (create_equipment_cluster db w0 et (equipment_type k)) as [w1 [c|]];
      exact Hc. }
  destruct (is_null (check_page_exists w0 et "hub" None None None)).
  - destruct (create_equipment_cluster db w0 et (equipment_type k)) as [w1 [c|]];
      cbn [fst] in Hc; [|exact Hc].
    match goal with |- context [decide_spoke db w1 k et volume kd ?r] =>
      pose proof (decide_spoke_grows w1 k et volume kd r) as Hd;
      destruct (decide_spoke db w1 k et volume kd r) as [w2 r2] end.
    cbn [fst] in *. eapply grows_trans; eassumption.
  - match goal with |- context [decide_spoke db w0 k et volume kd ?r] =>
      pose proof (decide_spoke_grows w0 k et volume kd r) as Hd;
      destruct (decide_spoke db w0 k et volume kd r) as [w2 r2] end.
    exact Hd.
Qed.

(** X13.  Whatever the store decides on each insert (take the row or
    refuse it), and whether or not the run returns, a run of
    [decide_and_queue] deletes and reorders nothing: every query that does
    not read a hub's grid finds the rows it found before, in the same
    order, before any new row; and it never writes a second hub: a
    registry with at most one hub per equipment type stays so. *)
Theorem decide_and_queue_any_store :
  forall w k volume kd,
    extends w (fst (decide_and_queue db w k volume kd))
    /\ (one_hub w -> one_hub (fst (decide_and_queue db w k volume kd))).
Proof.
  intros w k volume kd.
  destruct (decide_and_queue_grows w k volume kd) as [He Hh].
  split; [exact He|]. intros Hone et. specialize (Hh et). specialize (Hone et). lia.
Qed.

(** X14.  Once [get_or_create_equipment_type] has answered with an
    equipment type, every later call for a name with the same slug (the
    same name in another case or spacing, say) answers with that type and
    writes nothing, whatever the store would do. *)
Theorem get_or_create_equipment_type_stable :
  forall w name w' et,
    get_or_create_equipment_type db w name = (w', Some et) ->
    forall (db' : Store) name',
      generate_url_slug name' = generate_url_slug name ->
      get_or_create_equipment_type db' w' name' = (w', Some et).
Proof.
  intros w name w' et H db' name' Hslug.
  unfold get_or_create_equipment_type in *. rewrite Hslug.
  destruct (filter (fun e => String.eqb (et_slug e) (generate_url_slug name))
              (equipment_types w)) as [|e rest] eqn:E.
  - destruct (accepts_type db _ _); [|discriminate].
    injection H as <- <-. cbn [equipment_types with_equipment_types].
    rewrite filter_app, E. cbn [filter et_slug app].
    now rewrite String.eqb_refl.
  - injection H as <- <-. now rewrite E.
Qed.

End AnyStore.

Lemma one_hub_empty : one_hub empty_world.
Proof. intros et. cbn. lia. Qed.

Lemma decide_and_queue_any_store_witness :
  one_hub (after unique_slug (after unique_slug empty_world truck_rental_request)
             truck_rental_financing_request).
Proof.
  apply (proj2 (decide_and_queue_any_store unique_slug
                  (after unique_slug empty_world truck_rental_request)
                  truck_rental_financing_request 0%Z 0%Z)).
  apply (proj2 (decide_and_queue_any_store unique_slug empty_world
                  truck_rental_request 0%Z 0%Z)).
  intros et. cbn. lia.
Defined.

Lemma get_or_create_equipment_type_stable_witness :
  exists w' et,
    get_or_create_equipment_type accept_all empty_world "Skid Steer" = (w', Some et)
    /\ get_or_create_equipment_type refuse_all w' "skid  steer" = (w', Some et).
Proof.
  destruct (get_or_create_equipment_type accept_all empty_world "Skid Steer")
    as [w' [et|]] eqn:E; [|vm_compute in E; discriminate].
  exists w', et. split; [reflexivity|].
  apply (get_or_create_equipment_type_stable accept_all empty_world "Skid Steer"
           w' et E refuse_all "skid  steer").
  vm_compute. reflexivity.
Defined.

(** ** Cluster builder: a second run *)

(** X15.  With a store that takes every row and a registry whose spokes
    carry their type, the cluster builder returns with the hub and the
    three default spokes of the equipment type in place; run again on its
    own result it creates no page, adds no row and changes no row that a
    query can see (only the hub's grid is rewritten). *)
Theorem create_equipment_cluster_idempotent :
  forall w et name,
    spokes_typed w ->
    exists w1 c1 w2 c2,
      create_equipment_cluster accept_all w et name = (w1, Some c1)
      /\ ids_of (is_hub_of et) w1 <> []
      /\ cluster_complete et name w1
      /\ create_equipment_cluster accept_all w1 et name = (w2, Some c2)
      /\ cluster_pages_created c2 = 0
      /\ all_ids w2 = all_ids w1
      /\ forall p, grid_blind p -> ids_of p w2 = ids_of p w1.
Proof.
  intros w et name Ht.
  destruct (create_equipment_cluster_step w et name Ht)
    as (w1 & c1 & H1 & (_ & _ & Ht1 & _) & Hhub & Hdone & _).
  destruct (create_equipment_cluster_step w1 et name (Ht1 Ht))
    as (w2 & c2 & H2 & _ & _ & _ & Hsame).
  destruct (Hsame Hhub Hdone) as (Hids & Hzero & Hq).
  exists w1, c1, w2, c2. repeat split; assumption.
Qed.

Lemma create_equipment_cluster_idempotent_witness :
  exists w1 c1 w2 c2,
    create_equipment_cluster accept_all empty_world 1 "excavator" = (w1, Some c1)
    /\ create_equipment_cluster accept_all w1 1 "excavator" = (w2, Some c2)
    /\ cluster_pages_created c2 = 0.
Proof.
  destruct (create_equipment_cluster_idempotent empty_world 1 "excavator"
              (Forall_nil _))
    as (w1 & c1 & w2 & c2 & H1 & _ & _ & H2 & Hzero & _).
  exists w1, c1, w2, c2. repeat split; assumption.
Defined.

(** ** URL slugs *)

Lemma all_chars_append f a b :
  all_chars f (a ++ b) = all_chars f a && all_chars f b.
Proof. induction a as [|c a IH]; cbn; [reflexivity|]. now rewrite IH, andb_assoc. Qed.

Lemma string_rev_append a b :
  string_rev (a ++ b) = string_rev b ++ string_rev a.
Proof.
  induction a as [|c a IH]; cbn.
  - induction (string_rev b) as [|x r IHr]; cbn; [reflexivity|now rewrite <- IHr].
  - now rewrite IH, append_assoc.
Qed.

Lemma string_rev_involutive s : string_rev (string_rev s) = s.
Proof.
  induction s as [|c s IH]; cbn; [reflexivity|].
  now rewrite string_rev_append, IH.
Qed.

Lemma lstrip_dashes_suffix s : exists pre, s = pre ++ lstrip_dashes s.
Proof.
  induction s as [|c s [pre IH]]; cbn; [now exists EmptyString|].
  destruct (is_dash c).
  - exists (String c pre). cbn. now rewrite <- IH.
  - now exists EmptyString.
Qed.

Lemma lstrip_dashes_head s c r :
  lstrip_dashes s = String c r -> is_dash c = false.
Proof.
  induction s as [|x s IH]; cbn; [discriminate|].
  destruct (is_dash x) eqn:E; [exact IH|]. intros H. injection H as <- _. exact E.
Qed.

(** Stripping the dashes cuts a piece out of the text, and the piece does
    not begin with a dash. *)
Lemma strip_dashes_infix s :
  exists pre post, s = pre ++ strip_dashes s ++ post
                   /\ (forall c r, strip_dashes s = String c r -> is_dash c = false).
Proof.
  unfold strip_dashes.
  destruct (lstrip_dashes_suffix s) as [pre Hpre].
  destruct (lstrip_dashes_suffix (string_rev (lstrip_dashes s))) as [post Hpost].
  apply (f_equal string_rev) in Hpost.
  rewrite string_rev_involutive, string_rev_append in Hpost.
  exists pre, (string_rev post). split.
  - now rewrite <- Hpost.
  - intros c r Hc. rewrite Hc in Hpost. cbn in Hpost.
    now apply (lstrip_dashes_head s c (r ++ string_rev post)).
Qed.

Lemma substring_prefix n : forall s, exists post, s = substring 0 n s ++ post.
Proof.
  induction n as [|n IH]; intros [|c s]; cbn.
  - now exists EmptyString.
  - now exists (String c s).
  - now exists EmptyString.
  - destruct (IH s) as [post Hpost]. exists post. now rewrite <- Hpost.
Qed.

Lemma substring_length n : forall s, String.length (substring 0 n s) <= n.
Proof.
  induction n as [|n IH]; intros [|c s]; cbn; try lia.
  specialize (IH s). lia.
Qed.

Lemma string_filter_all f s : all_chars f (string_filter f s) = true.
Proof.
  induction s as [|c s IH]; cbn; [reflexivity|].
  destruct (f c) eqn:E; cbn; [now rewrite E|exact IH].
Qed.

Lemma collapse_dashes_all f s :
  all_chars f s = true -> all_chars f (collapse_dashes s) = true.
Proof.
  induction s as [|c s IH]; [reflexivity|].
  cbn [all_chars]. intros H. apply andb_true_iff in H as [Hc Hs].
  cbn [collapse_dashes].
  destruct (is_dash c); [destruct s as [|c' s']|];
    [cbn; now rewrite Hc| |cbn [all_chars]; now rewrite Hc, IH].
  destruct (is_dash c'); [now apply IH|].
  cbn [all_chars]. rewrite Hc. now apply IH.
Qed.

Lemma is_dash_char c : is_dash c = true <-> c = "-"%char.
Proof.
  unfold is_dash, Text.code. rewrite Nat.eqb_eq. split.
  - intros H. rewrite <- (ascii_nat_embedding c), H. reflexivity.
  - now intros ->.
Qed.

Lemma prefix_dash s :
  prefix "-" s = true <-> exists c r, s = String c r /\ is_dash c = true.
Proof.
  destruct s as [|c r]; cbn [prefix].
  - split; [discriminate|]. now intros (c & r & H & _).
  - destruct (ascii_dec "-" c) as [Heq|Hne].
    + split; [|intros _; now destruct r]. intros _. exists c, r.
      split; [reflexivity|]. now apply is_dash_char.
    + split; [discriminate|]. intros (c' & r' & H & Hd). injection H as <- <-.
      apply is_dash_char in Hd. now subst c.
Qed.

Lemma contains_two_dashes c r :
  Text.contains "--" (String c r)
  = (is_dash c && prefix "-" r) || Text.contains "--" r.
Proof.
  cbn [Text.contains]. f_equal. cbn [prefix].
  destruct (ascii_dec "-" c) as [Heq|Hne].
  - symmetry in Heq. apply is_dash_char in Heq. rewrite Heq.
    destruct r as [|x r]; [reflexivity|]. cbn [andb prefix].
    now destruct (ascii_dec "-" x).
  - destruct (is_dash c) eqn:E; [|reflexivity].
    apply is_dash_char in E. now subst c.
Qed.

Lemma collapse_dashes_head s :
  prefix "-" (collapse_dashes s) = true -> prefix "-" s = true.
Proof.
  induction s as [|c s IH]; [easy|]. cbn [collapse_dashes].
  destruct (is_dash c) eqn:Ec.
  - intros _. apply prefix_dash. now exists c, s.
  - intros H. apply prefix_dash in H as (c' & r' & H & Hd).
    injection H as <- _. congruence.
Qed.

Lemma collapse_dashes_single s : Text.contains "--" (collapse_dashes s) = false.
Proof.
  induction s as [|c s IH]; [reflexivity|]. cbn [collapse_dashes].
  destruct (is_dash c) eqn:Ec.
  - destruct s as [|c' s'].
    { rewrite contains_two_dashes. cbn [prefix Text.contains].
      now rewrite andb_false_r. }
    destruct (is_dash c') eqn:Ec'; [exact IH|].
    rewrite contains_two_dashes, IH, orb_false_r.
    apply andb_false_iff. right.
    destruct (prefix "-" (collapse_dashes (String c' s'))) eqn:E; [|reflexivity].
    apply collapse_dashes_head, prefix_dash in E as (x & r & H & Hd).
    injection H as <- _. congruence.
  - rewrite contains_two_dashes, Ec, IH. reflexivity.
Qed.

Lemma prefix_append p : forall s post, prefix p s = true -> prefix p (s ++ post) = true.
Proof.
  induction p as [|a p IH]; intros [|b s] post H; cbn in *; try reflexivity;
    try discriminate.
  - now destruct post.
  - destruct (ascii_dec a b); [now apply IH|discriminate].
Qed.

Lemma contains_infix p t : forall pre post,
  Text.contains p t = true -> Text.contains p (pre ++ t ++ post) = true.
Proof.
  assert (Hpost : forall t post, Text.contains p t = true ->
                                 Text.contains p (t ++ post) = true).
  { clear t. induction t as [|c t IH]; intros post H; cbn [Text.contains] in H.
    - rewrite orb_false_r in H. destruct p; [|discriminate H].
      destruct post; cbn; reflexivity.
    - apply orb_true_iff in H as [H|H].
      + change (String c t ++ post) with (String c (t ++ post)).
        cbn [Text.contains]. apply orb_true_iff. left.
        now apply (prefix_append p (String c t) post).
      + change (String c t ++ post) with (String c (t ++ post)).
        cbn [Text.contains]. apply orb_true_iff. right. now apply IH. }
  induction pre as [|c pre IH]; intros post H; cbn [append].
  - now apply Hpost.
  - cbn [Text.contains]. apply orb_true_iff. right. now apply IH.
Qed.

(** X1.  Whatever the text, the slug [generate_url_slug] returns is made of
    lowercase letters, digits and dashes only, is at most 100 characters
    long, holds no two dashes in a row and does not begin with a dash. *)
Theorem generate_url_slug_shape :
  forall text,
    all_chars slug_char (generate_url_slug text) = true
    /\ String.length (generate_url_slug text) <= 100
    /\ Text.contains "--" (generate_url_slug text) = false
    /\ prefix "-" (generate_url_slug text) = false.
Proof.
  intros text. unfold generate_url_slug.
  set (filtered := string_filter _ _).
  assert (Hall : all_chars slug_char (collapse_dashes filtered) = true).
  { apply collapse_dashes_all. apply (string_filter_all slug_char). }
  destruct (strip_dashes_infix (collapse_dashes filtered))
    as (pre & post & Hcut & Hhead).
  destruct (substring_prefix 100 (strip_dashes (collapse_dashes filtered)))
    as [rest Hrest].
  set (slug := substring 0 100 _) in *.
  assert (Hwhole : collapse_dashes filtered = pre ++ slug ++ (rest ++ post)).
  { rewrite Hcut at 1. rewrite Hrest at 1. now rewrite append_assoc. }
  split; [|split; [|split]].
  - rewrite Hwhole, !all_chars_append in Hall.
    apply andb_true_iff in Hall as [_ Hall].
    now apply andb_true_iff in Hall as [Hall _].
  - apply substring_length.
  - destruct (Text.contains "--" slug) eqn:E; [|reflexivity].
    apply (contains_infix _ _ pre (rest ++ post)) in E.
    rewrite <- Hwhole, collapse_dashes_single in E. discriminate.
  - destruct (prefix "-" slug) eqn:E; [|reflexivity].
    apply prefix_dash in E as (c & r & Hs & Hd).
    rewrite Hs in Hrest. cbn in Hrest.
    rewrite (Hhead _ _ Hrest) in Hd. discriminate.
Qed.

(** ** Circuit breaker: any history *)

(** X2.  After any history of recorded successes, recorded failures and
    resets, the breaker that was created closed counts exactly the failures
    since the last success or reset, and it is open exactly when there are
    3 or more of them: it never opens earlier and never stays closed
    longer. *)
Theorem circuit_breaker_counts_trailing_failures :
  forall calls,
    CircuitBreaker.threshold (breaker_after calls) = 3%Z
    /\ CircuitBreaker.failures (breaker_after calls)
       = Z.of_nat (trailing_failures calls)
    /\ CircuitBreaker.is_open (breaker_after calls)
       = (3 <=? trailing_failures calls)
    /\ CircuitBreaker.can_proceed (breaker_after calls)
       = (trailing_failures calls <? 3).
Proof.
  assert (H : forall calls,
             CircuitBreaker.threshold (breaker_after calls) = 3%Z
             /\ CircuitBreaker.failures (breaker_after calls)
                = Z.of_nat (trailing_failures calls)
             /\ CircuitBreaker.is_open (breaker_after calls)
                = (3 <=? trailing_failures calls)).
  { induction calls as [|c calls (Ht & Hf & Ho)] using rev_ind.
    - now cbn.
    - unfold breaker_after, trailing_failures in *.
      rewrite fold_left_app, rev_unit. cbn [fold_left].
      destruct c; cbn [breaker_call leading_failures]; try (now cbn).
      unfold CircuitBreaker.record_failure.
      cbn [CircuitBreaker.threshold CircuitBreaker.failures CircuitBreaker.is_open].
      rewrite Ht, Hf, Ho. split; [reflexivity|]. split; [lia|].
      set (n := leading_failures (rev calls)).
      destruct (Z.leb_spec 3 (Z.of_nat n + 1)) as [Hz|Hz];
        destruct (Nat.leb_spec 3 (S n)) as [Hn|Hn];
        destruct (Nat.leb_spec 3 n) as [Hm|Hm]; try reflexivity; lia. }
  intros calls. destruct (H calls) as (Ht & Hf & Ho).
  split; [exact Ht|]. split; [exact Hf|]. split; [exact Ho|].
  unfold CircuitBreaker.can_proceed. rewrite Ho.
  destruct (Nat.leb_spec 3 (trailing_failures calls));
    destruct (Nat.ltb_spec (trailing_failures calls) 3); try reflexivity; lia.
Qed.

(** ** Brand compliance: the check *)

Lemma lower_truthy s : Text.truthy (Text.lower s) = Text.truthy s.
Proof. now destruct s. Qed.

(** X3.  [check_brand_compliance] reads its text through [lower()] only:
    two texts that differ in the case of their letters get the same verdict
    and the same list; a phrase is reported exactly when it is one of the
    13 listed phrases and occurs in the lowercased text, and the reported
    phrases come in the order of the list. *)
Theorem check_brand_compliance_case_blind :
  forall a b : string,
    Text.lower a = Text.lower b ->
    check_brand_compliance a = check_brand_compliance b
    /\ (forall phrase,
           In phrase (snd (check_brand_compliance a))
           <-> In phrase BANNED_PHRASES
               /\ Text.contains phrase (Text.lower a) = true)
    /\ snd (check_brand_compliance a)
       = filter (fun phrase => Text.contains phrase (Text.lower a)) BANNED_PHRASES.
Proof.
  intros a b H.
  assert (Hlist : forall t,
             snd (check_brand_compliance t)
             = filter (fun phrase => Text.contains phrase (Text.lower t))
                 BANNED_PHRASES).
  { intros [|c r]; [vm_compute; reflexivity|reflexivity]. }
  split; [|split].
  - unfold check_brand_compliance.
    rewrite <- (lower_truthy a), <- (lower_truthy b), H. reflexivity.
  - intros phrase. rewrite Hlist, filter_In. reflexivity.
  - apply Hlist.
Qed.

Lemma check_brand_compliance_case_blind_witness :
  check_brand_compliance "Ask about Our Rates" = check_brand_compliance "ask about our rates"
  /\ In "our rates" (snd (check_brand_compliance "Ask about Our Rates")).
Proof.
  destruct (check_brand_compliance_case_blind
              "Ask about Our Rates" "ask about our rates" eq_refl)
    as (Hsame & Hin & _).
  split; [exact Hsame|].
  apply Hin. split; [|reflexivity].
  cbn. tauto.
Defined.

(** ** Content versioning: NULL columns and other rows *)

Lemma filter_others_map node_id f (l : list Node.t) :
  (forall n, Node.id (f n) = Node.id n) ->
  filter (fun n => negb (Nat.eqb (Node.id n) node_id))
    (map (fun n => if Nat.eqb (Node.id n) node_id then f n else n) l)
  = filter (fun n => negb (Nat.eqb (Node.id n) node_id)) l.
Proof.
  intros Hid. induction l as [|n l IH]; [reflexivity|]. cbn [map filter].
  destruct (Node.id n =? node_id) eqn:E.
  - rewrite Hid, E. cbn [negb]. exact IH.
  - rewrite E. cbn [negb]. now rewrite IH.
Qed.

Lemma other_rows_update node_id f w :
  (forall n, Node.id (f n) = Node.id n) ->
  other_rows node_id (update_node node_id f w) = other_rows node_id w.
Proof. intros Hid. now apply filter_others_map. Qed.

Lemma update_node_absent node_id f w :
  filter (fun n => Nat.eqb (Node.id n) node_id) (decision_nodes w) = [] ->
  update_node node_id f w = w.
Proof.
  intros H. unfold update_node.
  assert (Hmap : map (fun n => if Node.id n =? node_id then f n else n)
                   (decision_nodes w) = decision_nodes w).
  { induction (decision_nodes w) as [|n l IH]; [reflexivity|].
    cbn [filter] in H. cbn [map].
    destruct (Node.id n =? node_id); [discriminate|]. now rewrite IH. }
  rewrite Hmap. now destruct w.
Qed.

(** The registry after [update_content_safe]: untouched, or the rows of
    the id rewritten by an update that keeps the ids. *)
Lemma update_content_safe_cases w node_id content N :
  fst (update_content_safe w node_id content N) = w
  \/ exists f, (forall n, Node.id (f n) = Node.id n)
               /\ fst (update_content_safe w node_id content N)
                  = update_node node_id f w.
Proof.
  unfold update_content_safe, update_content_fallback.
  destruct (single_node node_id w) as [n|];
    [|right; eexists; split; [|reflexivity]; reflexivity].
  destruct (Node.word_count n) as [W|];
    [|right; eexists; split; [|reflexivity]; reflexivity].
  destruct (9 * W <=? 10 * N)%Z; [|now left].
  destruct (Node.content_version n);
    right; eexists; (split; [|reflexivity]); reflexivity.
Qed.

(** X4.  A row whose [word_count] is NULL, as the decision engine creates
    it, takes any new content: the call reports success and stores the
    content and the word count without the regression test; and a row whose
    [content_version] is NULL never gets a version number from
    [update_content_safe], whether the update is applied or rejected. *)
Theorem update_content_safe_null_columns :
  forall (w : World) (node_id : uuid) (n : Node.t) (content : json) (N : Z),
    single_node node_id w = Some n ->
    (Node.word_count n = None ->
     snd (update_content_safe w node_id content N) = true
     /\ single_node node_id (fst (update_content_safe w node_id content N))
        = Some (Node.set_word_count (Some N)
                  (Node.set_generated_content (Some content) n)))
    /\ (Node.content_version n = None ->
        exists n',
          single_node node_id (fst (update_content_safe w node_id content N))
          = Some n'
          /\ Node.content_version n' = None).
Proof.
  intros w node_id n content N Hn. split.
  - intros HW. unfold update_content_safe, update_content_fallback.
    rewrite Hn, HW. cbn [fst snd]. split; [reflexivity|].
    apply (single_node_update node_id w n
             (fun m => Node.set_word_count (Some N)
                         (Node.set_generated_content (Some content) m)));
      [reflexivity|exact Hn].
  - intros HV. unfold update_content_safe, update_content_fallback.
    rewrite Hn, HV.
    destruct (Node.word_count n) as [W|].
    + destruct (9 * W <=? 10 * N)%Z; cbn [fst].
      * eexists. split; [apply single_node_update; [reflexivity|exact Hn]|exact HV].
      * exists n. now split.
    + cbn [fst]. eexists.
      split; [apply single_node_update; [reflexivity|exact Hn]|exact HV].
Qed.

Lemma update_content_safe_null_columns_witness :
  snd (update_content_safe (world_of [discovery_row]) 7 (JStr "x") 1) = true
  /\ exists n',
       single_node 7 (fst (update_content_safe (world_of [discovery_row]) 7
                             (JStr "x") 1)) = Some n'
       /\ Node.content_version n' = None.
Proof.
  destruct (update_content_safe_null_columns (world_of [discovery_row]) 7
              discovery_row (JStr "x") 1 eq_refl) as [Hwc Hv].
  split; [exact (proj1 (Hwc eq_refl))|exact (Hv eq_refl)].
Defined.

(** X5.  [update_content_safe] writes to the rows that carry the id and to
    nothing else: the rows with another id, the order and the ids of all
    rows, the equipment types, the breaker and the CMS log are as before;
    and when no row carries the id the call still reports success, with
    nothing stored. *)
Theorem update_content_safe_frame :
  forall (w : World) (node_id : uuid) (content : json) (N : Z),
    let r := update_content_safe w node_id content N in
    other_rows node_id (fst r) = other_rows node_id w
    /\ all_ids (fst r) = all_ids w
    /\ equipment_types (fst r) = equipment_types w
    /\ publishing_control (fst r) = publishing_control w
    /\ circuit_breaker (fst r) = circuit_breaker w
    /\ cms_calls (fst r) = cms_calls w
    /\ (filter (fun n => Nat.eqb (Node.id n) node_id) (decision_nodes w) = [] ->
        r = (w, true)).
Proof.
  intros w node_id content N r.
  pose proof (update_content_safe_cases w node_id content N) as Hcases.
  fold r in Hcases.
  split; [|split; [|split; [|split; [|split; [|split]]]]];
    try (destruct Hcases as [->|(f & Hid & ->)]; [reflexivity|]).
  - now apply other_rows_update.
  - now apply all_ids_update.
  - reflexivity.
  - reflexivity.
  - reflexivity.
  - reflexivity.
  - intros Habsent. subst r. unfold update_content_safe, single_node.
    rewrite Habsent. unfold update_content_fallback.
    now rewrite update_node_absent.
Qed.

Lemma update_content_safe_frame_witness :
  update_content_safe (world_of [versioned_row]) 8 (JStr "fresh") 920
  = (world_of [versioned_row], true).
Proof.
  exact (proj2 (proj2 (proj2 (proj2 (proj2 (proj2
           (update_content_safe_frame (world_of [versioned_row]) 8
              (JStr "fresh") 920)))))) eq_refl).
Defined.

(** ** Content pipeline: what a run leaves behind *)

Lemma generation_errors_nil w n :
  generation_errors w n = [] ->
  opt_truthy (Node.page_category n) = true
  /\ (opt_eqb String.eqb (Node.page_category n) "spoke" = true ->
      opt_truthy (Node.spoke_type n) = true).
Proof.
  unfold generation_errors. intros H.
  apply app_eq_nil in H as [_ H]. apply app_eq_nil in H as [_ H].
  apply app_eq_nil in H as [Hpc H]. apply app_eq_nil in H as [Hsp _].
  split.
  - destruct (opt_truthy (Node.page_category n)); [reflexivity|discriminate].
  - intros E. rewrite E in Hsp. apply app_eq_nil in Hsp as [Hsp _].
    destruct (opt_truthy (Node.spoke_type n)); [reflexivity|discriminate].
Qed.

(** The row [update_content_safe] leaves: the old one, or the old one with
    new content and word count, with or without a new version. *)
Lemma update_content_safe_row w node_id n content N :
  single_node node_id w = Some n ->
  exists n0,
    single_node node_id (fst (update_content_safe w node_id content N)) = Some n0
    /\ (n0 = n
        \/ n0 = Node.set_word_count (Some N)
                  (Node.set_generated_content (Some content) n)
        \/ exists V, n0 = Node.set_content_version (Some V)
                            (Node.set_word_count (Some N)
                               (Node.set_generated_content (Some content) n)))
    /\ (Node.word_count n = None -> Node.generated_content n0 = Some content).
Proof.
  intros Hn. unfold update_content_safe, update_content_fallback. rewrite Hn.
  destruct (Node.word_count n) as [W|] eqn:EW.
  - destruct (9 * W <=? 10 * N)%Z.
    + destruct (Node.content_version n) as [V|]; cbn [fst].
      * eexists. split; [apply single_node_update; [reflexivity|exact Hn]|].
        split; [right; right; now exists (V + 1)%Z|discriminate].
      * eexists. split; [apply single_node_update; [reflexivity|exact Hn]|].
        split; [right; now left|discriminate].
    + exists n. cbn [fst]. split; [exact Hn|]. split; [now left|discriminate].
  - cbn [fst]. eexists. split; [apply single_node_update; [reflexivity|exact Hn]|].
    split; [right; now left|reflexivity].
Qed.

Lemma traverse_length {A B : Type} (f : A -> option B) : forall l l',
  traverse f l = Some l' -> List.length l' = List.length l.
Proof.
  induction l as [|a l IH]; intros l' H; cbn [traverse] in H.
  - now injection H as <-.
  - destruct (f a); [|discriminate]. cbn [bind] in H.
    destruct (traverse f l) as [bs|]; [|discriminate]. cbn [bind] in H.
    injection H as <-. cbn. now rewrite (IH bs).
Qed.

Lemma set_nonempty k v d : Dict.set k v d <> [].
Proof.
  destruct d as [|[k' v'] d]; cbn; [discriminate|].
  destruct (String.eqb k k'); discriminate.
Qed.

(** The document of a draft is not empty and carries a non-empty
    [short_description]. *)
Lemma draft_content_described site today n name sources reply d :
  reply <> [] ->
  draft site today n name sources reply = Some d ->
  draft_content d <> []
  /\ json_truthy (get_default "short_description" (JStr EmptyString)
                    (draft_content d)) = true.
Proof.
  intros Hne H. unfold draft in H.
  destruct (sanitize_content reply) as [content|] eqn:Es; [|discriminate].
  cbn [bind] in H.
  destruct (faq_words content); [|discriminate]. cbn [bind] in H.
  destruct (Gate.validate_quality_gates _ _ _ _ _) as [g|]; [|discriminate].
  cbn [bind] in H.
  destruct (generate_schema_json _ _ _ _ _ _ _ _); [|discriminate]. cbn [bind] in H.
  destruct (Gate.content_faq_count _); [|discriminate]. cbn [bind] in H.
  injection H as <-. cbn [draft_content].
  assert (Hc : content <> []).
  { apply traverse_length in Es. destruct reply; [now destruct Hne|].
    destruct content; [discriminate|discriminate]. }
  destruct (json_truthy (get_default "short_description" JNull content)) eqn:Et.
  - split; [exact Hc|]. unfold get_default in *.
    destruct (Dict.get "short_description" content); [exact Et|discriminate].
  - split; [apply set_nonempty|]. unfold get_default. rewrite get_set_same.
    unfold auto_short_description.
    destruct (String.eqb _ "hub"); [reflexivity|].
    destruct (opt_eqb String.eqb _ "financing"); [reflexivity|].
    destruct (opt_eqb String.eqb _ "rental"); [reflexivity|].
    destruct (opt_eqb String.eqb _ "for-sale"); reflexivity.
Qed.

Lemma json_truthy_obj d : d <> [] -> json_truthy (JObj d) = true.
Proof. destruct d; [intros H; now destruct H|reflexivity]. Qed.

Section GenerateRuns.

Variables SITE_URL today : string.

Let generate := generate_content_for_node SITE_URL today.

(** A run reports success only after a usable reply gave a draft. *)
Lemma generate_success_inv w node_id env :
  success (snd (generate w node_id env)) = true ->
  exists n reply d,
    single_node node_id w = Some n
    /\ generation_errors w n = []
    /\ env_budget_ok env = true
    /\ env_reply env = LlmParsed (Some (JObj reply))
    /\ reply <> []
    /\ draft SITE_URL today n (equipment_name_of w n) (env_sources env) reply = Some d.
Proof.
  unfold generate, generate_content_for_node.
  destruct (single_node node_id w) as [n|]; [|discriminate].
  destruct (generation_errors w n) eqn:Ev; [|discriminate].
  destruct (env_budget_ok env); [|discriminate]. cbn [negb].
  destruct (env_reply env) as [|[[| | | | |[|kv reply]]|]]; try discriminate;
    try (match goal with |- context [if ?b then _ else _] => destruct b end;
         discriminate).
  destruct (draft SITE_URL today n (equipment_name_of w n) (env_sources env)
              (kv :: reply)) as [d|] eqn:Ed; [|discriminate].
  intros _. exists n, (kv :: reply), d. repeat split; auto. discriminate.
Qed.


(** The row a successful run leaves: the columns of the draft on the row
    the version guard left, which differs from the old one in the content
    columns and the SERP hash at most. *)
Lemma generate_success_shape w node_id env :
  success (snd (generate w node_id env)) = true ->
  exists n d n0,
    single_node node_id w = Some n
    /\ single_node node_id (fst (generate w node_id env))
       = Some (update_other_fields d (env_sources env) n0)
    /\ gate_passed (snd (generate w node_id env)) = Some (Gate.passed (draft_gate d))
    /\ json_truthy (get_default "short_description" (JStr EmptyString)
                      (draft_content d)) = true
    /\ publish_errors (update_other_fields d (env_sources env) n0)
       = ((if opt_json_truthy (Node.generated_content n0) then []
           else ["No generated content"])
          ++ (if opt_truthy (Node.hero_image_url n0) then []
              else ["No hero image"]))%list
    /\ Node.hero_image_url n0 = Node.hero_image_url n
    /\ Node.webflow_item_id n0 = Node.webflow_item_id n
    /\ (Node.generated_content n0 = Node.generated_content n
        \/ opt_json_truthy (Node.generated_content n0) = true)
    /\ (Node.word_count n = None ->
        opt_json_truthy (Node.generated_content n0) = true)
    /\ publishing_control (fst (generate w node_id env)) = publishing_control w
    /\ circuit_breaker (fst (generate w node_id env)) = circuit_breaker w.
Proof.
  intros Hs.
  destruct (generate_success_inv w node_id env Hs)
    as (n & reply & d & Hn & Hv & Hb & Hr & Hne & Hd).
  pose proof (generate_success SITE_URL today w node_id env n reply d
                Hn Hv Hb Hr Hne Hd) as Hrun.
  fold generate in Hrun. rewrite Hrun. cbn [fst snd gate_passed].
  destruct (update_content_safe_row (world_after_intelligence env node_id w)
              node_id (after_intelligence env n) (JObj (draft_content d))
              (Z.of_nat (draft_word_count d))
              (single_after_intelligence env node_id w n Hn))
    as (n0 & Hn0 & Hshape & Hfirst).
  destruct (draft_content_described _ _ _ _ _ _ _ Hne Hd) as [Hdc Hsd].
  destruct (generation_errors_nil w n Hv) as [Hpc Hst].
  assert (Hcols : Node.page_category n0 = Node.page_category n
                  /\ Node.spoke_type n0 = Node.spoke_type n
                  /\ Node.hero_image_url n0 = Node.hero_image_url n
                  /\ Node.webflow_item_id n0 = Node.webflow_item_id n
                  /\ Node.word_count (after_intelligence env n) = Node.word_count n
                  /\ (Node.generated_content n0 = Node.generated_content n
                      \/ Node.generated_content n0 = Some (JObj (draft_content d)))).
  { unfold after_intelligence in *.
    destruct Hshape as [->|[->|[V ->]]]; destruct (env_serp_hash env);
      repeat split; auto. }
  destruct Hcols as (Cpc & Cst & Chero & Citem & Cwc & Ccontent).
  exists n, d, n0.
  split; [exact Hn|].
  split; [apply single_node_update; [reflexivity|exact Hn0]|].
  split; [reflexivity|]. split; [exact Hsd|].
  split.
  { unfold publish_errors.
    change (Node.short_description (update_other_fields d (env_sources env) n0))
      with (Some (get_default "short_description" (JStr EmptyString)
                    (draft_content d))).
    change (Node.page_category (update_other_fields d (env_sources env) n0))
      with (Node.page_category n0).
    change (Node.spoke_type (update_other_fields d (env_sources env) n0))
      with (Node.spoke_type n0).
    change (Node.generated_content (update_other_fields d (env_sources env) n0))
      with (Node.generated_content n0).
    change (Node.hero_image_url (update_other_fields d (env_sources env) n0))
      with (Node.hero_image_url n0).
    cbn [opt_json_truthy]. rewrite Hsd, Cpc, Cst, Hpc.
    destruct (opt_eqb String.eqb (Node.page_category n) "spoke") eqn:Esp.
    - rewrite (Hst eq_refl). cbn [negb andb]. now rewrite !app_nil_r.
    - cbn [andb]. now rewrite !app_nil_r. }
  split; [exact Chero|]. split; [exact Citem|].
  split.
  { destruct Ccontent as [C|C]; [now left|right].
    rewrite C. cbn [opt_json_truthy]. now apply json_truthy_obj. }
  split.
  { intros HW. rewrite Hfirst by (now rewrite Cwc).
    cbn [opt_json_truthy]. now apply json_truthy_obj. }
  assert (Hctl : forall w1 w2 : World,
             w2 = w1 \/ (exists f, w2 = update_node node_id f w1) ->
             publishing_control w2 = publishing_control w1
             /\ circuit_breaker w2 = circuit_breaker w1).
  { intros w1 w2 [->|[f ->]]; split; reflexivity. }
  assert (H1 : publishing_control (world_after_intelligence env node_id w)
               = publishing_control w
               /\ circuit_breaker (world_after_intelligence env node_id w)
                  = circuit_breaker w).
  { apply Hctl. unfold world_after_intelligence.
    destruct (env_serp_hash env); [right; now eexists|now left]. }
  assert (H2 : publishing_control
                 (fst (update_content_safe (world_after_intelligence env node_id w)
                         node_id (JObj (draft_content d))
                         (Z.of_nat (draft_word_count d))))
               = publishing_control (world_after_intelligence env node_id w)
               /\ circuit_breaker
                    (fst (update_content_safe (world_after_intelligence env node_id w)
                            node_id (JObj (draft_content d))
                            (Z.of_nat (draft_word_count d))))
                  = circuit_breaker (world_after_intelligence env node_id w)).
  { apply Hctl.
    destruct (update_content_safe_cases (world_after_intelligence env node_id w)
                node_id (JObj (draft_content d)) (Z.of_nat (draft_word_count d)))
      as [E|(f & _ & E)]; [now left|right; now exists f]. }
  cbn [publishing_control circuit_breaker update_node with_decision_nodes].
  destruct H1 as [<- <-]. destruct H2 as [<- <-]. now split.
Qed.

(** X7.  After a run that reports success the row carries a non-empty
    [short_description] (the one of the reply, or the auto-filled one), its
    schema and the status that goes with the gate verdict; the publish
    validation can then only miss the hero image or, when the version
    guard kept an old row without content, the content: it never reports
    a missing short description, page category or spoke type; and a row
    generated for the first time (NULL word count) has its content. *)
Theorem generate_success_row :
  forall w node_id env,
    success (snd (generate w node_id env)) = true ->
    exists n n',
      single_node node_id w = Some n
      /\ single_node node_id (fst (generate w node_id env)) = Some n'
      /\ opt_json_truthy (Node.short_description n') = true
      /\ Node.has_schema_markup n' = Some true
      /\ Node.status n'
         = Some (match gate_passed (snd (generate w node_id env)) with
                 | Some true => "ready_to_publish"
                 | _ => "blocked_quality"
                 end)
      /\ (forall e, In e (publish_errors n') ->
                    e = "No generated content" \/ e = "No hero image")
      /\ (Node.word_count n = None ->
          forall e, In e (publish_errors n') -> e = "No hero image")
      /\ Node.hero_image_url n' = Node.hero_image_url n
      /\ Node.webflow_item_id n' = Node.webflow_item_id n.
Proof.
  intros w node_id env Hs.
  destruct (generate_success_shape w node_id env Hs)
    as (n & d & n0 & Hn & Hn' & Hgate & Hsd & Herrs & Chero & Citem & _ & Hfirst & _).
  exists n, (update_other_fields d (env_sources env) n0).
  split; [exact Hn|]. split; [exact Hn'|].
  split; [exact Hsd|]. split; [reflexivity|].
  split; [rewrite Hgate; cbn; now destruct (Gate.passed (draft_gate d))|].
  split; [|split; [|split; [exact Chero|exact Citem]]].
  - intros e. rewrite Herrs. intros Hin. apply in_app_or in Hin as [Hin|Hin].
    + destruct (opt_json_truthy (Node.generated_content n0)); [destruct Hin|].
      destruct Hin as [<-|[]]. now left.
    + destruct (opt_truthy (Node.hero_image_url n0)); [destruct Hin|].
      destruct Hin as [<-|[]]. now right.
  - intros HW e. rewrite Herrs, (Hfirst HW). cbn [app].
    destruct (opt_truthy (Node.hero_image_url n0)); [intros []|].
    now intros [<-|[]].
Qed.

End GenerateRuns.

Lemma list_words_faq : forall l ns,
  traverse faq_item_words l = Some ns ->
  Gate.list_words l = Some (fold_right Nat.add 0 ns).
Proof.
  induction l as [|item l IH]; intros ns H; cbn [traverse] in H.
  - now injection H as <-.
  - destruct (faq_item_words item) as [x|] eqn:Ei; [|discriminate]. cbn [bind] in H.
    destruct (traverse faq_item_words l) as [xs|]; [|discriminate]. cbn [bind] in H.
    injection H as <-. unfold faq_item_words in Ei.
    destruct item as [| | | | |dct]; try discriminate.
    cbn [Gate.list_words].
    destruct (Gate.qa_words "q" dct) as [q|]; [|discriminate]. cbn [bind] in *.
    destruct (Gate.qa_words "a" dct) as [a|]; [|discriminate]. cbn [bind] in *.
    injection Ei as <-. rewrite (IH xs eq_refl). cbn [bind fold_right].
    f_equal; lia.
Qed.

Lemma content_words_lists : forall content g,
  Gate.content_words content = Some g ->
  string_words content <= g
  /\ forall k l, Dict.get k content = Some (JArr l) ->
                 exists x, Gate.list_words l = Some x /\ string_words content + x <= g.
Proof.
  induction content as [|[k' v] content IH]; intros g H.
  - injection H as <-. split; [cbn; lia|]. intros k l Hk. discriminate.
  - cbn [Gate.content_words] in H. cbn [string_words Dict.get].
    destruct v as [| | |s|l'|dct];
      try (destruct (IH g H) as [H1 H2]; split; [exact H1|];
           intros k l Hk; destruct (String.eqb k k'); [discriminate|];
           now apply (H2 k l)).
    + destruct (Gate.content_words content) as [n|]; [|discriminate].
      cbn [bind] in H. injection H as <-.
      destruct (IH n eq_refl) as [H1 H2]. split; [lia|].
      intros k l Hk. destruct (String.eqb k k'); [discriminate|].
      destruct (H2 k l Hk) as (x & Hx & Hle). exists x. split; [exact Hx|lia].
    + destruct (Gate.list_words l') as [m|] eqn:El; [|discriminate].
      cbn [bind] in H.
      destruct (Gate.content_words content) as [n|]; [|discriminate].
      cbn [bind] in H. injection H as <-.
      destruct (IH n eq_refl) as [H1 H2]. split; [lia|].
      intros k l Hk. destruct (String.eqb k k').
      * injection Hk as <-. exists m. split; [exact El|lia].
      * destruct (H2 k l Hk) as (x & Hx & Hle). exists x. split; [exact Hx|lia].
Qed.

(** X8.  The word count [generate_content_for_node] stores and reports is
    never above the one the quality gate judged the same document by: the
    pipeline counts the strings and the entries of [faq], the gate counts
    the strings and the entries of every list. *)
Theorem stored_word_count_below_gate :
  forall site today n name sources reply d,
    draft site today n name sources reply = Some d ->
    draft_word_count d <= Gate.word_count (draft_gate d).
Proof.
  intros site today n name sources reply d H. unfold draft in H.
  destruct (sanitize_content reply) as [content|]; [|discriminate].
  cbn [bind] in H.
  destruct (faq_words content) as [fw|] eqn:Ef; [|discriminate]. cbn [bind] in H.
  destruct (Gate.validate_quality_gates _ _ _ _ _) as [g|] eqn:Eg; [|discriminate].
  cbn [bind] in H.
  destruct (generate_schema_json _ _ _ _ _ _ _ _); [|discriminate]. cbn [bind] in H.
  destruct (Gate.content_faq_count _); [|discriminate]. cbn [bind] in H.
  injection H as <-. cbn [draft_word_count draft_gate].
  unfold Gate.validate_quality_gates in Eg.
  destruct (Gate.content_words content) as [wc|] eqn:Ew; [|discriminate].
  cbn [bind] in Eg.
  destruct (Gate.content_faq_count content); [|discriminate]. cbn [bind] in Eg.
  destruct (check_brand_compliance _). injection Eg as <-. cbn [Gate.word_count].
  destruct (content_words_lists content wc Ew) as [Hs Hl].
  unfold faq_words, get_default in Ef.
  destruct (Dict.get "faq" content) as [v|] eqn:Eq.
  - destruct v as [| | |s|items|dct]; try discriminate.
    + destruct s; [|discriminate]. cbn in Ef. injection Ef as <-. lia.
    + cbn [faq_items bind] in Ef.
      destruct (traverse faq_item_words items) as [ns|] eqn:Et; [|discriminate].
      cbn [bind] in Ef. injection Ef as <-.
      destruct (Hl "faq" items Eq) as (x & Hx & Hle).
      rewrite (list_words_faq items ns Et) in Hx. injection Hx as <-. exact Hle.
    + destruct dct; [|discriminate]. cbn in Ef. injection Ef as <-. lia.
  - cbn in Ef. injection Ef as <-. lia.
Qed.

(** ** Publisher: what a call writes *)

Section PublishRuns.

Variables token collection site : string.
Variable ready : Node.t -> bool.

Let publish := publish_to_webflow token collection site ready.

(** X9.  [publish_to_webflow] marks a row published only after the CMS
    answered 200, 201 or 202 to a request for a row that passed the publish
    validation: a call that does not report success leaves every row as it
    was and names an error; a call that reports success rewrites the
    status, the CMS status and the item id of that one row, sent exactly
    one request and recorded a success on the breaker.  The equipment
    types, the kill switch and the rows with another id are never
    touched. *)
Theorem publish_writes_only_on_acceptance :
  forall w node_id cms w' r,
    publish w node_id cms = Some (w', r) ->
    equipment_types w' = equipment_types w
    /\ publishing_control w' = publishing_control w
    /\ other_rows node_id w' = other_rows node_id w
    /\ (pub_success r = false ->
        decision_nodes w' = decision_nodes w /\ pub_error r <> None)
    /\ (pub_success r = true ->
        exists n status_code id text call,
          cms = CmsReplied status_code id text
          /\ (status_code = 200 \/ status_code = 201 \/ status_code = 202)%Z
          /\ single_node node_id w = Some n
          /\ publish_errors n = []
          /\ single_node node_id w'
             = Some (Node.set_status (Some "published")
                       (Node.set_webflow_status (Some "published")
                          (Node.set_webflow_item_id (pub_item_id r) n)))
          /\ circuit_breaker w' = CircuitBreaker.record_success (circuit_breaker w)
          /\ cms_calls w' = (cms_calls w ++ [call])%list).
Proof.
  intros w node_id cms w' r H. unfold publish, publish_to_webflow in H.
  assert (Hstay : forall e errors,
             Some (w, pub_failed e errors) = Some (w', r) ->
             equipment_types w' = equipment_types w
             /\ publishing_control w' = publishing_control w
             /\ other_rows node_id w' = other_rows node_id w
             /\ (pub_success r = false ->
                 decision_nodes w' = decision_nodes w /\ pub_error r <> None)
             /\ (pub_success r = true ->
                 exists n status_code id text call,
                   cms = CmsReplied status_code id text
                   /\ (status_code = 200 \/ status_code = 201 \/ status_code = 202)%Z
                   /\ single_node node_id w = Some n
                   /\ publish_errors n = []
                   /\ single_node node_id w'
                      = Some (Node.set_status (Some "published")
                                (Node.set_webflow_status (Some "published")
                                   (Node.set_webflow_item_id (pub_item_id r) n)))
                   /\ circuit_breaker w'
                      = CircuitBreaker.record_success (circuit_breaker w)
                   /\ cms_calls w' = (cms_calls w ++ [call])%list)).
  { intros e errors E. injection E as <- <-.
    repeat split; try reflexivity; discriminate. }
  destruct (negb (Text.truthy token) || negb (Text.truthy collection));
    [now apply (Hstay _ _ H)|].
  destruct (negb (check_kill_switch w)); [now apply (Hstay _ _ H)|].
  destruct (negb (CircuitBreaker.can_proceed (circuit_breaker w)));
    [now apply (Hstay _ _ H)|].
  destruct (single_node node_id w) as [n|] eqn:En; [|now apply (Hstay _ _ H)].
  destruct (publish_errors n) eqn:Ev; [|now apply (Hstay _ _ H)].
  clear Hstay.
  destruct (negb (ready n)); [discriminate|].
  destruct cms as [|code id text].
  { injection H as <- <-. repeat split; try reflexivity; discriminate. }
  destruct ((code =? 200)%Z || (code =? 201)%Z || (code =? 202)%Z) eqn:Ec.
  - injection H as <- <-. cbn [pub_success pub_item_id].
    split; [reflexivity|]. split; [reflexivity|].
    split; [now apply filter_others_map|].
    split; [discriminate|]. intros _.
    exists n, code, id, text. eexists.
    split; [reflexivity|]. split.
    { apply orb_true_iff in Ec as [Ec|Ec]; [apply orb_true_iff in Ec as [Ec|Ec]|];
        apply Z.eqb_eq in Ec; tauto. }
    split; [reflexivity|]. split; [exact Ev|].
    split; [|split; reflexivity].
    apply (single_node_update node_id _ n
             (fun m => Node.set_status (Some "published")
                         (Node.set_webflow_status (Some "published")
                            (Node.set_webflow_item_id
                               (or_else id (Node.webflow_item_id n)) m))));
      [reflexivity|exact En].
  - injection H as <- <-. repeat split; try reflexivity; discriminate.
Qed.

(** X10.  The first accepted publish of a row without item id is a create
    request, and it stamps the row with the id the CMS returned; every
    later publish of the row is an update request for that id, and the row
    never loses an item id again, whatever the CMS answers. *)
Theorem publish_create_then_update :
  forall w node_id n code item text cms2,
    Text.truthy token = true -> Text.truthy collection = true ->
    check_kill_switch w = true ->
    CircuitBreaker.can_proceed (circuit_breaker w) = true ->
    single_node node_id w = Some n ->
    publish_errors n = [] ->
    (forall m, ready m = true) ->
    opt_truthy (Node.webflow_item_id n) = false ->
    (code = 200 \/ code = 201 \/ code = 202)%Z ->
    Text.truthy item = true ->
    exists w1 r1 w2 r2 n2,
      publish w node_id (CmsReplied code (Some item) text) = Some (w1, r1)
      /\ pub_success r1 = true
      /\ pub_item_id r1 = Some item
      /\ cms_calls w1 = (cms_calls w ++ [CmsCreate node_id])%list
      /\ publish w1 node_id cms2 = Some (w2, r2)
      /\ cms_calls w2
         = (cms_calls w ++ [CmsCreate node_id; CmsUpdate item node_id])%list
      /\ single_node node_id w2 = Some n2
      /\ opt_truthy (Node.webflow_item_id n2) = true.
Proof.
  intros w node_id n code item text cms2 Ht Hc Hk Hb Hn Hv Hready Hnew Hcode Hitem.
  set (n1 := Node.set_status (Some "published")
               (Node.set_webflow_status (Some "published")
                  (Node.set_webflow_item_id (Some item) n))).
  set (w1 := with_circuit_breaker
               (CircuitBreaker.record_success (circuit_breaker w))
               (update_node node_id
                  (fun m => Node.set_status (Some "published")
                              (Node.set_webflow_status (Some "published")
                                 (Node.set_webflow_item_id (Some item) m)))
                  (with_cms_calls (cms_calls w ++ [CmsCreate node_id])%list w))).
  assert (Hcodeb : ((code =? 200)%Z || (code =? 201)%Z || (code =? 202)%Z) = true).
  { destruct Hcode as [ -> | [ -> | -> ] ]; reflexivity. }
  assert (H1 : publish w node_id (CmsReplied code (Some item) text)
               = Some (w1, {| pub_success := true; pub_error := None;
                              pub_validation_errors := [];
                              pub_item_id := Some item;
                              pub_url := Some (site ++ "/equipment/"
                                               ++ fstr (Node.url_slug n) ++ "/") |})).
  { unfold publish, publish_to_webflow.
    rewrite Ht, Hc, Hk, Hb, Hn, Hv, Hready, Hcodeb. cbn [negb orb].
    unfold or_else. cbn [opt_truthy]. rewrite Hitem.
    assert (Hcall : match Node.webflow_item_id n with
                    | Some item0 => if Text.truthy item0 then CmsUpdate item0 node_id
                                    else CmsCreate node_id
                    | None => CmsCreate node_id
                    end = CmsCreate node_id).
    { destruct (Node.webflow_item_id n) as [i|]; [|reflexivity].
      cbn [opt_truthy] in Hnew. now rewrite Hnew. }
    rewrite Hcall. reflexivity. }
  assert (Hn1 : single_node node_id w1 = Some n1).
  { apply (single_node_update node_id
             (with_cms_calls (cms_calls w ++ [CmsCreate node_id])%list w) n
             (fun m => Node.set_status (Some "published")
                         (Node.set_webflow_status (Some "published")
                            (Node.set_webflow_item_id (Some item) m))));
      [reflexivity|exact Hn]. }
  assert (Hshape : exists w2 r2 n2,
             publish w1 node_id cms2 = Some (w2, r2)
             /\ cms_calls w2
                = (cms_calls w ++ [CmsCreate node_id; CmsUpdate item node_id])%list
             /\ single_node node_id w2 = Some n2
             /\ opt_truthy (Node.webflow_item_id n2) = true).
  { unfold publish, publish_to_webflow.
    rewrite Ht, Hc. cbn [negb orb].
    change (check_kill_switch w1) with (check_kill_switch w). rewrite Hk.
    cbn [negb]. rewrite Hn1, Hready. cbn [negb].
    change (publish_errors n1) with (publish_errors n). rewrite Hv.
    change (Node.webflow_item_id n1) with (Some item). cbv beta iota zeta.
    rewrite Hitem.
    change (cms_calls w1) with (cms_calls w ++ [CmsCreate node_id])%list.
    rewrite <- app_assoc. cbn [app].
    set (w1' := with_cms_calls _ w1).
    assert (Hn1' : single_node node_id w1' = Some n1) by exact Hn1.
    destruct cms2 as [|code2 id2 text2].
    - do 2 eexists. exists n1. split; [reflexivity|]. split; [reflexivity|].
      split; [exact Hn1'|]. cbn [opt_truthy]. exact Hitem.
    - destruct ((code2 =? 200)%Z || (code2 =? 201)%Z || (code2 =? 202)%Z).
      + do 3 eexists. split; [reflexivity|]. split; [reflexivity|]. split.
        * apply (single_node_update node_id w1' n1
                   (fun m => Node.set_status (Some "published")
                               (Node.set_webflow_status (Some "published")
                                  (Node.set_webflow_item_id
                                     (or_else id2 (Some item)) m))));
            [reflexivity|exact Hn1'].
        * cbn. unfold or_else.
          destruct (opt_truthy id2) eqn:E; [exact E|exact Hitem].
      + do 2 eexists. exists n1. split; [reflexivity|]. split; [reflexivity|].
        split; [exact Hn1'|]. exact Hitem. }
  destruct Hshape as (w2 & r2 & n2 & H2 & Hcalls & Hn2 & Hid).
  exists w1. eexists. exists w2, r2, n2.
  split; [exact H1|]. repeat split; try assumption.
Qed.

End PublishRuns.

(** ** Generation followed by publishing *)

Section Pipeline.

Variables token collection site today : string.
Variable ready : Node.t -> bool.

Let generate := generate_content_for_node site today.
Let publish := publish_to_webflow token collection site ready.

(** X11.  [publish_to_webflow] does not read the verdict of the quality
    gate.  When a run of [generate_content_for_node] succeeds with a failed
    gate (the row now has status [blocked_quality] and gate status
    [blocked]) on a row that has its hero image and either had content or
    is generated for the first time, the publish call that the pipeline
    makes next passes the validation, sends the page to the CMS and, on a
    200, 201 or 202, gives the row the status [published]; the gate status
    stays [blocked]. *)
Theorem blocked_page_is_published :
  forall w node_id env n code id text,
    single_node node_id w = Some n ->
    success (snd (generate w node_id env)) = true ->
    gate_passed (snd (generate w node_id env)) = Some false ->
    opt_truthy (Node.hero_image_url n) = true ->
    Node.word_count n = None \/ opt_json_truthy (Node.generated_content n) = true ->
    Text.truthy token = true -> Text.truthy collection = true ->
    check_kill_switch w = true ->
    CircuitBreaker.can_proceed (circuit_breaker w) = true ->
    (forall m, ready m = true) ->
    (code = 200 \/ code = 201 \/ code = 202)%Z ->
    exists n1 w2 r n2,
      single_node node_id (fst (generate w node_id env)) = Some n1
      /\ Node.status n1 = Some "blocked_quality"
      /\ publish (fst (generate w node_id env)) node_id (CmsReplied code id text)
         = Some (w2, r)
      /\ pub_success r = true
      /\ single_node node_id w2 = Some n2
      /\ Node.status n2 = Some "published"
      /\ Node.publish_gate_status n2 = Some "blocked".
Proof.
  intros w node_id env n code id text Hn Hs Hgate Hhero Hcontent
    Ht Hc Hk Hb Hready Hcode.
  destruct (generate_success_shape site today w node_id env Hs)
    as (n' & d & n0 & Hn' & Hn1 & Hg & _ & Herrs & Chero & _ & Ckeep & Cfirst
        & Hpc & Hcb).
  fold generate in Hn1, Hg, Hpc, Hcb.
  rewrite Hn in Hn'. injection Hn' as <-.
  rewrite Hgate in Hg. injection Hg as Hg.
  set (n1 := update_other_fields d (env_sources env) n0) in *.
  set (w1 := fst (generate w node_id env)) in *.
  assert (Hv : publish_errors n1 = []).
  { rewrite Herrs, Chero, Hhero.
    assert (Hc0 : opt_json_truthy (Node.generated_content n0) = true).
    { destruct Hcontent as [HW|HC]; [now apply Cfirst|].
      destruct Ckeep as [E|E]; [now rewrite E|exact E]. }
    now rewrite Hc0. }
  assert (Hcodeb : ((code =? 200)%Z || (code =? 201)%Z || (code =? 202)%Z) = true).
  { destruct Hcode as [ -> | [ -> | -> ] ]; reflexivity. }
  assert (Hst1 : Node.status n1 = Some "blocked_quality").
  { subst n1. unfold update_other_fields. cbn. now rewrite <- Hg. }
  assert (Hgs1 : Node.publish_gate_status n1 = Some "blocked").
  { subst n1. unfold update_other_fields. cbn. now rewrite <- Hg. }
  exists n1. do 2 eexists.
  exists (Node.set_status (Some "published")
            (Node.set_webflow_status (Some "published")
               (Node.set_webflow_item_id
                  (or_else id (Node.webflow_item_id n1)) n1))).
  split; [exact Hn1|]. split; [exact Hst1|].
  split.
  { unfold publish, publish_to_webflow.
    rewrite Ht, Hc. cbn [negb orb].
    unfold check_kill_switch. rewrite Hpc. fold (check_kill_switch w). rewrite Hk.
    rewrite Hcb, Hb. cbn [negb]. rewrite Hn1, Hv, Hready, Hcodeb. cbn [negb].
    reflexivity. }
  split; [reflexivity|]. split.
  - apply (single_node_update node_id _ n1
             (fun m => Node.set_status (Some "published")
                         (Node.set_webflow_status (Some "published")
                            (Node.set_webflow_item_id
                               (or_else id (Node.webflow_item_id n1)) m))));
      [reflexivity|exact Hn1].
  - split; [reflexivity|exact Hgs1].
Qed.

End Pipeline.

Lemma blocked_page_is_published_witness :
  exists w2 r n2,
    publish_to_webflow "token" "collection" "https://equipflow.co" (fun _ => true)
      (fst (generate_content_for_node "https://equipflow.co" "2026-01-15"
              illustrated_world 7 short_env))
      7 (CmsReplied 200 (Some "item-1") "ok") = Some (w2, r)
    /\ pub_success r = true
    /\ single_node 7 w2 = Some n2
    /\ Node.status n2 = Some "published"
    /\ Node.publish_gate_status n2 = Some "blocked".
Proof.
  assert (Hs : success (snd (generate_content_for_node "https://equipflow.co"
                               "2026-01-15" illustrated_world 7 short_env)) = true)
    by (vm_compute; reflexivity).
  assert (Hg : gate_passed (snd (generate_content_for_node "https://equipflow.co"
                                   "2026-01-15" illustrated_world 7 short_env))
               = Some false)
    by (vm_compute; reflexivity).
  destruct (blocked_page_is_published "token" "collection" "https://equipflow.co"
              "2026-01-15" (fun _ => true) illustrated_world 7 short_env
              illustrated_row 200%Z (Some "item-1") "ok"
              eq_refl Hs Hg eq_refl (or_introl eq_refl) eq_refl eq_refl eq_refl
              eq_refl (fun _ => eq_refl) (or_introl eq_refl))
    as (n1 & w2 & r & n2 & _ & _ & Hp & Hok & Hn2 & Hst & Hgs).
  exists w2, r, n2. repeat split; assumption.
Defined.


Lemma generate_success_row_witness :
  exists n',
    single_node 7
      (fst (generate_content_for_node "https://equipflow.co" "2026-01-15"
              sample_world 7 (sample_env 810 4))) = Some n'
    /\ opt_json_truthy (Node.short_description n') = true
    /\ Node.has_schema_markup n' = Some true.
Proof.
  assert (Hs : success (snd (generate_content_for_node "https://equipflow.co"
                               "2026-01-15" sample_world 7 (sample_env 810 4)))
               = true)
    by (vm_compute; reflexivity).
  destruct (generate_success_row "https://equipflow.co" "2026-01-15"
              sample_world 7 (sample_env 810 4) Hs)
    as (n & n' & _ & Hn' & Hsd & Hschema & _).
  exists n'. repeat split; assumption.
Defined.

Lemma stored_word_count_below_gate_witness :
  exists d,
    sample_draft = Some d
    /\ draft_word_count d <= Gate.word_count (draft_gate d).
Proof.
  destruct sample_draft as [d|] eqn:E; [|vm_compute in E; discriminate].
  exists d. split; [reflexivity|].
  exact (stored_word_count_below_gate _ _ _ _ _ _ d E).
Defined.

Lemma publish_writes_only_on_acceptance_witness :
  exists w' r,
    publish_to_webflow "token" "collection" "https://equipflow.co" (fun _ => true)
      (world_of [complete_row]) 7 (CmsReplied 500 None "down") = Some (w', r)
    /\ decision_nodes w' = [complete_row].
Proof.
  destruct (publish_to_webflow "token" "collection" "https://equipflow.co"
              (fun _ => true) (world_of [complete_row]) 7
              (CmsReplied 500 None "down")) as [[w' r]|] eqn:E;
    [|vm_compute in E; discriminate].
  exists w', r. split; [reflexivity|].
  destruct (publish_writes_only_on_acceptance _ _ _ _ _ _ _ _ _ E)
    as (_ & _ & _ & Hfail & _).
  apply Hfail. vm_compute in E. injection E as _ <-. reflexivity.
Defined.

Lemma publish_create_then_update_witness :
  exists w1 r1 w2 r2,
    publish_to_webflow "token" "collection" "https://equipflow.co" (fun _ => true)
      (world_of [complete_row]) 7 (CmsReplied 200 (Some "item-1") "ok")
    = Some (w1, r1)
    /\ publish_to_webflow "token" "collection" "https://equipflow.co" (fun _ => true)
         w1 7 (CmsReplied 200 None "ok") = Some (w2, r2)
    /\ cms_calls w2 = [CmsCreate 7; CmsUpdate "item-1" 7].
Proof.
  destruct (publish_create_then_update "token" "collection" "https://equipflow.co"
              (fun _ => true) (world_of [complete_row]) 7 complete_row
              200%Z "item-1" "ok" (CmsReplied 200 None "ok")
              eq_refl eq_refl eq_refl eq_refl eq_refl eq_refl (fun _ => eq_refl)
              eq_refl (or_introl eq_refl) eq_refl)
    as (w1 & r1 & w2 & r2 & n2 & H1 & _ & _ & _ & H2 & Hcalls & _).
  exists w1, r1, w2, r2. repeat split; assumption.
Defined.

(** ** Link injection: bounds and frame of a run *)

Lemma set_keys k v : forall d,
  Dict.get k d <> None -> map fst (Dict.set k v d) = map fst d.
Proof.
  induction d as [|[k' v'] d IH]; cbn; [intros H; now destruct H|].
  destruct (String.eqb_spec k k') as [->|Hne]; [reflexivity|].
  intros H. cbn. now rewrite IH.
Qed.

(** The loop over the fields keeps the keys, leaves every value that is
    not a string in a listed field alone, and logs every listed field that
    holds a string, once. *)
Lemma inject_fields_frame links : forall fields content li log content' li' log',
  NoDup fields ->
  inject_fields fields links content li log = Some (content', li', log') ->
  map fst content' = map fst content
  /\ (forall k, ~ In k fields \/ is_text (Dict.get k content) = false ->
                Dict.get k content' = Dict.get k content)
  /\ (forall k, is_text (Dict.get k content') = is_text (Dict.get k content))
  /\ map fst log'
     = (map fst log
        ++ filter (fun f => is_text (Dict.get f content)) fields)%list.
Proof.
  induction fields as [|field fields IH];
    intros content li log content' li' log' Hnd H; cbn [inject_fields] in H.
  - injection H as <- <- <-. cbn. now rewrite app_nil_r.
  - inversion Hnd as [|? ? Hfresh Hnd']; subst.
    assert (Hskip : is_text (Dict.get field content) = false ->
              inject_fields fields links content li log = Some (content', li', log') ->
              map fst content' = map fst content
              /\ (forall k, ~ In k (field :: fields)
                            \/ is_text (Dict.get k content) = false ->
                            Dict.get k content' = Dict.get k content)
              /\ (forall k, is_text (Dict.get k content')
                            = is_text (Dict.get k content))
              /\ map fst log'
                 = (map fst log
                    ++ filter (fun f => is_text (Dict.get f content))
                         (field :: fields))%list).
    { intros Hnot H'. apply IH in H' as (K & F & T & L); [|exact Hnd'].
      split; [exact K|]. split; [|split; [exact T|]].
      - intros k [Hk|Hk]; apply F; [left|now right].
        intros Hin; apply Hk; now right.
      - cbn [filter]. now rewrite Hnot. }
    destruct (Dict.get field content) as [[| | |fc| |]|] eqn:Ef;
      try (exact (Hskip eq_refl H)).
    clear Hskip.
    destruct (inject_field links fc 0 li) as [[[fc' fl] li1]|]; [|discriminate].
    cbn [bind] in H.
    apply IH in H as (K & F & T & L); [|exact Hnd'].
    assert (Hget : forall k, k <> field ->
                     Dict.get k (Dict.set field (JStr fc') content) = Dict.get k content).
    { intros k Hne. now apply get_set_other. }
    split; [|split; [|split]].
    + rewrite K. apply set_keys. rewrite Ef. discriminate.
    + intros k Hk.
      assert (Hne : k <> field).
      { intros ->. destruct Hk as [Hk|Hk]; [apply Hk; now left|].
        rewrite Ef in Hk. discriminate. }
      rewrite <- (Hget k Hne). apply F.
      destruct Hk as [Hk|Hk]; [left|right; now rewrite Hget].
      intros Hin; apply Hk; now right.
    + intros k. rewrite T. destruct (String.eqb_spec k field) as [->|Hne].
      * now rewrite get_set_same, Ef.
      * now rewrite Hget.
    + rewrite L, map_app. cbn [filter]. rewrite Ef. cbn [is_text map fst].
      rewrite <- app_assoc. cbn [app]. f_equal. f_equal.
      apply filter_ext_in. intros f Hin.
      rewrite Hget; [reflexivity|]. intros ->. now apply Hfresh.
Qed.

(** X16.  A run of [inject_links_into_content] that returns rewrites the
    string values of [main_content], [intro], [features] and
    [how_it_works] and nothing else: the keys and their order are kept,
    every other key keeps its value, and so does a listed key whose value
    is not a string. *)
Theorem inject_links_frame :
  forall content links content',
    inject_links_into_content content links = Some content' ->
    map fst content' = map fst content
    /\ (forall k, ~ In k linkable_fields -> Dict.get k content' = Dict.get k content)
    /\ (forall k, is_text (Dict.get k content) = false ->
                  Dict.get k content' = Dict.get k content).
Proof.
  intros content links content' H. unfold inject_links_into_content in H.
  destruct links as [|link links]; [injection H as <-; auto|].
  destruct content as [|kv content]; [injection H as <-; auto|].
  destruct (inject_fields linkable_fields (link :: links) (kv :: content) 0 [])
    as [[[c1 total] log]|] eqn:E; [|discriminate]. cbn [bind] in H.
  apply inject_fields_frame in E as (K & F & T & _);
    [|exact linkable_fields_distinct].
  destruct (Dict.get "main_content" c1) as [[| | |main| |]|] eqn:Em;
    try discriminate; injection H as <-.
  - split; [|split].
    + rewrite <- K. apply set_keys. rewrite Em. discriminate.
    + intros k Hk. rewrite get_set_other; [apply F; now left|].
      intros ->. apply Hk. now left.
    + intros k Hk. rewrite get_set_other; [apply F; now right|].
      intros ->. specialize (T "main_content"). rewrite Em, Hk in T. discriminate.
  - split; [exact K|]. split; intros k Hk; apply F; [now left|now right].
Qed.

Lemma inject_links_frame_witness :
  exists content',
    inject_links_into_content
      [ ("seo_title", JStr "Excavator financing");
        ("intro", JStr "We compare excavator financing offers");
        ("faq", JArr []) ]
      [ link_to "/equipment/excavator/" "Excavator" ] = Some content'
    /\ map fst content' = [ "seo_title"; "intro"; "faq" ]
    /\ Dict.get "seo_title" content' = Some (JStr "Excavator financing").
Proof.
  destruct (inject_links_into_content
              [ ("seo_title", JStr "Excavator financing");
                ("intro", JStr "We compare excavator financing offers");
                ("faq", JArr []) ]
              [ link_to "/equipment/excavator/" "Excavator" ])
    as [content'|] eqn:E; [|vm_compute in E; discriminate].
  exists content'. split; [reflexivity|].
  destruct (inject_links_frame _ _ _ E) as (K & F & _).
  split; [exact K|]. apply F. vm_compute. intuition discriminate.
Defined.

(** X17.  The caps of a run of [inject_links_into_content] with at least
    one link: every listed field that holds a string gets a number of new
    anchors, each put around one occurrence of an anchor text, that is at
    most 2, the numbers of all fields add up to at most 5, and the field
    ends with the text so rewritten, followed for [main_content] by the
    related block.  (An anchor may be put inside an anchor written
    earlier in the run; the caps count every anchor written.) *)
Theorem inject_links_caps :
  forall content links content',
    links <> [] ->
    inject_links_into_content content links = Some content' ->
    exists log : list (string * nat),
      fold_right Nat.add 0 (map snd log) <= 5
      /\ map fst log
         = filter (fun f => is_text (Dict.get f content)) linkable_fields
      /\ forall k n,
           In (k, n) log ->
           n <= 2
           /\ exists t body,
                Dict.get k content = Some (JStr t)
                /\ wraps n t body
                /\ Dict.get k content'
                   = Some (JStr (body ++ appended_block k links)).
Proof.
  intros content links content' Hlinks H. unfold inject_links_into_content in H.
  destruct links as [|link links]; [now destruct Hlinks|].
  destruct content as [|kv content].
  { injection H as <-. exists []. cbn. split; [lia|]. split; [reflexivity|].
    intros k n []. }
  destruct (inject_fields linkable_fields (link :: links) (kv :: content) 0 [])
    as [[[c1 total] log]|] eqn:E; [|discriminate]. cbn [bind] in H.
  pose proof (inject_links_bounds _ _ _ _ _ E) as (Hfive & Hsum & Hall & Hlog).
  pose proof (inject_fields_frame _ _ _ _ _ _ _ _ linkable_fields_distinct E)
    as (_ & _ & _ & Hkeys).
  cbn [map app] in Hkeys.
  exists log. split; [now rewrite <- Hsum|]. split; [exact Hkeys|].
  intros k n Hin.
  split; [now apply (proj1 (Forall_forall _ log) Hall (k, n) Hin)|].
  destruct (Hlog k n Hin) as (t & t' & Ht & Ht' & Hw).
  exists t, t'. split; [exact Ht|]. split; [exact Hw|].
  unfold appended_block.
  destruct (String.eqb_spec k "main_content") as [->|Hne].
  - rewrite Ht' in H. injection H as <-. apply get_set_same.
  - assert (Hsame : Dict.get k content' = Dict.get k c1).
    { destruct (Dict.get "main_content" c1) as [[| | |main| |]|];
        try discriminate; injection H as <-; [|reflexivity].
      now apply get_set_other. }
    rewrite Hsame, Ht'. f_equal. f_equal.
    clear. induction t' as [|c r IH]; cbn; [reflexivity|now rewrite <- IH].
Qed.

Lemma inject_links_caps_witness :
  exists content' log,
    inject_links_into_content
      [ ("intro", JStr "We compare excavator financing offers") ]
      [ link_to "/equipment/financing-guide/" "excavator financing";
        link_to "/equipment/excavator/" "Excavator" ] = Some content'
    /\ map fst log = [ "intro" ]
    /\ fold_right Nat.add 0 (map snd log) <= 5.
Proof.
  destruct (inject_links_into_content
              [ ("intro", JStr "We compare excavator financing offers") ]
              [ link_to "/equipment/financing-guide/" "excavator financing";
                link_to "/equipment/excavator/" "Excavator" ])
    as [content'|] eqn:E; [|vm_compute in E; discriminate].
  assert (Hlinks : [ link_to "/equipment/financing-guide/" "excavator financing";
                     link_to "/equipment/excavator/" "Excavator" ] <> [])
    by discriminate.
  destruct (inject_links_caps _ _ _ Hlinks E) as (log & Hfive & Hkeys & _).
  exists content', log. split; [reflexivity|]. split; [exact Hkeys|exact Hfive].
Defined.

(** ** Internal links of a page *)

Lemma in_firstn {A : Type} (x : A) : forall n l, In x (firstn n l) -> In x l.
Proof.
  induction n as [|n IH]; intros [|a l] H; cbn in *; try contradiction.
  destruct H as [H|H]; [now left|right; now apply IH].
Qed.





(** The pieces of a run that returns. *)
Lemma generate_internal_links_inv w node_id w' links :
  generate_internal_links w node_id = Some (w', links) ->
  exists n et parent content,
    single_node node_id w = Some n
    /\ Node.equipment_type_id n = Some et
    /\ parent_hub_links w n = Some parent
    /\ links
       = (parent
          ++ (if opt_eqb String.eqb (Node.page_category n) "spoke"
              then map (link_of "sibling") (sibling_rows w node_id et) else [])
          ++ (if opt_eqb String.eqb (Node.page_category n) "hub"
              then map (link_of "child_spoke") (child_rows w node_id) else [])
          ++ map (link_of "related") (related_rows w et))%list
    /\ relinked_content (Node.generated_content n) links = Some content
    /\ w' = update_node node_id (Node.set_generated_content content) w.
Proof.
  unfold generate_internal_links. intros H.
  destruct (single_node node_id w) as [n|] eqn:En; [|discriminate].
  cbn [bind] in H.
  destruct (Node.equipment_type_id n) as [et|] eqn:Et; [|discriminate].
  cbn [bind] in H.
  destruct (parent_hub_links w n) as [parent|] eqn:Ep; [|discriminate].
  cbn [bind] in H.
  match type of H with
  | bind (relinked_content _ ?l) _ = _ =>
      destruct (relinked_content (Node.generated_content n) l) as [content|] eqn:Ec;
        [|discriminate]
  end.
  cbn [bind] in H. injection H as <- <-.
  exists n, et, parent, content.
  split; [reflexivity|]. split; [exact Et|]. split; [exact Ep|].
  split; [reflexivity|]. split; [exact Ec|reflexivity].
Qed.



Lemma single_node_update_any h node_id f w :
  (forall m, Node.id (f m) = Node.id m) ->
  single_node h (update_node node_id f w)
  = option_map (fun m => if Nat.eqb (Node.id m) node_id then f m else m)
      (single_node h w).
Proof.
  intros Hid. unfold single_node, update_node.
  cbn [decision_nodes with_decision_nodes].
  rewrite filter_map_same.
  - destruct (filter _ (decision_nodes w)) as [|x [|y r]]; reflexivity.
  - intros m. destruct (Node.id m =? node_id); [now rewrite Hid|reflexivity].
Qed.

Lemma firstn_map {A B : Type} (g : A -> B) : forall n l,
  firstn n (map g l) = map g (firstn n l).
Proof.
  induction n as [|n IH]; intros [|a l]; cbn; try reflexivity. now rewrite IH.
Qed.

(** Rewriting the content of a row changes none of the links that are
    computed from the registry. *)
Lemma links_ignore_content w node_id content :
  let g := fun m => if Nat.eqb (Node.id m) node_id
                    then Node.set_generated_content content m else m in
  let w' := update_node node_id (Node.set_generated_content content) w in
  (forall n, parent_hub_links w' (g n) = parent_hub_links w n)
  /\ (forall t et, map (link_of t) (sibling_rows w' node_id et)
                   = map (link_of t) (sibling_rows w node_id et))
  /\ (forall t, map (link_of t) (child_rows w' node_id)
                = map (link_of t) (child_rows w node_id))
  /\ (forall t et, map (link_of t) (related_rows w' et)
                   = map (link_of t) (related_rows w et)).
Proof.
  intros g w'.
  assert (Hg : forall t m, link_of t (g m) = link_of t m).
  { intros t m. unfold g. now destruct (Node.id m =? node_id). }
  assert (Hrows : decision_nodes w' = map g (decision_nodes w)) by reflexivity.
  assert (Hblind : forall p : Node.t -> bool,
             (forall c m, p (Node.set_generated_content c m) = p m) ->
             forall m, p (g m) = p m).
  { intros p Hp m. unfold g. destruct (Node.id m =? node_id); [apply Hp|reflexivity]. }
  assert (Hmap : forall t p,
             (forall c m, p (Node.set_generated_content c m) = p m) ->
             map (link_of t) (filter p (map g (decision_nodes w)))
             = map (link_of t) (filter p (decision_nodes w))).
  { intros t p Hp. rewrite filter_map_same by (now apply Hblind).
    rewrite map_map. apply map_ext. intros m. apply Hg. }
  split; [|split; [|split]].
  - intros n. unfold parent_hub_links.
    assert (Hc : Node.page_category (g n) = Node.page_category n)
      by (unfold g; now destruct (Node.id n =? node_id)).
    assert (Hp : Node.parent_hub_id (g n) = Node.parent_hub_id n)
      by (unfold g; now destruct (Node.id n =? node_id)).
    rewrite Hc, Hp.
    destruct (opt_eqb String.eqb (Node.page_category n) "spoke"); [|reflexivity].
    destruct (Node.parent_hub_id n) as [h|]; [|reflexivity].
    unfold w'. rewrite single_node_update_any by reflexivity.
    destruct (single_node h w) as [hub|]; [|reflexivity].
    cbn [option_map bind]. fold (g hub). now rewrite Hg.
  - intros t et. unfold sibling_rows. rewrite Hrows. apply Hmap. reflexivity.
  - intros t. unfold child_rows. rewrite Hrows. apply Hmap. reflexivity.
  - intros t et. unfold related_rows. rewrite Hrows.
    rewrite filter_map_same
      by (exact (Hblind (fun m => opt_eqb String.eqb (Node.page_category m) "hub"
                                  && match Node.equipment_type_id m with
                                     | Some e => negb (Nat.eqb e et)
                                     | None => false
                                     end)
                   (fun c m => eq_refl))).
    rewrite firstn_map, map_map. apply map_ext. intros m. apply Hg.
Qed.

(** X19.  Every run of [generate_internal_links] that finds at least one
    link for a page whose stored [main_content] is a string makes that
    string longer by the related block at least; the links it computes do
    not depend on the content, so a later run (the maintenance cycle
    relinks the published pages every time) finds the same links and
    appends the same block once more. *)
Theorem relinking_appends_block_again :
  forall w node_id w1 links n d main,
    generate_internal_links w node_id = Some (w1, links) ->
    links <> [] ->
    single_node node_id w = Some n ->
    Node.generated_content n = Some (JObj d) ->
    Dict.get "main_content" d = Some (JStr main) ->
    exists n1 d1 main1,
      single_node node_id w1 = Some n1
      /\ Node.generated_content n1 = Some (JObj d1)
      /\ Dict.get "main_content" d1 = Some (JStr main1)
      /\ String.length main + 2
         + String.length (generate_related_links_html links)
         <= String.length main1
      /\ forall w2 links2,
           generate_internal_links w1 node_id = Some (w2, links2) ->
           links2 = links
           /\ exists n2 d2 main2,
                single_node node_id w2 = Some n2
                /\ Node.generated_content n2 = Some (JObj d2)
                /\ Dict.get "main_content" d2 = Some (JStr main2)
                /\ String.length main1 + 2
                   + String.length (generate_related_links_html links)
                   <= String.length main2.
Proof.
  assert (Hrun : forall w node_id w1 links n d main,
             generate_internal_links w node_id = Some (w1, links) ->
             links <> [] ->
             single_node node_id w = Some n ->
             Node.generated_content n = Some (JObj d) ->
             Dict.get "main_content" d = Some (JStr main) ->
             exists d1 main1,
               w1 = update_node node_id
                      (Node.set_generated_content (Some (JObj d1))) w
               /\ single_node node_id w1
                  = Some (Node.set_generated_content (Some (JObj d1)) n)
               /\ Dict.get "main_content" d1 = Some (JStr main1)
               /\ String.length main + 2
                  + String.length (generate_related_links_html links)
                  <= String.length main1).
  { intros w node_id w1 links n d main H Hlinks Hn Hc Hm.
    destruct (generate_internal_links_inv _ _ _ _ H)
      as (n' & et & parent & content & Hn' & _ & _ & _ & Hre & Hw).
    rewrite Hn in Hn'. injection Hn' as <-.
    rewrite Hc in Hre. cbn [relinked_content] in Hre.
    destruct d as [|kv d]; [discriminate Hm|].
    destruct links as [|link links]; [now destruct Hlinks|].
    destruct (inject_links_into_content (kv :: d) (link :: links))
      as [d1|] eqn:Ei; [|discriminate]. cbn [bind] in Hre.
    injection Hre as <-.
    destruct (inject_links_main_content _ _ _ _ Hlinks Hm Ei)
      as (body & k & _ & Hwraps & Hget).
    exists d1, (body ++ nl ++ nl ++ generate_related_links_html (link :: links)).
    split; [exact Hw|]. split.
    { rewrite Hw. apply single_node_update; [reflexivity|exact Hn]. }
    split; [exact Hget|].
    apply wraps_length in Hwraps. rewrite !length_append.
    change (String.length nl) with 1. lia. }
  intros w node_id w1 links n d main H Hlinks Hn Hc Hm.
  destruct (Hrun _ _ _ _ _ _ _ H Hlinks Hn Hc Hm)
    as (d1 & main1 & Hw1 & Hn1 & Hm1 & Hlen1).
  exists (Node.set_generated_content (Some (JObj d1)) n), d1, main1.
  split; [exact Hn1|]. split; [reflexivity|]. split; [exact Hm1|].
  split; [exact Hlen1|].
  intros w2 links2 H2.
  assert (Hsame : links2 = links).
  { destruct (generate_internal_links_inv _ _ _ _ H)
      as (n' & et & parent & content & Hn' & Het & Hp & Hl & _ & _).
    rewrite Hn in Hn'. injection Hn' as <-.
    destruct (generate_internal_links_inv _ _ _ _ H2)
      as (n2 & et2 & parent2 & content2 & Hn2 & Het2 & Hp2 & Hl2 & _ & _).
    rewrite Hn1 in Hn2. injection Hn2 as <-.
    change (Node.equipment_type_id
              (Node.set_generated_content (Some (JObj d1)) n))
      with (Node.equipment_type_id n) in Het2.
    rewrite Het in Het2. injection Het2 as <-.
    destruct (links_ignore_content w node_id (Some (JObj d1)))
      as (Lp & Ls & Lc & Lr).
    rewrite <- Hw1 in Lp, Ls, Lc, Lr.
    assert (Hpar : parent2 = parent).
    { specialize (Lp n). rewrite (single_node_id _ _ _ Hn), Nat.eqb_refl in Lp.
      rewrite Lp, Hp in Hp2. now injection Hp2. }
    rewrite Hl2, Hl, Hpar, Ls, Lc, Lr. reflexivity. }
  split; [exact Hsame|]. subst links2.
  destruct (Hrun _ _ _ _ _ _ _ H2 Hlinks Hn1 eq_refl Hm1)
    as (d2 & main2 & _ & Hn2 & Hm2 & Hlen2).
  exists (Node.set_generated_content (Some (JObj d2))
            (Node.set_generated_content (Some (JObj d1)) n)), d2, main2.
  repeat split; assumption.
Qed.

Lemma relinking_appends_block_again_witness :
  exists w1 links n1 d1 main1,
    generate_internal_links linked_world 2 = Some (w1, links)
    /\ single_node 2 w1 = Some n1
    /\ Node.generated_content n1 = Some (JObj d1)
    /\ Dict.get "main_content" d1 = Some (JStr main1)
    /\ String.length "Compare excavator rental offers" + 2
       + String.length (generate_related_links_html links)
       <= String.length main1.
Proof.
  destruct (generate_internal_links linked_world 2) as [[w1 links]|] eqn:E;
    [|vm_compute in E; discriminate].
  assert (Hlinks : links <> []).
  { vm_compute in E. injection E as _ <-. discriminate. }
  destruct (relinking_appends_block_again linked_world 2 w1 links _
              [("main_content", JStr "Compare excavator rental offers")]
              "Compare excavator rental offers" E Hlinks eq_refl eq_refl eq_refl)
    as (n1 & d1 & main1 & Hn1 & Hc1 & Hm1 & Hlen & _).
  exists w1, links, n1, d1, main1. repeat split; assumption.
Defined.

(** ** Keyword discovery *)

Lemma lower_char_idempotent c : Text.lower_char (Text.lower_char c) = Text.lower_char c.
Proof. destruct c as [[] [] [] [] [] [] [] []]; reflexivity. Qed.

Lemma lower_idempotent s : Text.lower (Text.lower s) = Text.lower s.
Proof.
  induction s as [|c s IH]; cbn; [reflexivity|].
  now rewrite lower_char_idempotent, IH.
Qed.

Lemma lsi_candidates_distinct : NoDup lsi_candidates.
Proof.
  unfold lsi_candidates.
  repeat (constructor;
          [cbn [In]; intros H;
           repeat (destruct H as [H|H]; [discriminate H|]); exact H|]).
  constructor.
Qed.

(** X20.  [extract_lsi_keywords] returns at most 10 terms, without
    repetition and in the order of its vocabulary; each of them is one of
    the 27 terms of the vocabulary, occurs in the scraped text whatever
    the case of its letters there, and is not part of the primary keyword;
    when no more than 10 terms qualify, every term that qualifies is
    returned; the case of the letters of the two arguments does not
    matter. *)
Theorem extract_lsi_keywords_sound :
  forall content keyword : string,
    List.length (extract_lsi_keywords content keyword) <= 10
    /\ NoDup (extract_lsi_keywords content keyword)
    /\ (forall term,
           In term (extract_lsi_keywords content keyword) ->
           In term lsi_candidates
           /\ Text.contains term (Text.lower content) = true
           /\ Text.contains term (Text.lower keyword) = false)
    /\ (forall term,
           List.length
             (filter (fun t => Text.contains t (Text.lower content)
                               && negb (Text.contains t (Text.lower keyword)))
                lsi_candidates) <= 10 ->
           In term lsi_candidates ->
           Text.contains term (Text.lower content) = true ->
           Text.contains term (Text.lower keyword) = false ->
           In term (extract_lsi_keywords content keyword))
    /\ extract_lsi_keywords (Text.lower content) (Text.lower keyword)
       = extract_lsi_keywords content keyword.
Proof.
  intros content keyword. unfold extract_lsi_keywords.
  set (found := filter _ lsi_candidates).
  split; [apply firstn_le_length|]. split; [|split; [|split]].
  - assert (Hnd : NoDup found)
      by (apply NoDup_filter, lsi_candidates_distinct).
    rewrite <- (firstn_skipn 10 found) in Hnd.
    now apply NoDup_app_remove_r in Hnd.
  - intros term Hin. apply in_firstn in Hin. apply filter_In in Hin as [Hin Hf].
    apply andb_true_iff in Hf as [Hc Hk].
    split; [exact Hin|]. split; [exact Hc|].
    now destruct (Text.contains term (Text.lower keyword)).
  - intros term Hlen Hin Hc Hk. fold found in Hlen.
    rewrite firstn_all2 by exact Hlen. apply filter_In. split; [exact Hin|].
    now rewrite Hc, Hk.
  - subst found. now rewrite !lower_idempotent.
Qed.

Lemma extract_lsi_keywords_sound_witness :
  In "credit score"
    (extract_lsi_keywords "A good Credit Score lowers the Interest Rate."
       "excavator financing").
Proof.
  apply (proj1 (proj2 (proj2 (proj2
           (extract_lsi_keywords_sound
              "A good Credit Score lowers the Interest Rate."
              "excavator financing"))))).
  - vm_compute. lia.
  - vm_compute. tauto.
  - vm_compute. reflexivity.
  - vm_compute. reflexivity.
Defined.

(** *** The explorer queue *)

Lemma upsert_in row : forall queue r,
  In r (upsert row queue) -> r = row \/ In r queue.
Proof.
  induction queue as [|x queue IH]; intros r; cbn [upsert].
  - intros [<-|[]]. now left.
  - destruct (String.eqb (q_keyword x) (q_keyword row)).
    + intros [<-|H]; [now left|right; now right].
    + intros [<-|H]; [right; now left|].
      destruct (IH r H) as [->|Hr]; [now left|right; now right].
Qed.

Lemma upsert_has row : forall queue, In row (upsert row queue).
Proof.
  induction queue as [|x queue IH]; cbn [upsert]; [now left|].
  destruct (String.eqb (q_keyword x) (q_keyword row)); [now left|now right].
Qed.

Lemma upsert_keys row : forall queue,
  map q_keyword (upsert row queue)
  = if existsb (fun r => String.eqb (q_keyword r) (q_keyword row)) queue
    then map q_keyword queue
    else (map q_keyword queue ++ [q_keyword row])%list.
Proof.
  induction queue as [|x queue IH]; cbn [upsert existsb map app]; [reflexivity|].
  destruct (String.eqb_spec (q_keyword x) (q_keyword row)) as [E|Hne];
    cbn [orb map].
  - now rewrite E.
  - rewrite IH. now destruct (existsb _ queue).
Qed.

Lemma upsert_distinct row queue :
  NoDup (map q_keyword queue) -> NoDup (map q_keyword (upsert row queue)).
Proof.
  intros Hnd. rewrite upsert_keys.
  destruct (existsb _ queue) eqn:E; [exact Hnd|].
  apply NoDup_app; [exact Hnd|repeat constructor; intros []|].
  intros k Hin [<-|[]].
  apply in_map_iff in Hin as (r & Hk & Hr).
  assert (Hex : existsb (fun r => String.eqb (q_keyword r) (q_keyword row)) queue
                = true).
  { apply existsb_exists. exists r. split; [exact Hr|]. now apply String.eqb_eq. }
  rewrite Hex in E. discriminate.
Qed.

Lemma upsert_length row queue :
  List.length (upsert row queue) <= S (List.length queue).
Proof.
  induction queue as [|x queue IH]; cbn [upsert]; [cbn; lia|].
  destruct (String.eqb (q_keyword x) (q_keyword row)); cbn; lia.
Qed.

Lemma upsert_keeps_keys row queue r :
  In r queue -> exists r', In r' (upsert row queue) /\ q_keyword r' = q_keyword r.
Proof.
  induction queue as [|x queue IH]; [intros []|]. cbn [upsert].
  destruct (String.eqb_spec (q_keyword x) (q_keyword row)) as [E|Hne].
  - intros [<-|Hin]; [exists row; split; [now left|now rewrite E]|].
    exists r. split; [now right|reflexivity].
  - intros [<-|Hin]; [exists x; split; [now left|reflexivity]|].
    destruct (IH Hin) as (r' & Hr' & Hk). exists r'. split; [now right|exact Hk].
Qed.

(** With distinct keywords the row of a keyword is the one just written. *)
Lemma upsert_overwrites row queue r :
  NoDup (map q_keyword queue) ->
  In r (upsert row queue) -> q_keyword r = q_keyword row -> r = row.
Proof.
  induction queue as [|x queue IH]; intros Hnd; cbn [upsert].
  - now intros [<-|[]].
  - inversion Hnd as [|? ? Hfresh Hnd']; subst.
    destruct (String.eqb_spec (q_keyword x) (q_keyword row)) as [E|Hne].
    + intros [<-|Hin] Hk; [reflexivity|]. exfalso. apply Hfresh.
      rewrite E, <- Hk. now apply in_map.
    + intros [<-|Hin] Hk; [now destruct Hne|]. now apply IH.
Qed.

Section ExplorerFacts.

Variable queue_accepts : list QueueRow -> QueueRow -> bool.

Let loop := expand_loop queue_accepts.

Lemma expand_loop_step kw rest source queue count :
  loop (kw :: rest) source queue count
  = if worth_queueing (Text.lower (strip kw)) source
       && queue_accepts queue (discovered_row (Text.lower (strip kw)) source)
    then loop rest source
           (upsert (discovered_row (Text.lower (strip kw)) source) queue)
           (count + 1)
    else loop rest source queue count.
Proof.
  unfold loop, worth_queueing, discovered_row. cbn [expand_loop].
  destruct (String.length (Text.lower (strip kw)) <? 8); [reflexivity|].
  cbn [negb andb].
  destruct (existsb _ territory_terms); [|reflexivity]. cbn [negb andb].
  destruct (String.eqb (Text.lower (strip kw)) (Text.lower source)); [reflexivity|].
  reflexivity.
Qed.

Lemma expand_loop_sound source : forall lsi queue count,
  let r := loop lsi source queue count in
  count <= snd r
  /\ snd r <= count + List.length lsi
  /\ List.length (fst r) + count <= List.length queue + snd r
  /\ (NoDup (map q_keyword queue) -> NoDup (map q_keyword (fst r)))
  /\ (forall row, In row (fst r) ->
        In row queue
        \/ exists kw, In kw lsi
                      /\ worth_queueing (Text.lower (strip kw)) source = true
                      /\ row = discovered_row (Text.lower (strip kw)) source)
  /\ (forall row, In row queue ->
        exists row', In row' (fst r) /\ q_keyword row' = q_keyword row).
Proof.
  induction lsi as [|kw lsi IH]; intros queue count.
  - cbn. repeat split; try lia; auto. intros row Hin. now exists row.
  - cbv zeta. rewrite expand_loop_step.
    destruct (worth_queueing (Text.lower (strip kw)) source) eqn:Ew;
      cbn [andb];
      [destruct (queue_accepts queue _)|].
    + specialize (IH (upsert (discovered_row (Text.lower (strip kw)) source) queue)
                    (count + 1)).
      cbv zeta in IH. destruct IH as (H1 & H2 & H3 & H4 & H5 & H6).
      pose proof (upsert_length (discovered_row (Text.lower (strip kw)) source) queue).
      cbn [List.length]. repeat split; try lia.
      * intros Hnd. apply H4. now apply upsert_distinct.
      * intros row Hin. destruct (H5 row Hin) as [Hq|(kw' & Hk & Hw & Hr)].
        -- apply upsert_in in Hq as [->|Hq]; [right|now left].
           exists kw. repeat split; auto. now left.
        -- right. exists kw'. repeat split; auto. now right.
      * intros row Hin.
        destruct (upsert_keeps_keys (discovered_row (Text.lower (strip kw)) source)
                    queue row Hin) as (r1 & Hr1 & Hk1).
        destruct (H6 r1 Hr1) as (r2 & Hr2 & Hk2). exists r2.
        split; [exact Hr2|congruence].
    + specialize (IH queue count). cbv zeta in IH.
      destruct IH as (H1 & H2 & H3 & H4 & H5 & H6).
      cbn [List.length]. repeat split; try lia; auto.
      intros row Hin. destruct (H5 row Hin) as [Hq|(kw' & Hk & Hw & Hr)];
        [now left|right]. exists kw'. repeat split; auto. now right.
    + specialize (IH queue count). cbv zeta in IH.
      destruct IH as (H1 & H2 & H3 & H4 & H5 & H6).
      cbn [List.length]. repeat split; try lia; auto.
      intros row Hin. destruct (H5 row Hin) as [Hq|(kw' & Hk & Hw & Hr)];
        [now left|right]. exists kw'. repeat split; auto. now right.
Qed.

(** X21.  Whatever the queue store accepts, [expand_territory] removes no
    keyword from the queue and keeps the keywords distinct; the number it
    returns is at most the number of candidates and at least the number of
    rows the queue gained; and every row it wrote carries a cleaned
    candidate (stripped, lowercased) of 8 characters at least that holds
    one of the five territory terms and differs from the lowercased source
    keyword, with volume 100, status [unprocessed] and the source keyword
    in its [source] column. *)
Theorem expand_territory_sound :
  forall queue lsi_keywords source_keyword,
    let r := expand_territory queue_accepts queue lsi_keywords source_keyword in
    snd r <= List.length lsi_keywords
    /\ List.length (fst r) <= List.length queue + snd r
    /\ (NoDup (map q_keyword queue) -> NoDup (map q_keyword (fst r)))
    /\ (forall row, In row queue ->
          exists row', In row' (fst r) /\ q_keyword row' = q_keyword row)
    /\ (forall row, In row (fst r) ->
          In row queue
          \/ exists kw,
               In kw lsi_keywords
               /\ q_keyword row = Text.lower (strip kw)
               /\ 8 <= String.length (q_keyword row)
               /\ (exists term, In term territory_terms
                                /\ Text.contains term (q_keyword row) = true)
               /\ q_keyword row <> Text.lower source_keyword
               /\ q_volume row = 100%Z
               /\ q_status row = "unprocessed"
               /\ q_source row = "discovered_from:" ++ source_keyword).
Proof.
  intros queue lsi source r.
  assert (Hr : r = loop lsi source queue 0) by (subst r; now destruct lsi).
  pose proof (expand_loop_sound source lsi queue 0) as H. cbv zeta in H.
  rewrite <- Hr in H. destruct H as (_ & H2 & H3 & H4 & H5 & H6).
  split; [lia|]. split; [lia|]. split; [exact H4|]. split; [exact H6|].
  intros row Hin. destruct (H5 row Hin) as [Hq|(kw & Hk & Hw & ->)];
    [now left|right].
  exists kw. unfold worth_queueing in Hw.
  apply andb_true_iff in Hw as [Hw Hne]. apply andb_true_iff in Hw as [Hlen Hterm].
  cbn [discovered_row q_keyword q_volume q_status q_source].
  split; [exact Hk|]. split; [reflexivity|]. split.
  { destruct (Nat.ltb_spec (String.length (Text.lower (strip kw))) 8);
      [discriminate|lia]. }
  split.
  { apply existsb_exists in Hterm as (term & Hin' & Hc). now exists term. }
  split.
  { intros E. rewrite E, String.eqb_refl in Hne. discriminate. }
  repeat split.
Qed.

End ExplorerFacts.

Lemma expand_loop_requeues source kw : forall lsi queue count,
  worth_queueing (Text.lower (strip kw)) source = true ->
  NoDup (map q_keyword queue) ->
  In kw lsi
  \/ (forall row, In row queue -> q_keyword row = Text.lower (strip kw) ->
                  row = discovered_row (Text.lower (strip kw)) source)
     /\ In (discovered_row (Text.lower (strip kw)) source) queue ->
  let queue' := fst (expand_loop queue_accepts_all lsi source queue count) in
  (forall row, In row queue' -> q_keyword row = Text.lower (strip kw) ->
               row = discovered_row (Text.lower (strip kw)) source)
  /\ In (discovered_row (Text.lower (strip kw)) source) queue'.
Proof.
  induction lsi as [|kw' lsi IH]; intros queue count Hw Hnd Hcase.
  - destruct Hcase as [[]|H]. exact H.
  - cbv zeta. rewrite expand_loop_step. unfold queue_accepts_all at 1.
    rewrite andb_true_r.
    destruct (worth_queueing (Text.lower (strip kw')) source) eqn:Ew'.
    + apply IH; [exact Hw|now apply upsert_distinct|].
      destruct (String.eqb_spec (Text.lower (strip kw')) (Text.lower (strip kw)))
        as [E|Hne].
      * right. rewrite E. split; [|apply upsert_has].
        intros row Hin Hk. now apply (upsert_overwrites _ queue).
      * destruct Hcase as [[->|Hin]|[Hall Hhas]];
          [now destruct Hne|now left|right].
        split.
        -- intros row Hin Hk. apply upsert_in in Hin as [->|Hin];
             [now destruct Hne|now apply Hall].
        -- destruct (upsert_keeps_keys (discovered_row (Text.lower (strip kw')) source)
                       queue _ Hhas) as (r' & Hr' & Hk').
           cbn [discovered_row q_keyword] in Hk'.
           assert (r' = discovered_row (Text.lower (strip kw)) source).
           { apply upsert_in in Hr' as [->|Hr'];
               [now destruct Hne|now apply Hall]. }
           now subst r'.
    + apply IH; [exact Hw|exact Hnd|].
      destruct Hcase as [[->|Hin]|H]; [congruence|now left|now right].
Qed.

(** X22.  A candidate that passes the filter of [expand_territory] ends in
    the queue with status [unprocessed] and volume 100 when the store
    takes the upserts, whatever the queue held for that keyword before: a
    keyword that had been processed is queued again, with its row
    overwritten. *)
Theorem expand_territory_requeues :
  forall queue lsi_keywords source_keyword kw,
    NoDup (map q_keyword queue) ->
    In kw lsi_keywords ->
    worth_queueing (Text.lower (strip kw)) source_keyword = true ->
    let queue' :=
      fst (expand_territory queue_accepts_all queue lsi_keywords source_keyword) in
    In (discovered_row (Text.lower (strip kw)) source_keyword) queue'
    /\ forall row,
         In row queue' -> q_keyword row = Text.lower (strip kw) ->
         q_status row = "unprocessed" /\ q_volume row = 100%Z.
Proof.
  intros queue lsi source kw Hnd Hin Hw queue'.
  assert (Hq : queue' = fst (expand_loop queue_accepts_all lsi source queue 0)).
  { subst queue'. destruct lsi; [destruct Hin|reflexivity]. }
  destruct (expand_loop_requeues source kw lsi queue 0 Hw Hnd (or_introl Hin))
    as [Hall Hhas].
  rewrite <- Hq in Hall, Hhas. split; [exact Hhas|].
  intros row Hrow Hk. rewrite (Hall row Hrow Hk). now split.
Qed.

Lemma expand_territory_requeues_witness :
  In (discovered_row "excavator lease rates" "excavator financing")
    (fst (expand_territory queue_accepts_all
            [ {| q_keyword := "excavator lease rates"; q_volume := 900%Z;
                 q_source := "ahrefs"; q_status := "processed" |} ]
            [ "  Excavator Lease Rates " ] "excavator financing")).
Proof.
  refine (proj1 (expand_territory_requeues
                   [ {| q_keyword := "excavator lease rates"; q_volume := 900%Z;
                        q_source := "ahrefs"; q_status := "processed" |} ]
                   [ "  Excavator Lease Rates " ] "excavator financing"
                   "  Excavator Lease Rates " _ _ _)).
  - repeat constructor. intros [].
  - now left.
  - vm_compute. reflexivity.
Defined.

Lemma expand_territory_sound_witness :
  NoDup (map q_keyword
           (fst (expand_territory queue_accepts_all
                   [ {| q_keyword := "excavator lease rates"; q_volume := 900%Z;
                        q_source := "ahrefs"; q_status := "processed" |} ]
                   [ "  Excavator Lease Rates "; "bad credit loans" ]
                   "excavator financing"))).
Proof.
  apply (proj1 (proj2 (proj2
           (expand_territory_sound queue_accepts_all
              [ {| q_keyword := "excavator lease rates"; q_volume := 900%Z;
                   q_source := "ahrefs"; q_status := "processed" |} ]
              [ "  Excavator Lease Rates "; "bad credit loans" ]
              "excavator financing")))).
  repeat constructor. intros [].
Defined.

(** ** The sanitising loop *)

Lemma traverse_Forall2 {A B : Type} (f : A -> option B) : forall l l',
  traverse f l = Some l' -> Forall2 (fun a b => f a = Some b) l l'.
Proof.
  induction l as [|a l IH]; intros l' H; cbn [traverse] in H.
  - injection H as <-. constructor.
  - destruct (f a) as [b|] eqn:Ea; [|discriminate]. cbn [bind] in H.
    destruct (traverse f l) as [bs|]; [|discriminate]. cbn [bind] in H.
    injection H as <-. constructor; [exact Ea|now apply IH].
Qed.

Lemma Forall2_impl {A B : Type} (P Q : A -> B -> Prop) :
  (forall a b, P a b -> Q a b) ->
  forall l l', Forall2 P l l' -> Forall2 Q l l'.
Proof. intros H l l' F. induction F; constructor; auto. Qed.

(** X23.  The sanitising loop of [generate_content_for_node], when it
    returns, keeps the keys of the reply and their order, rewrites every
    string value with [sanitize_brand_content], leaves numbers, booleans,
    nulls and objects as they are, and turns every object inside a list
    value into an object with exactly the two keys [q] and [a]: any other
    key of a FAQ entry is dropped. *)
Theorem sanitize_content_shape :
  forall reply content,
    sanitize_content reply = Some content ->
    Forall2 sanitized_entry reply content
    /\ map fst content = map fst reply.
Proof.
  intros reply content H.
  assert (F : Forall2 sanitized_entry reply content).
  { unfold sanitize_content in H. apply traverse_Forall2 in H.
    eapply Forall2_impl; [|exact H]. intros [k v] [k' v'] E.
    unfold sanitize_entry in E. unfold sanitized_entry. cbn [fst snd] in *.
    destruct v as [| | |s|items|d]; try (injection E as <- <-; now split).
    destruct (traverse sanitize_item items) as [items'|] eqn:Et; [|discriminate].
    cbn [bind] in E. injection E as <- <-. split; [reflexivity|].
    exists items'. split; [reflexivity|].
    apply traverse_Forall2 in Et. eapply Forall2_impl; [|exact Et].
    intros item item' Ei. unfold sanitize_item in Ei. unfold sanitized_item.
    destruct item as [| | | | |d]; try (now injection Ei as <-).
    destruct (sanitize_value (get_default "q" (JStr EmptyString) d)) as [q|];
      [|discriminate]. cbn [bind] in Ei.
    destruct (sanitize_value (get_default "a" (JStr EmptyString) d)) as [a|];
      [|discriminate]. cbn [bind] in Ei.
    injection Ei as <-. now exists q, a. }
  split; [exact F|].
  clear H. induction F as [|kv kv' l l' [Hk _] _ IH]; [reflexivity|].
  cbn [map]. now rewrite Hk, IH.
Qed.

Lemma sanitize_content_shape_witness :
  sanitize_content
    [ ("intro", JStr "Ask about our rates");
      ("faq", JArr [ JObj [ ("q", JStr "How?"); ("a", JStr "Apply.");
                            ("source", JStr "https://a.example") ] ]) ]
  = Some [ ("intro", JStr "Ask about rates from our lending partners");
           ("faq", JArr [ JObj [ ("q", JStr "How?"); ("a", JStr "Apply.") ] ]) ]
  /\ exists content,
       sanitize_content
         [ ("intro", JStr "Ask about our rates");
           ("faq", JArr [ JObj [ ("q", JStr "How?"); ("a", JStr "Apply.");
                                 ("source", JStr "https://a.example") ] ]) ]
       = Some content
       /\ map fst content = [ "intro"; "faq" ].
Proof.
  split; [vm_compute; reflexivity|].
  destruct (sanitize_content
              [ ("intro", JStr "Ask about our rates");
                ("faq", JArr [ JObj [ ("q", JStr "How?"); ("a", JStr "Apply.");
                                      ("source", JStr "https://a.example") ] ]) ])
    as [content|] eqn:E; [|vm_compute in E; discriminate].
  exists content. split; [reflexivity|].
  exact (proj2 (sanitize_content_shape _ _ E)).
Defined.

(** ** Maintenance: refreshed is not republished *)

Section MaintenanceFacts.

Variables token collection site today : string.
Variable ready : Node.t -> bool.

Let generate := generate_content_for_node site today.
Let publish := publish_to_webflow token collection site ready.
Let refresh := refresh_loop token collection site today ready.

(** No run of the generator sends anything to the CMS. *)
Lemma generate_sends_nothing w node_id env :
  cms_calls (fst (generate w node_id env)) = cms_calls w.
Proof.
  assert (Hai : cms_calls (world_after_intelligence env node_id w) = cms_calls w).
  { unfold world_after_intelligence. now destruct (env_serp_hash env). }
  unfold generate, generate_content_for_node.
  fold (world_after_intelligence env node_id w).
  destruct (single_node node_id w) as [n|]; [|reflexivity].
  destruct (generation_errors w n); [|reflexivity].
  destruct (negb (env_budget_ok env)); [exact Hai|].
  destruct (env_reply env) as [|[[| | | | |[|kv reply]]|]];
    try exact Hai; try (destruct (json_truthy _); exact Hai).
  destruct (draft _ _ _ _ _ _) as [d|]; [|exact Hai].
  pose proof (update_content_safe_cases (world_after_intelligence env node_id w)
                node_id (JObj (draft_content d)) (Z.of_nat (draft_word_count d)))
    as Hc.
  destruct (update_content_safe _ _ _ _) as [w1 b]. cbn [fst] in *.
  destruct Hc as [->|(f & _ & ->)]; exact Hai.
Qed.

(** A publish call sends one request at most. *)
Lemma publish_sends_one w node_id cms w' r :
  publish w node_id cms = Some (w', r) ->
  exists calls, cms_calls w' = (cms_calls w ++ calls)%list /\ List.length calls <= 1.
Proof.
  unfold publish, publish_to_webflow. intros H.
  assert (Hnone : forall e errors,
             Some (w, pub_failed e errors) = Some (w', r) ->
             exists calls, cms_calls w' = (cms_calls w ++ calls)%list
                           /\ List.length calls <= 1).
  { intros e errors E. injection E as <- _. exists [].
    rewrite app_nil_r. split; [reflexivity|cbn; lia]. }
  destruct (negb (Text.truthy token) || negb (Text.truthy collection));
    [now apply (Hnone _ _ H)|].
  destruct (negb (check_kill_switch w)); [now apply (Hnone _ _ H)|].
  destruct (negb (CircuitBreaker.can_proceed (circuit_breaker w)));
    [now apply (Hnone _ _ H)|].
  destruct (single_node node_id w) as [n|]; [|now apply (Hnone _ _ H)].
  destruct (publish_errors n); [|now apply (Hnone _ _ H)].
  destruct (negb (ready n)); [discriminate|].
  destruct cms as [|code id text];
    [|destruct ((code =? 200)%Z || (code =? 201)%Z || (code =? 202)%Z)];
    injection H as <- _; eexists; (split; [reflexivity|cbn; lia]).
Qed.

Lemma refresh_loop_counts : forall stale w refreshed w' pages,
  refresh w stale refreshed = Some (w', pages) ->
  exists more calls,
    pages = (refreshed ++ more)%list
    /\ List.length more <= List.length stale
    /\ cms_calls w' = (cms_calls w ++ calls)%list
    /\ List.length calls <= List.length more.
Proof.
  induction stale as [|page stale IH]; intros w refreshed w' pages H;
    unfold refresh in H; cbn [refresh_loop] in H.
  - injection H as <- <-. exists [], []. rewrite !app_nil_r. cbn. auto.
  - pose proof (generate_sends_nothing w (stale_id page) (stale_env page)) as Hg.
    unfold generate in Hg.
    destruct (generate_content_for_node site today w (stale_id page)
                (stale_env page)) as [w1 result]. cbn [fst] in Hg.
    destruct (success result).
    + destruct (generate_internal_links w1 (stale_id page)) as [[w2 links]|] eqn:El;
        [|discriminate]. cbn [bind fst] in H.
      destruct (generate_internal_links_inv _ _ _ _ El)
        as (_ & _ & _ & content & _ & _ & _ & _ & _ & Hw2).
      destruct (publish_to_webflow token collection site ready w2 (stale_id page)
                  (stale_cms page)) as [[w3 r]|] eqn:Ep; [|discriminate].
      cbn [bind fst] in H.
      destruct (publish_sends_one _ _ _ _ _ Ep) as (c1 & Hc1 & Hl1).
      apply IH in H as (more & calls & -> & Hlen & Hcalls & Hle).
      exists (stale_keyword page :: more), (c1 ++ calls)%list.
      rewrite <- app_assoc. cbn [app List.length].
      split; [reflexivity|]. split; [lia|]. split.
      * rewrite Hcalls, Hc1, Hw2. cbn [cms_calls update_node with_decision_nodes].
        now rewrite Hg, app_assoc.
      * rewrite length_app. lia.
    + apply IH in H as (more & calls & -> & Hlen & Hcalls & Hle).
      exists more, calls. cbn [List.length].
      split; [reflexivity|]. split; [lia|]. split; [now rewrite Hcalls, Hg|exact Hle].
Qed.

(** X24.  [refresh_stale_content] counts a page as refreshed as soon as its
    content was regenerated; the publish call that follows may be refused
    or fail.  So, when the call returns, the number it reports is at most
    the number of stale pages and at least the number of requests that
    went to the CMS during the call. *)
Theorem refresh_stale_content_counts :
  forall w stale w' pages,
    refresh_stale_content token collection site today ready w stale
    = Some (w', pages) ->
    List.length pages <= List.length stale
    /\ exists calls,
         cms_calls w' = (cms_calls w ++ calls)%list
         /\ List.length calls <= List.length pages.
Proof.
  intros w stale w' pages H.
  assert (Hloop : refresh w stale [] = Some (w', pages)).
  { unfold refresh_stale_content in H. destruct stale; exact H. }
  destruct (refresh_loop_counts _ _ _ _ _ Hloop)
    as (more & calls & -> & Hlen & Hcalls & Hle).
  cbn [app]. split; [exact Hlen|]. now exists calls.
Qed.

End MaintenanceFacts.

(** With the breaker open the page is reported as refreshed and nothing
    is sent. *)
Lemma refresh_stale_content_counts_witness :
  exists w',
    refresh_stale_content "token" "collection" "https://equipflow.co"
      "2026-01-15" (fun _ => true) tripped_world [stale_sample]
    = Some (w', [Some "excavator financing"])
    /\ cms_calls w' = [].
Proof.
  destruct (refresh_stale_content "token" "collection" "https://equipflow.co"
              "2026-01-15" (fun _ => true) tripped_world [stale_sample])
    as [[w' pages]|] eqn:E; [|vm_compute in E; discriminate].
  destruct (refresh_stale_content_counts _ _ _ _ _ _ _ _ _ E)
    as (_ & calls & Hcalls & Hle).
  assert (Hpages : pages = [Some "excavator financing"]).
  { vm_compute in E. injection E as _ <-. reflexivity. }
  assert (Hnone : cms_calls w' = []).
  { vm_compute in E. injection E as <- _. reflexivity. }
  exists w'. subst pages. split; [reflexivity|exact Hnone].
Defined.

(** ** One process per page *)

Section PublishOnlyFacts.

Variables token collection site : string.
Variable ready : Node.t -> bool.

Let command := publish_command token collection site ready.
Let script := publish_only token collection site ready.

(** What a [publish] command keeps, whatever its outcome: the rows stay
    complete, the kill switch is not touched, and one request more was
    sent when the row was complete. *)
Lemma publish_command_step w node_id cms :
  Text.truthy token = true -> Text.truthy collection = true ->
  check_kill_switch w = true ->
  (forall m, ready m = true) ->
  (exists n, single_node node_id w = Some n /\ publish_errors n = []) ->
  exists w' r call,
    command w node_id cms = Some (w', r)
    /\ pub_error r <> Some (PubMessage "Circuit breaker open")
    /\ cms_calls w' = (cms_calls w ++ [call])%list
    /\ check_kill_switch w' = true
    /\ forall i, (exists n, single_node i w = Some n /\ publish_errors n = []) ->
                 exists n', single_node i w' = Some n' /\ publish_errors n' = [].
Proof.
  intros Ht Hc Hk Hready (n & Hn & Hv).
  unfold command, publish_command, publish_to_webflow.
  rewrite Ht, Hc. cbn [negb orb].
  change (check_kill_switch (with_circuit_breaker new_breaker w))
    with (check_kill_switch w).
  rewrite Hk. cbn [negb].
  change (single_node node_id (with_circuit_breaker new_breaker w))
    with (single_node node_id w).
  rewrite Hn, Hv, Hready. cbn [negb].
  destruct cms as [|code id text];
    [|destruct ((code =? 200)%Z || (code =? 201)%Z || (code =? 202)%Z)].
  - do 3 eexists. split; [reflexivity|]. split; [discriminate|].
    split; [reflexivity|]. split; [exact Hk|]. intros i Hi. exact Hi.
  - do 3 eexists. split; [reflexivity|]. split; [discriminate|].
    split; [reflexivity|]. split; [exact Hk|].
    intros i (m & Hm & Hvm).
    match goal with
    | |- context [update_node node_id ?f ?w0] =>
        pose proof (single_node_update_any i node_id f w0 (fun _ => eq_refl)) as Hu
    end.
    change (single_node i (with_cms_calls _ (with_circuit_breaker new_breaker w)))
      with (single_node i w) in Hu.
    rewrite Hm in Hu. cbn [option_map] in Hu.
    eexists. split; [exact Hu|].
    destruct (Node.id m =? node_id); exact Hvm.
  - do 3 eexists. split; [reflexivity|]. split; [discriminate|].
    split; [reflexivity|]. split; [exact Hk|]. intros i Hi. exact Hi.
Qed.

(** X25.  [publish_only.py] starts a new process for every page, and the
    breaker lives in the process: no page of the script is ever refused
    with "Circuit breaker open"; and when Webflow is configured, the kill
    switch is off and the rows of the pages are complete, every page of
    the list is sent to the CMS, one request each, also after three or
    more failures in a row. *)
Theorem publish_only_never_trips :
  forall pages w,
    Forall (fun result =>
              forall r, result = Some r ->
                        pub_error r <> Some (PubMessage "Circuit breaker open"))
           (snd (script w pages))
    /\ (Text.truthy token = true -> Text.truthy collection = true ->
        check_kill_switch w = true ->
        (forall m, ready m = true) ->
        Forall (fun page => exists n, single_node (fst page) w = Some n
                                      /\ publish_errors n = []) pages ->
        List.length (cms_calls (fst (script w pages)))
        = List.length (cms_calls w) + List.length pages).
Proof.
  induction pages as [|[node_id cms] pages IH]; intros w.
  - split; [constructor|]. intros. cbn. lia.
  - split.
    + unfold script. cbn [publish_only].
      destruct (publish_command token collection site ready w node_id cms)
        as [[w' r]|] eqn:E.
      * pose proof (proj1 (IH w')) as Hrest. unfold script in Hrest.
        destruct (publish_only token collection site ready w' pages) as [w'' rs].
        cbn [snd] in *. constructor; [|exact Hrest].
        intros r0 [= <-].
        unfold publish_command, publish_to_webflow in E.
        destruct (negb (Text.truthy token) || negb (Text.truthy collection));
          [injection E as _ <-; discriminate|].
        destruct (negb (check_kill_switch _)); [injection E as _ <-; discriminate|].
        cbn [negb CircuitBreaker.can_proceed circuit_breaker with_circuit_breaker
               new_breaker CircuitBreaker.is_open] in E.
        destruct (single_node node_id _) as [n|];
          [|injection E as _ <-; discriminate].
        destruct (publish_errors n); [|injection E as _ <-; discriminate].
        destruct (negb (ready n)); [discriminate|].
        destruct cms as [|code id text];
          [|destruct ((code =? 200)%Z || (code =? 201)%Z || (code =? 202)%Z)];
          injection E as _ <-; discriminate.
      * pose proof (proj1 (IH w)) as Hrest. unfold script in Hrest.
        destruct (publish_only token collection site ready w pages) as [w'' rs].
        cbn [snd] in *. constructor; [discriminate|exact Hrest].
    + intros Ht Hc Hk Hready Hpages.
      inversion Hpages as [|? ? Hpage Hrest]; subst. cbn [fst] in Hpage.
      destruct (publish_command_step w node_id cms Ht Hc Hk Hready Hpage)
        as (w' & r & call & Hcmd & _ & Hcalls & Hk' & Hkeep).
      unfold script. cbn [publish_only]. unfold command in Hcmd. rewrite Hcmd.
      assert (Hrest' : Forall (fun page => exists n,
                                  single_node (fst page) w' = Some n
                                  /\ publish_errors n = []) pages).
      { eapply Forall_impl; [|exact Hrest]. intros page Hp. now apply Hkeep. }
      pose proof (proj2 (IH w') Ht Hc Hk' Hready Hrest') as Hlen.
      unfold script in Hlen.
      destruct (publish_only token collection site ready w' pages) as [w'' rs].
      cbn [fst List.length] in *. rewrite Hlen, Hcalls, length_app. cbn. lia.
Qed.

End PublishOnlyFacts.

Lemma publish_only_never_trips_witness :
  List.length
    (cms_calls
       (fst (publish_only "token" "collection" "https://equipflow.co"
               (fun _ => true) (world_of [complete_row])
               [ (7, CmsRaised); (7, CmsRaised); (7, CmsRaised); (7, CmsRaised) ])))
  = 4.
Proof.
  refine (proj2 (publish_only_never_trips "token" "collection"
                   "https://equipflow.co" (fun _ => true)
                   [ (7, CmsRaised); (7, CmsRaised); (7, CmsRaised); (7, CmsRaised) ]
                   (world_of [complete_row]))
            eq_refl eq_refl eq_refl (fun _ => eq_refl) _).
  repeat constructor; exists complete_row; split; reflexivity.
Defined.
